(** * bot-forge: the in-browser dataset engine

    A shallow embedding of the TypeScript code that profiles a record list
    ([analyzeFrontendData]), ranks rows against a query ([vectorize],
    [cosineSimilarity], [vectorSearch]) and answers a chat message
    ([handleSendMessage]), followed by the properties of that code.

    Conventions of the embedding.
    - A JavaScript array is a [list]; [length] is a [nat].
    - A record (a row of [dataRows]) is the association list of its own
      properties, in the order in which [Object.keys] enumerates them.  Its
      prototype is [Object.prototype]: reading a name the record does not own
      yields the member of [Object.prototype] of that name, if there is one.
      The accumulators that the profiler starts from an empty literal are
      objects of the same kind.
    - A cell holds a primitive, or one of the objects of [Object.prototype].
    - A number of the profiler is [number]: NaN, an infinity, or an exact
      rational.  A numeral keeps its exact value within the range of binary64
      (the rounding of the last digits of a numeral of more than 15 digits is
      idealised away); the counts the profiler compares are far below 2^53,
      where the comparison with [n * 0.8] or [n * 0.5] has the same outcome
      in binary64 as over the rationals.
    - The ranker is embedded in binary64 ([Binary64], on the primitive floats),
      which is what the engine computes and what decides the order of a
      ranking.  It is embedded over the reals as well ([Ranker]), for the
      properties that hold of the computation whatever the rounding.
    - A string is a sequence of code units below 256 (Latin-1); white space,
      case folding and the class \w are those of JavaScript on these. *)

From Stdlib Require Import List String Ascii Bool Arith ZArith QArith Lia.
From Stdlib Require Import Permutation Sorted DecimalString.
From Stdlib Require Import Reals Lra.
From Stdlib Require Floats.
Import ListNotations.
Import PrimFloat.PrimFloatNotations.

Local Open Scope string_scope.
Local Open Scope list_scope.
Local Open Scope nat_scope.

(* ================================================================== *)
(** ** The JavaScript fragment the code relies on *)
(* ================================================================== *)

Module JS.

(** A JavaScript number as the profiler sees it. *)
Inductive number : Type :=
| NaN
| Infinity (negative : bool)
| Fin (q : Q).

(** The members of [Object.prototype], which every record and every object
    literal inherits. *)
Inductive member : Type :=
| Constructor
| DefineGetter
| DefineSetter
| HasOwnProperty
| LookupGetter
| LookupSetter
| IsPrototypeOf
| PropertyIsEnumerable
| ToString
| ValueOf
| Proto
| ToLocaleString.

Definition members : list member :=
  [Constructor; DefineGetter; DefineSetter; HasOwnProperty; LookupGetter;
   LookupSetter; IsPrototypeOf; PropertyIsEnumerable; ToString; ValueOf;
   Proto; ToLocaleString].

Definition memberName (m : member) : string :=
  match m with
  | Constructor => "constructor"
  | DefineGetter => "__defineGetter__"
  | DefineSetter => "__defineSetter__"
  | HasOwnProperty => "hasOwnProperty"
  | LookupGetter => "__lookupGetter__"
  | LookupSetter => "__lookupSetter__"
  | IsPrototypeOf => "isPrototypeOf"
  | PropertyIsEnumerable => "propertyIsEnumerable"
  | ToString => "toString"
  | ValueOf => "valueOf"
  | Proto => "__proto__"
  | ToLocaleString => "toLocaleString"
  end.

(** The member of [Object.prototype] that a name denotes. *)
Definition memberOf (key : string) : option member :=
  find (fun m => String.eqb (memberName m) key) members.

Definition isMember (key : string) : bool :=
  match memberOf key with Some _ => true | None => false end.

(** The members that hold a function: all but the accessor [__proto__]. *)
Definition isFunctionMember (key : string) : bool :=
  isMember key && negb (String.eqb key "__proto__").

(** Object identity on the members. *)
Definition sameMember (a b : member) : bool :=
  String.eqb (memberName a) (memberName b).

(** The values a cell of a row can hold: the primitives, and the objects
    that [Object.prototype] holds, [VMember m] being the built-in function
    under the name of [m], and for [Proto] the prototype object itself, which
    is what the accessor returns for a record.  [VUndefined] is also what
    [row[field]] yields when neither the row nor the prototype has the
    name. *)
Inductive value : Type :=
| VUndefined
| VNull
| VBool (b : bool)
| VNum (n : number)
| VStr (s : string)
| VMember (m : member).

Definition record : Type := list (string * value).

(** [Object.keys(row)]. *)
Definition keys (row : record) : list string := map fst row.

(** What a name yields on an object that does not own it. *)
Definition inherited (key : string) : value :=
  match memberOf key with
  | Some m => VMember m
  | None => VUndefined
  end.

(** [row[field]]. *)
Fixpoint getField (row : record) (field : string) : value :=
  match row with
  | [] => inherited field
  | (k, v) :: rest => if String.eqb k field then v else getField rest field
  end.

(** *** Strings *)

Definition chars (s : string) : list ascii := list_ascii_of_string s.
Definition unchars (l : list ascii) : string := string_of_list_ascii l.

(** White space of [String.prototype.trim] and of the StringToNumber grammar
    (TAB, LF, VT, FF, CR, SP and the no-break space). *)
Definition isWhite (c : ascii) : bool :=
  let n := nat_of_ascii c in
  ((9 <=? n) && (n <=? 13)) || (n =? 32) || (n =? 160).

Fixpoint dropWhite (l : list ascii) : list ascii :=
  match l with
  | c :: rest => if isWhite c then dropWhite rest else l
  | [] => []
  end.

Definition trimChars (l : list ascii) : list ascii :=
  rev (dropWhite (rev (dropWhite l))).

(** [s.trim()]. *)
Definition trim (s : string) : string := unchars (trimChars (chars s)).

(** [s.toLowerCase()]: the letters A to Z, and the accented capitals from
    U+00C0 to U+00DE except the multiplication sign U+00D7. *)
Definition lowerChar (c : ascii) : ascii :=
  let n := nat_of_ascii c in
  if ((65 <=? n) && (n <=? 90))
     || ((192 <=? n) && (n <=? 222) && negb (n =? 215))
  then ascii_of_nat (n + 32) else c.

Definition toLowerCase (s : string) : string :=
  unchars (map lowerChar (chars s)).

(** The class \w: letters, digits and the underscore. *)
Definition isWordChar (c : ascii) : bool :=
  let n := nat_of_ascii c in
  ((48 <=? n) && (n <=? 57)) || ((65 <=? n) && (n <=? 90))
  || ((97 <=? n) && (n <=? 122)) || (n =? 95).

(** [s.split(/\W+/)]: the pieces between maximal runs of non-word
    characters.  A run at either end leaves an empty piece there, and the
    empty string splits into one empty piece. *)
Fixpoint splitNonWord (l : list ascii) (piece : list ascii) (inRun : bool)
  : list string :=
  match l with
  | [] => [unchars (rev piece)]
  | c :: rest =>
      if isWordChar c then splitNonWord rest (c :: piece) false
      else if inRun then splitNonWord rest piece true
      else unchars (rev piece) :: splitNonWord rest [] true
  end.

Definition split_W (s : string) : list string := splitNonWord (chars s) [] false.

(** *** Numbers *)

Definition isNaN (n : number) : bool :=
  match n with NaN => true | _ => false end.

(** ToBoolean on a number: NaN and zero are falsy. *)
Definition truthyNumber (n : number) : bool :=
  match n with
  | NaN => false
  | Infinity _ => true
  | Fin q => negb (Qeq_bool q 0)
  end.

(** [n || 0]. *)
Definition orZero (n : number) : number :=
  if truthyNumber n then n else Fin 0.

Definition digitOf (radix : Z) (c : ascii) : option Z :=
  let n := Z.of_nat (nat_of_ascii c) in
  let d := if (48 <=? n)%Z && (n <=? 57)%Z then (n - 48)%Z
           else if (97 <=? n)%Z && (n <=? 102)%Z then (n - 87)%Z
           else if (65 <=? n)%Z && (n <=? 70)%Z then (n - 55)%Z
           else 99%Z in
  if (d <? radix)%Z then Some d else None.

(** Reads the longest prefix of digits in [radix]: the value read so far, the
    number of digits, and what follows. *)
Fixpoint readDigits (radix : Z) (l : list ascii) (acc : Z) (count : nat)
  : Z * nat * list ascii :=
  match l with
  | c :: rest =>
      match digitOf radix c with
      | Some d => readDigits radix rest (acc * radix + d)%Z (S count)
      | None => (acc, count, l)
      end
  | [] => (acc, count, [])
  end.

(** [mantissa * 10^exponent] as a rational. *)
Definition scale10 (mantissa exponent : Z) : Q :=
  if (0 <=? exponent)%Z
  then inject_Z (mantissa * 10 ^ exponent)
  else Qmake mantissa (Z.to_pos (10 ^ (- exponent))).

(** ExponentPart: [e] or [E], an optional sign, at least one digit, and
    nothing after it; no exponent part at all counts as exponent 0. *)
Definition readExponent (l : list ascii) : option Z :=
  match l with
  | [] => Some 0%Z
  | c :: rest =>
      if (nat_of_ascii c =? 101) || (nat_of_ascii c =? 69) then
        let '(neg, body) :=
          match rest with
          | s :: rest' =>
              if nat_of_ascii s =? 45 then (true, rest')
              else if nat_of_ascii s =? 43 then (false, rest')
              else (false, rest)
          | [] => (false, rest)
          end in
        match readDigits 10 body 0%Z 0 with
        | (_, O, _) => None
        | (e, _, []) => Some (if neg then (- e)%Z else e)
        | _ => None
        end
      else None
  end.

(** StrUnsignedDecimalLiteral without the [Infinity] case. *)
Definition readUnsignedDecimal (l : list ascii) : option Q :=
  let '(ip, ni, afterInt) := readDigits 10 l 0%Z 0 in
  let '(fp, nf, afterFrac) :=
    match afterInt with
    | c :: rest =>
        if nat_of_ascii c =? 46 then readDigits 10 rest 0%Z 0
        else (0%Z, 0, afterInt)
    | [] => (0%Z, 0, afterInt)
    end in
  if (ni + nf =? 0) then None
  else
    match readExponent afterFrac with
    | Some e => Some (scale10 (ip * 10 ^ Z.of_nat nf + fp) (e - Z.of_nat nf))
    | None => None
    end.

Definition readPrefixed (radix : Z) (l : list ascii) : number :=
  match readDigits radix l 0%Z 0 with
  | (_, O, _) => NaN
  | (v, _, []) => Fin (inject_Z v)
  | _ => NaN
  end.

Definition readSignless (l : list ascii) : number :=
  if String.eqb (unchars l) "Infinity" then Infinity false
  else match readUnsignedDecimal l with
       | Some q => Fin q
       | None => NaN
       end.

Definition negate (n : number) : number :=
  match n with
  | NaN => NaN
  | Infinity s => Infinity (negb s)
  | Fin q => Fin (- q)
  end.

(** [x - y]: NaN when an operand is NaN or both are the same infinity. *)
Definition minus (x y : number) : number :=
  match x, y with
  | NaN, _ | _, NaN => NaN
  | Infinity s, Infinity t => if Bool.eqb s t then NaN else Infinity s
  | Infinity s, Fin _ => Infinity s
  | Fin _, Infinity t => Infinity (negb t)
  | Fin a, Fin b => Fin (a - b)
  end.

(** [x > 0]; a comparison with NaN is false. *)
Definition positiveNumber (x : number) : bool :=
  match x with
  | NaN => false
  | Infinity s => negb s
  | Fin q => negb (Qle_bool q 0)
  end.

(** The range of binary64: a magnitude of at least [2^1024 - 2^970] rounds
    to an infinity, and one of at most [2^-1075] rounds to zero. *)
Definition inRange (n : number) : number :=
  match n with
  | Fin q =>
      let magnitude := if Qle_bool 0 q then q else Qopp q in
      if Qle_bool (inject_Z (2 ^ 1024 - 2 ^ 970)) magnitude
      then Infinity (negb (Qle_bool 0 q))
      else if Qle_bool magnitude (Qmake 1 (Z.to_pos (2 ^ 1075))) then Fin 0
      else Fin q
  | _ => n
  end.

(** StringToNumber: white space is trimmed, the empty string is 0, then a
    signed decimal literal or an unsigned 0x / 0o / 0b literal; anything else
    is NaN.  The value is brought into the range of binary64; within the
    range it is kept exact. *)
Definition stringToNumber (s : string) : number :=
  inRange
    match trimChars (chars s) with
    | [] => Fin 0
    | c :: rest =>
        let n := nat_of_ascii c in
        if n =? 43 then readSignless rest
        else if n =? 45 then negate (readSignless rest)
        else if n =? 48 then
          match rest with
          | p :: body =>
              let k := nat_of_ascii p in
              if (k =? 120) || (k =? 88) then readPrefixed 16 body
              else if (k =? 111) || (k =? 79) then readPrefixed 8 body
              else if (k =? 98) || (k =? 66) then readPrefixed 2 body
              else readSignless (c :: rest)
          | [] => readSignless (c :: rest)
          end
        else readSignless (c :: rest)
    end.

(** The source text of a built-in function, as V8 and JavaScriptCore print
    it; the standard fixes it up to white space. *)
Definition nativeText (name : string) : string :=
  "function " ++ name ++ "() { [native code] }".

(** [String(o)] for an object of [Object.prototype]; the function under
    [constructor] is [Object]. *)
Definition memberText (m : member) : string :=
  match m with
  | Proto => "[object Object]"
  | Constructor => nativeText "Object"
  | _ => nativeText (memberName m)
  end.

(** [Number(v)]; an object is converted through its string form. *)
Definition Number (v : value) : number :=
  match v with
  | VUndefined => NaN
  | VNull => Fin 0
  | VBool b => Fin (if b then 1 else 0)
  | VNum n => n
  | VStr s => stringToNumber s
  | VMember m => stringToNumber (memberText m)
  end.

(** *** Conversion to a string: [String(v)], also the property key [o[v]] *)

Definition natToString (n : nat) : string :=
  NilZero.string_of_uint (Nat.to_uint n).

Definition ZToString (z : Z) : string :=
  NilZero.string_of_int (Z.to_int z).

(** The decimal digits of [remainder / denominator] after the point. *)
Fixpoint fractionDigits (fuel : nat) (remainder denominator : Z) : list ascii :=
  match fuel with
  | O => []
  | S fuel' =>
      if (remainder =? 0)%Z then []
      else
        let r := (remainder * 10)%Z in
        ascii_of_nat (48 + Z.to_nat (r / denominator))
          :: fractionDigits fuel' (r mod denominator) denominator
  end.

Fixpoint dropZeros (l : list ascii) : list ascii :=
  match l with
  | c :: rest => if nat_of_ascii c =? 48 then dropZeros rest else l
  | [] => []
  end.

(** The number of zeros a list of digits begins with. *)
Definition leadingZeros (l : list ascii) : nat :=
  List.length l - List.length (dropZeros l).

(** The notation [d.ddde+N] for the significant [digits] of a number whose
    first digit stands for [10^exponent]. *)
Definition exponential (digits : list ascii) (exponent : Z) : string :=
  match rev (dropZeros (rev digits)) with
  | [] => "0"
  | d :: more =>
      unchars (d :: match more with [] => [] | _ => "."%char :: more end)
      ++ "e" ++ (if (exponent <? 0)%Z then "-" else "+")
      ++ ZToString (Z.abs exponent)
  end.

(** Number::toString in radix 10: positional notation for magnitudes from
    10^-6 up to 10^21, exponential notation outside.  The digits are those of
    the exact value. *)
Definition numberToString (n : number) : string :=
  match n with
  | NaN => "NaN"
  | Infinity false => "Infinity"
  | Infinity true => "-Infinity"
  | Fin q =>
      let num := Qnum q in
      let den := Zpos (Qden q) in
      let whole := (Z.abs num / den)%Z in
      let rest := (Z.abs num mod den)%Z in
      let sign := if (num <? 0)%Z then "-" else "" in
      let wholeDigits := chars (ZToString whole) in
      let fraction := fractionDigits 1100 rest den in
      if 21 <? List.length wholeDigits then
        sign ++ exponential (wholeDigits ++ fraction)
                            (Z.of_nat (List.length wholeDigits) - 1)
      else if (whole =? 0)%Z && (6 <=? leadingZeros fraction)
              && negb (rest =? 0)%Z then
        sign ++ exponential (dropZeros fraction)
                            (- Z.of_nat (leadingZeros fraction) - 1)
      else if (rest =? 0)%Z then
        (if (whole =? 0)%Z then "0" else sign ++ ZToString whole)
      else
        sign ++ ZToString whole ++ "." ++ unchars fraction
  end.

Definition toString (v : value) : string :=
  match v with
  | VUndefined => "undefined"
  | VNull => "null"
  | VBool true => "true"
  | VBool false => "false"
  | VNum n => numberToString n
  | VStr s => s
  | VMember m => memberText m
  end.

(** *** Sets of values: [new Set(values)] compares with SameValueZero *)

Definition sameValueZero (a b : value) : bool :=
  match a, b with
  | VUndefined, VUndefined => true
  | VNull, VNull => true
  | VBool x, VBool y => Bool.eqb x y
  | VNum NaN, VNum NaN => true
  | VNum (Infinity x), VNum (Infinity y) => Bool.eqb x y
  | VNum (Fin x), VNum (Fin y) => Qeq_bool x y
  | VStr x, VStr y => String.eqb x y
  | VMember x, VMember y => sameMember x y
  | _, _ => false
  end.

Definition setAdd (s : list value) (v : value) : list value :=
  if existsb (sameValueZero v) s then s else s ++ [v].

(** [new Set(values)], as the list of its members in insertion order; its
    [size] is the length. *)
Definition newSet (values : list value) : list value :=
  fold_left setAdd values [].

(** *** Arrays *)

(** [l.slice(0, end)]: a negative [end] counts from the end of the array. *)
Definition slice0 {A : Type} (l : list A) (end_ : Z) : list A :=
  let len := Z.of_nat (List.length l) in
  let final := if (end_ <? 0)%Z then Z.max (len + end_) 0 else Z.min end_ len in
  firstn (Z.to_nat final) l.

(** [l.map((x, i) => f(x, i))]. *)
Fixpoint mapiFrom {A B : Type} (f : A -> nat -> B) (i : nat) (l : list A)
  : list B :=
  match l with
  | [] => []
  | x :: rest => f x i :: mapiFrom f (S i) rest
  end.

Definition mapi {A B : Type} (f : A -> nat -> B) (l : list A) : list B :=
  mapiFrom f 0 l.

(** [Array.prototype.sort] is stable, and with a consistent comparator its
    result is the one stable sorted arrangement, whatever algorithm the engine
    runs; it is modelled by stable insertion ([sort_unique] below).  With an
    inconsistent comparator the order is implementation-defined and the model
    says nothing.  [after a b] holds when [comparefn(a, b) > 0], that is when
    [a] has to come after [b]; a comparator value of NaN counts as 0. *)
Fixpoint insertSorted {A : Type} (after : A -> A -> bool) (x : A) (l : list A)
  : list A :=
  match l with
  | [] => [x]
  | y :: rest =>
      if after x y then y :: insertSorted after x rest else x :: l
  end.

Fixpoint sort {A : Type} (after : A -> A -> bool) (l : list A) : list A :=
  match l with
  | [] => []
  | x :: rest => insertSorted after x (sort after rest)
  end.

(** An element with its position in the input of a sort. *)
Definition tag {A : Type} (i : nat) (l : list A) : list (nat * A) :=
  mapiFrom (fun x k => (k, x)) i l.

Definition afterTagged {A : Type} (after : A -> A -> bool) (p q : nat * A)
  : bool :=
  after (snd p) (snd q).

(** [p] stays before [q]: [p] does not come after [q], and either [q] comes
    after [p] or they tie and [p] was first in the input. *)
Definition precedes {A : Type} (after : A -> A -> bool) (p q : nat * A)
  : Prop :=
  after (snd p) (snd q) = false /\
  (after (snd q) (snd p) = true \/ fst p < fst q).

(** *** Objects used as maps

    An object is the list of its own properties in creation order; [get] and
    [set] read and define an own property.  The accumulators of the profiler
    start from an empty literal and are read and written with [o[key]]: a
    read of a name the object does not own falls through to
    [Object.prototype] ([memberOf]), and an assignment to [__proto__] reaches
    the accessor of the prototype instead of creating a property
    ([assign]). *)

Definition object (A : Type) : Type := list (string * A).

(** The own property [key] of [o]; [None] when [o] does not own it. *)
Fixpoint get {A : Type} (o : object A) (key : string) : option A :=
  match o with
  | [] => None
  | (k, v) :: rest => if String.eqb k key then Some v else get rest key
  end.

(** Defining the own property [key]: an existing property keeps its place,
    a new one goes last. *)
Fixpoint set {A : Type} (o : object A) (key : string) (v : A) : object A :=
  match o with
  | [] => [(key, v)]
  | (k, w) :: rest =>
      if String.eqb k key then (k, v) :: rest else (k, w) :: set rest key v
  end.

(** [o[key] = v] for a number or a string [v], on an object that does not
    own [__proto__]: under that name the assignment calls the setter of
    [Object.prototype], which ignores a value that is neither an object nor
    null, and the object is left as it was. *)
Definition assign {A : Type} (o : object A) (key : string) (v : A) : object A :=
  if String.eqb key "__proto__" then o else set o key v.

Definition isDigit (c : ascii) : bool :=
  let n := nat_of_ascii c in (48 <=? n) && (n <=? 57).

(** An array index is a canonical decimal string below 2^32 - 1. *)
Definition arrayIndex (key : string) : option Z :=
  match chars key with
  | [] => None
  | c :: rest =>
      if forallb isDigit (c :: rest)
         && implb (nat_of_ascii c =? 48) (List.length rest =? 0)
      then
        let '(v, _, _) := readDigits 10 (c :: rest) 0%Z 0 in
        if (v <? 4294967295)%Z then Some v else None
      else None
  end.

Definition isArrayIndex (key : string) : bool :=
  match arrayIndex key with Some _ => true | None => false end.

Definition indexOf (key : string) : Z :=
  match arrayIndex key with Some i => i | None => 0%Z end.

(** [Object.entries(o)]: array-index keys first, in ascending numeric order,
    then the other keys in creation order. *)
Definition entries {A : Type} (o : object A) : list (string * A) :=
  sort (fun a b => (indexOf (fst b) <? indexOf (fst a))%Z)
       (filter (fun e => isArrayIndex (fst e)) o)
  ++ filter (fun e => negb (isArrayIndex (fst e))) o.

End JS.

(* ================================================================== *)
(** ** The dataset profiler (AnalysisDashboard.tsx) *)
(* ================================================================== *)

Module Profiler.
Import JS.

Record Summary : Type := mkSummary {
  totalRecords : nat;
  uniqueValues : nat;
  missingValues : nat;
  dataTypes : object nat
}.

Record Series (V : Type) : Type := mkSeries {
  labels : list string;
  values : list V
}.
Arguments mkSeries {V} _ _.
Arguments labels {V} _.
Arguments values {V} _.

(** What the tally of the distribution holds under a label: a count, or the
    string that [+ 1] makes of an object inherited from [Object.prototype]. *)
Inductive tally : Type :=
| Count (n : Z)
| Text (s : string).

Record AnalysisData : Type := mkAnalysisData {
  summary : Summary;
  trends : Series number;
  distribution : Series tally;
  correlations : list unit
}.

(** [n] as a number. *)
Definition ofNat (n : nat) : Q := inject_Z (Z.of_nat n).

(** [a < b] on numbers. *)
Definition Qltb (a b : Q) : bool := negb (Qle_bool b a).

(** [data.map(row => row[field])]. *)
Definition column (data : list record) (field : string) : list value :=
  map (fun row => getField row field) data.

(** [v != null && v !== '']: the loose comparison rejects [undefined] too. *)
Definition nonNull (v : value) : bool :=
  match v with
  | VUndefined | VNull => false
  | VStr s => negb (String.eqb s "")
  | VBool _ | VNum _ | VMember _ => true
  end.

(** [!isNaN(Number(v))]. *)
Definition parsesAsNumber (v : value) : bool := negb (isNaN (Number v)).

(** [values.filter(v => v != null && v !== '')] for one field. *)
Definition nonNullValues (data : list record) (field : string) : list value :=
  filter nonNull (column data field).

(** [nonNullValues.filter(v => !isNaN(Number(v)))]. *)
Definition numberValues (data : list record) (field : string) : list value :=
  filter parsesAsNumber (nonNullValues data field).

(** [numberValues.length > nonNullValues.length * 0.8]. *)
Definition isNumeric (data : list record) (field : string) : bool :=
  Qltb (ofNat (List.length (nonNullValues data field)) * 0.8)
       (ofNat (List.length (numberValues data field))).

(** One round of the [fields.forEach] that fills the summary. *)
Definition summarizeField (data : list record) (s : Summary) (field : string)
  : Summary :=
  let s' :=
    if isNumeric data field
    then mkSummary (totalRecords s) (uniqueValues s) (missingValues s)
                   (assign (dataTypes s) field
                           (List.length (numberValues data field)))
    else mkSummary (totalRecords s)
                   (uniqueValues s + List.length (newSet (nonNullValues data field)))
                   (missingValues s) (dataTypes s) in
  mkSummary (totalRecords s') (uniqueValues s')
            (missingValues s'
             + (List.length (column data field)
                - List.length (nonNullValues data field)))
            (dataTypes s').

(** [Object.keys(data[0])]. *)
Definition fieldsOf (data : list record) : list string :=
  match data with
  | [] => []
  | first :: _ => keys first
  end.

(** The test of [fields.find] that picks the trend field. *)
Definition hasNumber (data : list record) (field : string) : bool :=
  existsb parsesAsNumber (column data field).

Definition numericField (data : list record) : option string :=
  find (hasNumber data) (fieldsOf data).

(** The test of [fields.find] that picks the distribution field. *)
Definition isCategorical (data : list record) (field : string) : bool :=
  let uniqueValues := newSet (column data field) in
  Qltb (ofNat (List.length uniqueValues)) (ofNat (List.length data) * 0.5)
  && (1 <? List.length uniqueValues).

Definition categoricalField (data : list record) : option string :=
  find (isCategorical data) (fieldsOf data).

(** A field name used as a condition: [undefined] (nothing found) and the
    empty name are both falsy. *)
Definition truthyField (found : option string) : option string :=
  match found with
  | Some field => if String.eqb field "" then None else Some field
  | None => None
  end.

(** [data.slice(0, 10).map((_, i) => `Data Point ${i + 1}`)]. *)
Definition pointLabel (i : nat) : string := "Data Point " ++ natToString (i + 1).

Definition trendLabels (data : list record) : list string :=
  mapi (fun _ i => pointLabel i) (slice0 data 10).

(** [Array.from({ length: 10 }, (_, i) => Math.random() * 100)];
    [random i] is the value of the [i]-th call of [Math.random()]. *)
Definition randomSeries (random : nat -> Q) : list number :=
  map (fun i => Fin (random i * 100)) (seq 0 10).

Definition trendValues (random : nat -> Q) (data : list record) : list number :=
  match truthyField (numericField data) with
  | Some field =>
      map (fun row => orZero (Number (getField row field))) (slice0 data 10)
  | None => randomSeries random
  end.

(** [(current || 0) + 1] for the own property read under a label: a count
    grows by one, 0 and the empty string are falsy, and a string takes the
    digit 1 at its end. *)
Definition oneMore (current : tally) : tally :=
  match current with
  | Count c => if (c =? 0)%Z then Count 1 else Count (c + 1)
  | Text s => if String.eqb s "" then Count 1 else Text (s ++ "1")
  end.

(** [(acc[key] || 0) + 1]: a label the accumulator does not own yet reads
    [undefined], or the object that [Object.prototype] holds under that name,
    which is truthy and is converted to its string form by [+]. *)
Definition nextTally (acc : object tally) (key : string) : tally :=
  match get acc key with
  | Some current => oneMore current
  | None =>
      match memberOf key with
      | Some m => Text (memberText m ++ "1")
      | None => Count 1
      end
  end.

(** One round of the [data.reduce] that tallies the distribution field:
    [acc[value] = (acc[value] || 0) + 1]. *)
Definition countValue (field : string) (acc : object tally) (row : record)
  : object tally :=
  let key := toString (getField row field) in
  assign acc key (nextTally acc key).

(** The count read for a key, 0 when the key is new. *)
Definition countOr0 (acc : object tally) (key : string) : Z :=
  match get acc key with Some (Count c) => c | _ => 0%Z end.

Definition counts (data : list record) (field : string) : object tally :=
  fold_left (countValue field) data [].

(** [Number(t)] for an entry of the tally. *)
Definition tallyNumber (t : tally) : number :=
  match t with
  | Count c => Fin (inject_Z c)
  | Text s => stringToNumber s
  end.

(** The comparator [([, a], [, b]) => b - a], read as "is positive". *)
Definition byCountDesc (x y : string * tally) : bool :=
  positiveNumber (minus (tallyNumber (snd y)) (tallyNumber (snd x))).

Definition sortedEntries (data : list record) (field : string)
  : list (string * tally) :=
  sort byCountDesc (entries (counts data field)).

(** The entry is a count. *)
Definition isCount (t : tally) : bool :=
  match t with Count _ => true | Text _ => false end.

(** The count an entry holds. *)
Definition countOf (t : tally) : Z :=
  match t with Count c => c | Text _ => 0%Z end.

(** The label of a cell names a member of [Object.prototype]. *)
Definition memberLabel (v : value) : bool := isMember (toString v).

(** The label of a cell names a function of [Object.prototype]. *)
Definition functionLabel (v : value) : bool := isFunctionMember (toString v).

(** The number of rows whose cell in [field] has the string form [label]. *)
Definition occurrences (data : list record) (field : string) (label : string)
  : nat :=
  List.length (filter (fun v => String.eqb (toString v) label) (column data field)).

Definition fallbackDistribution : Series tally :=
  mkSeries ["Category A"; "Category B"; "Category C"]
           [Count 30; Count 45; Count 25].

Definition distributionData (data : list record) : Series tally :=
  match truthyField (categoricalField data) with
  | Some field =>
      let topEntries := slice0 (sortedEntries data field) 8 in
      mkSeries (map fst topEntries) (map snd topEntries)
  | None => fallbackDistribution
  end.

(** [analyzeFrontendData(dataset)] on [data = dataset.dataRows || []]. *)
Definition analyzeFrontendData (random : nat -> Q) (data : list record)
  : AnalysisData :=
  match data with
  | [] =>
      mkAnalysisData (mkSummary 0 0 0 []) (mkSeries [] []) (mkSeries [] []) []
  | _ :: _ =>
      let fields := fieldsOf data in
      let summary :=
        fold_left (summarizeField data) fields
                  (mkSummary (List.length data) 0 0 []) in
      mkAnalysisData summary
                     (mkSeries (trendLabels data) (trendValues random data))
                     (distributionData data) []
  end.

End Profiler.

(* ================================================================== *)
(** ** The quantities of the profile, as the design document words them *)
(* ================================================================== *)

(** These definitions follow the wording of the document, not the code; the
    theorems on the summary compare the code with them. *)
Module Stated.
Import JS.

(** The fields present in the first record. *)
Definition firstRecordFields (records : list record) : list string :=
  match records with
  | [] => []
  | first :: _ => map fst first
  end.

(** A value is missing when the record has none, when it is null, or when
    it is the empty string. *)
Definition missing (v : value) : bool :=
  match v with
  | VUndefined => true
  | VNull => true
  | VStr s => String.eqb s ""
  | VBool _ => false
  | VNum _ => false
  | VMember _ => false
  end.

(** The values of a field across the records. *)
Definition valuesOf (records : list record) (field : string) : list value :=
  map (fun r => getField r field) records.

(** The number of non-missing values of a field. *)
Definition nonMissingCount (records : list record) (field : string) : nat :=
  List.length (filter (fun v => negb (missing v)) (valuesOf records field)).

(** The number of non-missing values of a field that parse as a number. *)
Definition parsingCount (records : list record) (field : string) : nat :=
  List.length (filter (fun v => negb (missing v) && negb (isNaN (Number v)))
                      (valuesOf records field)).


(** Strictly more than 80% of the non-missing values parse as a number. *)
Definition mostlyNumbers (records : list record) (field : string) : bool :=
  4 * nonMissingCount records field <? 5 * parsingCount records field.

End Stated.

(* ================================================================== *)
(** ** The vectorizer and the similarity ranker (utils/vectorSearch.ts) *)
(* ================================================================== *)

Module Ranker.
Import JS.

(** The entries of a vector are reals.  A computed number is a real or NaN:
    [b[i]] is [undefined] past the end of [b], and [ai * undefined] is NaN. *)
Inductive rnumber : Type :=
| RNaN
| Real (x : R).

Definition radd (x y : rnumber) : rnumber :=
  match x, y with
  | Real a, Real b => Real (a + b)%R
  | _, _ => RNaN
  end.

Definition rsub (x y : rnumber) : rnumber :=
  match x, y with
  | Real a, Real b => Real (a - b)%R
  | _, _ => RNaN
  end.

(** [x / d] for a real divisor that is not zero. *)
Definition rdiv (x : rnumber) (d : R) : rnumber :=
  match x with
  | Real a => Real (a / d)%R
  | RNaN => RNaN
  end.

(** [ai * b[i]]. *)
Definition timesAt (ai : R) (b : list R) (i : nat) : rnumber :=
  match nth_error b i with
  | Some bi => Real (ai * bi)%R
  | None => RNaN
  end.

(** ToBoolean on a real: zero is falsy. *)
Definition truthyReal (x : R) : bool :=
  if Req_dec_T x 0%R then false else true.

(** [x > 0]; a comparison with NaN is false. *)
Definition positive (x : rnumber) : bool :=
  match x with
  | Real a => if Rlt_dec 0%R a then true else false
  | RNaN => false
  end.

(** [text.toLowerCase().split(/\W+/)], then for each word of the vocabulary
    the number of tokens equal to it. *)
Definition vectorize (text : string) (vocabulary : list string) : list R :=
  let tokens := split_W (toLowerCase text) in
  map (fun word => INR (List.length (filter (fun t => String.eqb t word) tokens)))
      vocabulary.

(** [a.reduce((sum, ai, i) => sum + ai * b[i], 0)], from index [i] on. *)
Fixpoint dotFrom (a b : list R) (i : nat) (sum : rnumber) : rnumber :=
  match a with
  | [] => sum
  | ai :: rest => dotFrom rest b (S i) (radd sum (timesAt ai b i))
  end.

(** [Math.sqrt(a.reduce((sum, ai) => sum + ai * ai, 0))]. *)
Definition norm (a : list R) : R :=
  sqrt (fold_left (fun sum ai => (sum + ai * ai)%R) a 0%R).

(** The condition [normA && normB] of the conditional expression. *)
Definition bothNorms (a b : list R) : bool :=
  truthyReal (norm a) && truthyReal (norm b).

(** The divisor [normA * normB]. *)
Definition divisor (a b : list R) : R := (norm a * norm b)%R.

Definition cosineSimilarity (a b : list R) : rnumber :=
  let dot := dotFrom a b 0 (Real 0) in
  if bothNorms a b then rdiv dot (divisor a b) else Real 0.

Record Scored : Type := mkScored {
  row : option record;
  score : rnumber
}.

(** The comparator [(a, b) => b.score - a.score], read as "is positive". *)
Definition byScoreDesc (a b : Scored) : bool :=
  positive (rsub (score b) (score a)).

(** [vectors.map((vec, i) => ({ row: dataRows[i], score: ... }))]. *)
Definition scoreAll (queryVec : list R) (dataRows : list record)
  (vectors : list (list R)) : list Scored :=
  mapi (fun vec i => mkScored (nth_error dataRows i) (cosineSimilarity queryVec vec))
       vectors.

(** [scored.sort((a, b) => b.score - a.score).slice(0, topN)], for any
    query vector. *)
Definition ranked (queryVec : list R) (dataRows : list record)
  (vectors : list (list R)) (topN : Z) : list Scored :=
  let scored := scoreAll queryVec dataRows vectors in
  slice0 (sort byScoreDesc scored) topN.

Definition vectorSearch (query : string) (dataRows : list record)
  (vectors : list (list R)) (vocabulary : list string) (topN : Z)
  : list Scored :=
  let queryVec := vectorize query vocabulary in
  ranked queryVec dataRows vectors topN.

(** The default of the last parameter. *)
Definition defaultTopN : Z := 3.

End Ranker.

(* ================================================================== *)
(** ** The similarity ranker in binary64 (utils/vectorSearch.ts) *)
(* ================================================================== *)

(** The same functions on the numbers the engine computes with: every
    product, sum, quotient and square root is rounded as IEEE 754 prescribes,
    sums and products overflow to an infinity, and NaN arises from
    [undefined], from an infinity divided by an infinity and from an infinity
    times zero. *)
Module Binary64.
Import JS.
Import PrimFloat.

(** A length as a number; array lengths are below 2^32, where the conversion
    is exact. *)
Definition ofNat (n : nat) : float :=
  of_uint63 (Uint63Axioms.of_Z (Z.of_nat n)).

(** A vector of term counts. *)
Definition counts (l : list nat) : list float := map ofNat l.

(** [text.toLowerCase().split(/\W+/)], then for each word of the vocabulary
    the number of tokens equal to it. *)
Definition vectorize (text : string) (vocabulary : list string) : list float :=
  let tokens := split_W (toLowerCase text) in
  map (fun word => ofNat (List.length (filter (fun t => String.eqb t word) tokens)))
      vocabulary.

(** [b[i]] as an operand: [undefined], past the end of [b], is NaN. *)
Definition operandAt (b : list float) (i : nat) : float :=
  match nth_error b i with
  | Some bi => bi
  | None => nan
  end.

(** [a.reduce((sum, ai, i) => sum + ai * b[i], 0)], from index [i] on. *)
Fixpoint dotFrom (a b : list float) (i : nat) (sum : float) : float :=
  match a with
  | [] => sum
  | ai :: rest => dotFrom rest b (S i) (sum + ai * operandAt b i)%float
  end.

(** [Math.sqrt(a.reduce((sum, ai) => sum + ai * ai, 0))]. *)
Definition norm (a : list float) : float :=
  sqrt (fold_left (fun sum ai => (sum + ai * ai)%float) a zero).

(** ToBoolean on a number: the zeros and NaN are falsy. *)
Definition truthy (x : float) : bool := negb (is_zero x || is_nan x).

Definition cosineSimilarity (a b : list float) : float :=
  let dot := dotFrom a b 0 zero in
  let normA := norm a in
  let normB := norm b in
  if truthy normA && truthy normB then (dot / (normA * normB))%float else zero.

Record Scored : Type := mkScored {
  row : option record;
  score : float
}.

(** The comparator [(a, b) => b.score - a.score], read as "is positive"; a
    difference that is NaN is not. *)
Definition byScoreDesc (a b : Scored) : bool :=
  (zero <? score b - score a)%float.

(** [vectors.map((vec, i) => ({ row: dataRows[i], score: ... }))]. *)
Definition scoreAll (queryVec : list float) (dataRows : list record)
  (vectors : list (list float)) : list Scored :=
  mapi (fun vec i => mkScored (nth_error dataRows i) (cosineSimilarity queryVec vec))
       vectors.

(** [scored.sort((a, b) => b.score - a.score).slice(0, topN)], for any
    query vector. *)
Definition ranked (queryVec : list float) (dataRows : list record)
  (vectors : list (list float)) (topN : Z) : list Scored :=
  let scored := scoreAll queryVec dataRows vectors in
  slice0 (sort byScoreDesc scored) topN.

Definition vectorSearch (query : string) (dataRows : list record)
  (vectors : list (list float)) (vocabulary : list string) (topN : Z)
  : list Scored :=
  let queryVec := vectorize query vocabulary in
  ranked queryVec dataRows vectors topN.

(** The score is a number, not NaN. *)
Definition numeric (s : Scored) : Prop := is_nan (score s) = false.



(** The place of a number that is not NaN on the integer line, in units of
    the smallest positive number [2^emin]; the infinities lie beyond every
    finite number. *)
Definition place (prec emax : Z) (x : SpecFloat.spec_float) : Z :=
  match x with
  | SpecFloat.S754_zero _ => 0
  | SpecFloat.S754_nan => 0
  | SpecFloat.S754_infinity s =>
      SpecFloat.cond_Zopp s (2 ^ (emax - SpecFloat.emin prec emax))
  | SpecFloat.S754_finite s m e =>
      SpecFloat.cond_Zopp s (Zpos m * 2 ^ (e - SpecFloat.emin prec emax))
  end.

Definition placeOf (x : float) : Z :=
  place FloatOps.prec FloatOps.emax (FloatOps.Prim2SF x).

End Binary64.

(* ================================================================== *)
(** ** The chat handler (ChatInterface.tsx) *)
(* ================================================================== *)

Module Chat.
Import JS.

(** A chat message without its [id] and [timestamp], which come from the
    clock. *)
Record ChatMessage : Type := mkMessage {
  content : string;
  isUser : bool;
  sources : list string
}.

(** Why [axios.post] rejected. *)
Inductive Failure : Type :=
| TimedOut
| NetworkError
| BadStatus (code : nat).

(** The body of a 2xx response: an object with a (possibly empty or absent)
    [ai_response], or the legacy array of hits with their [text]. *)
Inductive ResponseData : Type :=
| Answer (ai_response : option string) (vector_results : bool)
| Hits (texts : list string).

Inductive Outcome : Type :=
| Resolved (data : ResponseData)
| Rejected (why : Failure).

(** The part of the component the handler can see: the dataset and the
    local index built when the dataset was selected. *)
Record Session : Type := mkSession {
  datasetName : string;
  dataRows : list record;
  vocabulary : list string;
  vectors : list (list R)
}.

Record State : Type := mkState {
  messages : list ChatMessage;
  inputValue : string;
  isTyping : bool
}.

Definition errorText : string :=
  "Error connecting to backend. Please try again or make sure the dataset is loaded.".

Definition newline : string := String (ascii_of_nat 10) EmptyString.

(** [sources.join('\n\n')]. *)
Fixpoint joinBlank (l : list string) : string :=
  match l with
  | [] => ""
  | [x] => x
  | x :: rest => x ++ newline ++ newline ++ joinBlank rest
  end.

(** The message appended for a response that arrived. *)
Definition replyTo (session : Session) (data : ResponseData) : ChatMessage :=
  match data with
  | Answer (Some text) vector_results =>
      if String.eqb text "" then
        mkMessage "No relevant results found." false [datasetName session]
      else
        mkMessage text false
                  (if vector_results then [datasetName session] else [])
  | Answer None _ =>
      mkMessage "No relevant results found." false [datasetName session]
  | Hits texts =>
      let sources := slice0 texts 3 in
      mkMessage (if 0 <? List.length sources
                 then "Top results:" ++ newline ++ joinBlank sources
                 else "No relevant results found.")
                false [datasetName session]
  end.

(** [handleSendMessage], with the outcome of the one remote call it awaits. *)
Definition handleSendMessage (session : Session) (st : State)
  (remote : Outcome) : State :=
  if String.eqb (trim (inputValue st)) "" then st
  else
    let userMessage := mkMessage (inputValue st) true [] in
    let sent := messages st ++ [userMessage] in
    match remote with
    | Resolved data => mkState (sent ++ [replyTo session data]) "" false
    | Rejected _ =>
        mkState (sent ++ [mkMessage errorText false []]) "" false
    end.

End Chat.

(* ================================================================== *)
(** ** Sums used to state totals *)
(* ================================================================== *)

Module Measures.

Definition sumZ (l : list Z) : Z := fold_right Z.add 0%Z l.

Definition sumR (l : list R) : R := fold_right Rplus 0%R l.

End Measures.

(* ================================================================== *)
(** ** The vocabulary builders (utils/vectorSearch.ts, ChatInterface.tsx) *)
(* ================================================================== *)

Module Vocabulary.
Import JS.

(** [vocabSet.add(word)] on the insertion-ordered set of strings. *)
Definition addWord (vocabSet : list string) (word : string) : list string :=
  if existsb (String.eqb word) vocabSet then vocabSet else vocabSet ++ [word].

(** [if (token) vocabSet.add(token)]: the empty token is falsy. *)
Definition addToken (vocabSet : list string) (token : string) : list string :=
  if String.eqb token "" then vocabSet else addWord vocabSet token.

(** The exported [buildVocabulary]: each text is lower-cased, split, and its
    tokens are added; [Array.from(vocabSet)] lists them in insertion order. *)
Definition buildVocabulary (texts : list string) : list string :=
  fold_left (fun vocabSet text =>
               fold_left addToken (split_W (toLowerCase text)) vocabSet)
            texts [].

(** The builder local to the chat component: each text is split first, and
    each non-empty word is lower-cased as it is added. *)
Definition buildVocabularyLocal (texts : list string) : list string :=
  fold_left (fun vocabSet text =>
               fold_left (fun set word =>
                            if String.eqb word "" then set
                            else addWord set (toLowerCase word))
                         (split_W text) vocabSet)
            texts [].

(** The non-empty tokens of a text. *)
Definition wordsOf (text : string) : list string :=
  filter (fun token => negb (String.eqb token "")) (split_W (toLowerCase text)).

(** A character a token can hold: a digit, a lower-case letter or the
    underscore. *)
Definition isTokenChar (c : ascii) : bool :=
  let n := nat_of_ascii c in
  ((48 <=? n) && (n <=? 57)) || ((97 <=? n) && (n <=? 122)) || (n =? 95).

End Vocabulary.

(* ================================================================== *)
(** ** Sums over vectors, to state what the similarity computes *)
(* ================================================================== *)

Module VectorAlgebra.
Import Measures.

(** The sum of the products of the entries at equal positions. *)
Definition dotR (a b : list R) : R :=
  sumR (map (fun p => (fst p * snd p)%R) (combine a b)).


End VectorAlgebra.

(* ================================================================== *)
(** ** Building the local index (ChatInterface.tsx, the second effect) *)
(* ================================================================== *)

Module Indexer.
Import JS Vocabulary.

(** The state the effect writes. *)
Record Index : Type := mkIndex {
  vocabulary : list string;
  vectors : list (list R);
  vectorized : bool;
  vectorField : option string
}.

(** [typeof v === 'string']. *)
Definition isString (v : value) : bool :=
  match v with VStr _ => true | _ => false end.

(** The cells as the strings the builder calls [split] on; [None] when one of
    them is not a string, where the call raises a TypeError. *)
Fixpoint asTexts (cells : list value) : option (list string) :=
  match cells with
  | [] => Some []
  | VStr s :: rest =>
      match asTexts rest with
      | Some texts => Some (s :: texts)
      | None => None
      end
  | _ :: _ => None
  end.

(** [Object.keys(sample).find(k => typeof sample[k] === 'string')]. *)
Definition textFieldOf (sample : record) : option string :=
  find (fun k => isString (getField sample k)) (keys sample).

(** What a run of the effect does: nothing, a new index, or a TypeError that
    escapes the effect. *)
Inductive Outcome : Type :=
| Unchanged
| Indexed (index : Index)
| Threw.

(** The effect that runs when the dataset or the flag [vectorized] changes.
    The [vectorize] of the component has the body of the exported one; the
    entries of a vector are counts, which are exact. *)
Definition vectorizeDataset (dataRows : list record) (st : Index) : Outcome :=
  match dataRows with
  | [] => Unchanged
  | sample :: _ =>
      if vectorized st then Unchanged
      else
        match Profiler.truthyField (textFieldOf sample) with
        | None => Unchanged
        | Some textField =>
            match asTexts (map (fun row => getField row textField) dataRows) with
            | None => Threw
            | Some texts =>
                let vocab := buildVocabularyLocal texts in
                let vecs := map (fun text => Ranker.vectorize text vocab) texts in
                Indexed (mkIndex vocab vecs true (Some textField))
            end
        end
  end.

End Indexer.

(* ================================================================== *)
(** ** Reading an uploaded CSV file (DatasetGrid.tsx, handleFileUpload) *)
(* ================================================================== *)

Module Upload.
Import JS.

(** [s.split(sep)] for a separator of one character: the pieces between the
    separators, empty pieces included. *)
Fixpoint splitOnFrom (sep : ascii) (l piece : list ascii) : list string :=
  match l with
  | [] => [unchars (rev piece)]
  | c :: rest =>
      if Ascii.eqb c sep then unchars (rev piece) :: splitOnFrom sep rest []
      else splitOnFrom sep rest (c :: piece)
  end.

Definition splitOn (sep : ascii) (s : string) : list string :=
  splitOnFrom sep (chars s) [].

Definition comma : ascii := ascii_of_nat 44.
Definition lineFeed : ascii := ascii_of_nat 10.

(** [Boolean(s)] on a string. *)
Definition nonEmpty (s : string) : bool := negb (String.eqb s "").

(** [text.split('\n').filter(Boolean)]. *)
Definition linesOf (text : string) : list string :=
  filter nonEmpty (splitOn lineFeed text).

(** [Object.fromEntries(pairs)]: a later pair with the name of an earlier one
    overwrites its value in place; the keys are then enumerated as
    [Object.keys] does. *)
Definition fromEntries (pairs : list (string * value)) : record :=
  entries (fold_left (fun o p => set o (fst p) (snd p)) pairs []).

(** [values[i]?.trim()]. *)
Definition cell (values : list string) (i : nat) : value :=
  match nth_error values i with
  | Some v => VStr (trim v)
  | None => VUndefined
  end.

(** One data line against the header's names. *)
Definition parseRow (names : list string) (line : string) : record :=
  let values := splitOn comma line in
  fromEntries (mapi (fun k i => (trim k, cell values i)) names).

(** The rows, or the TypeError of [header.split] on a file without a
    non-empty line, which the handler catches. *)
Inductive Parsed : Type :=
| Failed
| Rows (dataRows : list record).

Definition parseCsv (text : string) : Parsed :=
  match linesOf text with
  | [] => Failed
  | header :: rows => Rows (map (parseRow (splitOn comma header)) rows)
  end.

Fixpoint startsWith (l prefix : list ascii) : bool :=
  match prefix, l with
  | [], _ => true
  | p :: prefix', c :: rest => Ascii.eqb p c && startsWith rest prefix'
  | _ :: _, [] => false
  end.

(** [s.endsWith(suffix)]. *)
Definition endsWith (s suffix : string) : bool :=
  startsWith (rev (chars s)) (rev (chars suffix)).

(** What the handler does with a file: the alert of the catch block, nothing,
    or the [addDataset] event (its [id] and [lastUpdated] come from the
    clock). *)
Inductive UploadResult : Type :=
| Alert
| Ignored
| AddDataset (name : string) (recordCount : nat) (dataRows : list record).

(** The [onload] callback of [handleFileUpload], for the name and the text of
    the file.  [parseJson] stands for [JSON.parse] on a text that holds an
    array of records ([Rows]) or is not JSON ([Failed]); a file that is named
    neither [*.json] nor [*.csv] leaves [dataRows] empty. *)
Definition handleFileUpload (parseJson : string -> Parsed)
  (fileName text : string) : UploadResult :=
  let parsed :=
    if endsWith fileName ".json" then parseJson text
    else if endsWith fileName ".csv" then parseCsv text
    else Rows [] in
  match parsed with
  | Failed => Alert
  | Rows [] => Ignored
  | Rows dataRows => AddDataset fileName (List.length dataRows) dataRows
  end.

(** The order in which [Object.keys] lists keys created in the order [ks]. *)
Definition keyOrder (ks : list string) : list string :=
  sort (fun a b => (indexOf b <? indexOf a)%Z) (filter isArrayIndex ks)
  ++ filter (fun k => negb (isArrayIndex k)) ks.

(** The distinct names of a header, in the order of their first cells. *)
Definition distinctNames (names : list string) : list string :=
  fold_left Vocabulary.addWord (map trim names) [].

End Upload.

(* ================================================================== *)
(** ** The chart data of the dashboard (AnalysisDashboard.tsx, getChartData) *)
(* ================================================================== *)

Module Dashboard.
Import JS Profiler.

Definition colors : list string :=
  ["rgba(59, 130, 246, 0.8)";
   "rgba(16, 185, 129, 0.8)";
   "rgba(245, 101, 101, 0.8)";
   "rgba(251, 191, 36, 0.8)";
   "rgba(139, 92, 246, 0.8)";
   "rgba(236, 72, 153, 0.8)";
   "rgba(20, 184, 166, 0.8)";
   "rgba(248, 113, 113, 0.8)"].

Fixpoint isPrefix (pattern l : list ascii) : bool :=
  match pattern, l with
  | [], _ => true
  | p :: pattern', c :: rest => Ascii.eqb p c && isPrefix pattern' rest
  | _ :: _, [] => false
  end.

Fixpoint replaceChars (pattern replacement l : list ascii) : list ascii :=
  match l with
  | [] => if isPrefix pattern [] then replacement else []
  | c :: rest =>
      if isPrefix pattern l then replacement ++ skipn (List.length pattern) l
      else c :: replaceChars pattern replacement rest
  end.

(** [s.replace(pattern, replacement)] with a string pattern: the first
    occurrence is replaced. *)
Definition replace (pattern replacement s : string) : string :=
  unchars (replaceChars (chars pattern) (chars replacement) (chars s)).

Inductive ChartKind : Type := Line | Bar | Pie | Doughnut.

(** The object handed to the chart: labels and one dataset. *)
Inductive ChartData : Type :=
| Trend (labels : list string) (data : list number)
| Slices (labels : list string) (data : list tally)
         (backgroundColor borderColor : list string) (borderWidth : nat).

Definition slices (analysisData : AnalysisData) (borderWidth : nat) : ChartData :=
  let labels := Profiler.labels (distribution analysisData) in
  let shown := slice0 colors (Z.of_nat (List.length labels)) in
  Slices labels (Profiler.values (distribution analysisData))
         shown (map (replace "0.8" "1") shown) borderWidth.

(** [getChartData()], for the state [analysisData] and [activeChart]. *)
Definition getChartData (analysisData : option AnalysisData)
  (activeChart : ChartKind) : option ChartData :=
  match analysisData with
  | None => None
  | Some a =>
      match activeChart with
      | Line => Some (Trend (Profiler.labels (trends a)) (Profiler.values (trends a)))
      | Bar => Some (slices a 1)
      | Pie | Doughnut => Some (slices a 2)
      end
  end.

End Dashboard.

(* ================================================================== *)
(** ** Properties of the JavaScript fragment *)
(* ================================================================== *)

Import JS.

Lemma slice0_nonneg {A : Type} (l : list A) (e : Z) :
  (0 <= e)%Z -> slice0 l e = firstn (Z.to_nat e) l.
Proof.
  intros He. unfold slice0.
  destruct (e <? 0)%Z eqn:E; [apply Z.ltb_lt in E; lia|].
  destruct (Z.min_spec e (Z.of_nat (List.length l))) as [[Hlt ->]|[Hge ->]].
  - reflexivity.
  - rewrite Nat2Z.id, firstn_all.
    symmetry. apply firstn_all2. lia.
Qed.

Lemma slice0_negative {A : Type} (l : list A) (e : Z) :
  (e < 0)%Z -> slice0 l e = firstn (List.length l - Z.to_nat (- e)) l.
Proof.
  intros He. unfold slice0.
  destruct (e <? 0)%Z eqn:E; [|apply Z.ltb_ge in E; lia].
  f_equal. lia.
Qed.

Lemma slice0_length {A : Type} (l : list A) (e : Z) :
  (0 <= e)%Z -> List.length (slice0 l e) = Nat.min (Z.to_nat e) (List.length l).
Proof.
  intros He. rewrite slice0_nonneg by assumption. apply length_firstn.
Qed.

Lemma mapiFrom_length {A B : Type} (f : A -> nat -> B) (l : list A) (i : nat) :
  List.length (mapiFrom f i l) = List.length l.
Proof.
  revert i. induction l as [|x rest IH]; intros i; simpl; [reflexivity|].
  now rewrite IH.
Qed.

Lemma mapiFrom_seq {A B : Type} (f : nat -> B) (l : list A) (i : nat) :
  mapiFrom (fun _ k => f k) i l = map f (seq i (List.length l)).
Proof.
  revert i. induction l as [|x rest IH]; intros i; simpl; [reflexivity|].
  now rewrite IH.
Qed.

Lemma mapiFrom_nth_error {A B : Type} (f : A -> nat -> B) (l : list A) (i k : nat) :
  nth_error (mapiFrom f i l) k = option_map (fun x => f x (i + k)) (nth_error l k).
Proof.
  revert i k. induction l as [|x rest IH]; intros i k.
  - destruct k; reflexivity.
  - destruct k; simpl.
    + now rewrite Nat.add_0_r.
    + rewrite IH. now replace (S i + k) with (i + S k) by lia.
Qed.

(** Insertion only rearranges. *)
Lemma insertSorted_perm {A : Type} (after : A -> A -> bool) (x : A) (l : list A) :
  Permutation (insertSorted after x l) (x :: l).
Proof.
  induction l as [|y rest IH]; simpl; [reflexivity|].
  destruct (after x y).
  - rewrite IH. apply perm_swap.
  - reflexivity.
Qed.

Lemma sort_perm {A : Type} (after : A -> A -> bool) (l : list A) :
  Permutation (sort after l) l.
Proof.
  induction l as [|x rest IH]; simpl; [reflexivity|].
  rewrite insertSorted_perm. now constructor.
Qed.

Lemma sort_length {A : Type} (after : A -> A -> bool) (l : list A) :
  List.length (sort after l) = List.length l.
Proof. apply Permutation_length, sort_perm. Qed.

Lemma sort_Forall {A : Type} (after : A -> A -> bool) (P : A -> Prop) (l : list A) :
  Forall P l -> Forall P (sort after l).
Proof.
  intros H. eapply Permutation_Forall; [|exact H].
  symmetry. apply sort_perm.
Qed.

Lemma In_firstn {A : Type} (n : nat) (l : list A) (x : A) :
  In x (firstn n l) -> In x l.
Proof.
  intros H. rewrite <- (firstn_skipn n l). apply in_or_app. now left.
Qed.

Lemma firstn_StronglySorted {A : Type} (R : A -> A -> Prop) (n : nat) (l : list A) :
  StronglySorted R l -> StronglySorted R (firstn n l).
Proof.
  intros H. revert n. induction H as [|x l Hl IH Hx]; intros n.
  - rewrite firstn_nil. constructor.
  - destruct n; simpl; constructor.
    + apply IH.
    + rewrite Forall_forall in *. intros y Hy. apply Hx.
      eapply In_firstn; eauto.
Qed.

Lemma map_StronglySorted {A B : Type} (f : A -> B) (R : B -> B -> Prop) (l : list A) :
  StronglySorted (fun x y => R (f x) (f y)) l -> StronglySorted R (map f l).
Proof.
  induction 1 as [|x l Hl IH Hx]; simpl; constructor; auto.
  rewrite Forall_map. exact Hx.
Qed.

Lemma StronglySorted_impl {A : Type} (R S : A -> A -> Prop) (l : list A) :
  (forall x y, In x l -> In y l -> R x y -> S x y) ->
  StronglySorted R l -> StronglySorted S l.
Proof.
  intros HRS H. induction H as [|x l Hl IH Hx]; constructor.
  - apply IH. intros; apply HRS; simpl; auto.
  - rewrite Forall_forall in *. intros y Hy.
    apply HRS; simpl; auto.
Qed.

Lemma map_snd_tag {A : Type} (i : nat) (l : list A) : map snd (tag i l) = l.
Proof.
  revert i. induction l as [|x rest IH]; intros i; simpl; [reflexivity|].
  f_equal. apply IH.
Qed.


Lemma tag_nth_error {A : Type} (i : nat) (l : list A) (p : nat * A) :
  In p (tag i l) -> i <= fst p /\ nth_error l (fst p - i) = Some (snd p).
Proof.
  revert i. induction l as [|x rest IH]; intros i; simpl; [tauto|].
  intros [<-|Hin]; simpl.
  - split; [lia|]. now rewrite Nat.sub_diag.
  - destruct (IH _ Hin) as [Hle Hnth]. split; [lia|].
    replace (fst p - i) with (S (fst p - S i)) by lia. exact Hnth.
Qed.

Lemma map_snd_insertSorted {A : Type} (after : A -> A -> bool)
  (p : nat * A) (l : list (nat * A)) :
  map snd (insertSorted (afterTagged after) p l)
  = insertSorted after (snd p) (map snd l).
Proof.
  induction l as [|q rest IH]; simpl; [reflexivity|].
  unfold afterTagged at 1. destruct (after (snd p) (snd q)); simpl.
  - now rewrite IH.
  - reflexivity.
Qed.

(** Sorting the tagged list and forgetting the tags is sorting the list. *)
Lemma map_snd_sort_tag {A : Type} (after : A -> A -> bool) (i : nat) (l : list A) :
  map snd (sort (afterTagged after) (tag i l)) = sort after l.
Proof.
  revert i. induction l as [|x rest IH]; intros i; simpl; [reflexivity|].
  rewrite map_snd_insertSorted. simpl. f_equal. apply IH.
Qed.

(** Two sorted arrangements of the same elements are the same list, when
    no two elements are each strictly before the other. *)
Lemma sorted_perm_unique {B : Type} (before : B -> B -> Prop) (l1 l2 : list B) :
  (forall x y, before x y -> before y x -> False) ->
  StronglySorted before l1 -> StronglySorted before l2 ->
  Permutation l1 l2 -> l1 = l2.
Proof.
  intros Hasym H1. revert l2.
  induction H1 as [|x t1 Ht1 IH Hx]; intros l2 H2 Hperm.
  - now apply Permutation_nil in Hperm.
  - destruct H2 as [|y t2 Ht2 Hy].
    + symmetry in Hperm. now apply Permutation_nil in Hperm.
    + assert (E : x = y).
      { assert (Hin1 : In x (y :: t2))
          by (eapply Permutation_in; [exact Hperm|now left]).
        assert (Hin2 : In y (x :: t1))
          by (eapply Permutation_in; [symmetry; exact Hperm|now left]).
        destruct Hin1 as [->|Hin1]; [reflexivity|].
        destruct Hin2 as [->|Hin2]; [reflexivity|].
        rewrite Forall_forall in Hx, Hy.
        exfalso. exact (Hasym x y (Hx y Hin2) (Hy x Hin1)). }
      subst y. f_equal. apply IH; [exact Ht2|].
      eapply Permutation_cons_inv; exact Hperm.
Qed.

Lemma precedes_asym {A : Type} (after : A -> A -> bool) (p q : nat * A) :
  precedes after p q -> precedes after q p -> False.
Proof.
  intros [Hpq [Hqp|Hlt]] [Hqp' [Hpq'|Hlt']]; try congruence. lia.
Qed.

(** *** Stable sorting with a consistent comparator

    [after] is consistent on the elements that satisfy [ok] when it is a
    strict weak order there: asymmetric, and whenever [x] comes after [z],
    any [y] has [x] after it or comes after [z] itself.  The sorted list is
    then ordered by the comparator first and by input position among ties. *)

Section StableSort.
Context {A : Type}.
Variable after : A -> A -> bool.
Variable ok : A -> Prop.

Hypothesis after_asym :
  forall x y, ok x -> ok y -> after x y = true -> after y x = false.
Hypothesis after_cotrans :
  forall x y z, ok x -> ok y -> ok z ->
    after x z = true -> after x y = true \/ after y z = true.

Lemma insertSorted_precedes (p : nat * A) (l : list (nat * A)) :
  ok (snd p) -> Forall (fun q => ok (snd q)) l ->
  Forall (fun q => fst p < fst q) l ->
  StronglySorted (precedes after) l ->
  StronglySorted (precedes after) (insertSorted (afterTagged after) p l).
Proof.
  intros Hp Hok Hlt Hs.
  induction Hs as [|q rest Hrest IH Hq]; simpl.
  - repeat constructor.
  - inversion Hok as [|? ? Hokq Hokrest]; subst.
    inversion Hlt as [|? ? Hltq Hltrest]; subst.
    unfold afterTagged at 1. destruct (after (snd p) (snd q)) eqn:E.
    + constructor; [apply IH; assumption|].
      eapply Permutation_Forall.
      * symmetry. apply insertSorted_perm.
      * constructor; [|exact Hq].
        split; [apply after_asym; assumption|left; exact E].
    + constructor; [constructor; assumption|].
      constructor; [split; [exact E|right; exact Hltq]|].
      rewrite Forall_forall in *. intros r Hr.
      specialize (Hq r Hr). destruct Hq as [Hqr _].
      split; [|right; apply Hltrest; exact Hr].
      destruct (after (snd p) (snd r)) eqn:Er; [|reflexivity].
      destruct (after_cotrans (snd p) (snd q) (snd r)) as [H|H];
        auto; congruence.
Qed.

Lemma sort_tag_precedes (i : nat) (l : list A) :
  Forall ok l ->
  StronglySorted (precedes after) (sort (afterTagged after) (tag i l)).
Proof.
  intros Hok. revert i.
  induction Hok as [|x rest Hx Hrest IH]; intros i; simpl; [constructor|].
  apply insertSorted_precedes; simpl.
  - exact Hx.
  - apply sort_Forall. apply (proj1 (Forall_map snd ok (tag (S i) rest))).
    now rewrite map_snd_tag.
  - apply sort_Forall. rewrite Forall_forall. intros q Hq.
    apply tag_nth_error in Hq. lia.
  - apply IH.
Qed.

(** No element of the sorted list comes after one of its successors. *)
Lemma sort_StronglySorted (l : list A) :
  Forall ok l ->
  StronglySorted (fun x y => after x y = false) (sort after l).
Proof.
  intros Hok. rewrite <- (map_snd_sort_tag after 0).
  apply map_StronglySorted.
  eapply StronglySorted_impl; [|apply sort_tag_precedes; exact Hok].
  intros p q _ _ [H _]. exact H.
Qed.

(** Stable insertion computes the only stable sorted arrangement: whatever
    the engine's algorithm, an arrangement of the tagged input that is ordered
    by the comparator, and by input position among ties, is this one. *)
Lemma sort_unique (l : list A) (arranged : list (nat * A)) :
  Forall ok l ->
  Permutation arranged (tag 0 l) ->
  StronglySorted (precedes after) arranged ->
  map snd arranged = sort after l.
Proof.
  intros Hok Hperm Hsorted.
  rewrite <- (map_snd_sort_tag after 0). f_equal.
  apply sorted_perm_unique with (before := precedes after).
  - apply precedes_asym.
  - exact Hsorted.
  - now apply sort_tag_precedes.
  - rewrite Hperm. symmetry. apply sort_perm.
Qed.

End StableSort.

(* ================================================================== *)
(** ** The similarity ranker *)
(* ================================================================== *)

Import Ranker.

Lemma truthyReal_false (x : R) : truthyReal x = false <-> x = 0%R.
Proof.
  unfold truthyReal. destruct (Req_dec_T x 0%R); split; congruence.
Qed.

Lemma truthyReal_true (x : R) : truthyReal x = true <-> x <> 0%R.
Proof.
  unfold truthyReal. destruct (Req_dec_T x 0%R); split; congruence.
Qed.

(** Where the division is reached, its divisor is not zero. *)
Lemma divisor_nonzero (a b : list R) :
  bothNorms a b = true -> divisor a b <> 0%R.
Proof.
  unfold bothNorms, divisor. intros H.
  apply andb_prop in H. destruct H as [Ha Hb].
  apply truthyReal_true in Ha. apply truthyReal_true in Hb.
  apply Rmult_integral_contrapositive_currified; assumption.
Qed.

(** Claim C8.  If the norm of either vector is zero, [cosineSimilarity]
    returns exactly 0: the result is not NaN, and the condition that guards
    the division by the product of the norms is false, so no division by zero
    takes place.  This holds for vectors of any lengths, equal or not. *)
Theorem cosineSimilarity_zero_norm (a b : list R) :
  norm a = 0%R \/ norm b = 0%R ->
  cosineSimilarity a b = Real 0
  /\ cosineSimilarity a b <> RNaN
  /\ bothNorms a b = false.
Proof.
  intros H.
  assert (G : bothNorms a b = false).
  { unfold bothNorms. apply andb_false_iff.
    destruct H as [H|H]; [left|right]; now apply truthyReal_false. }
  unfold cosineSimilarity. rewrite G. repeat split; congruence.
Qed.

Lemma norm_zero_vector : norm [0%R; 0%R; 0%R] = 0%R.
Proof.
  unfold norm. simpl.
  replace (0 + 0 * 0 + 0 * 0 + 0 * 0)%R with 0%R by lra.
  apply sqrt_0.
Qed.

Lemma cosineSimilarity_zero_norm_witness :
  cosineSimilarity [0%R; 0%R; 0%R] [1%R; 1%R; 0%R] = Real 0
  /\ cosineSimilarity [0%R; 0%R; 0%R] [1%R; 1%R; 0%R] <> RNaN
  /\ bothNorms [0%R; 0%R; 0%R] [1%R; 1%R; 0%R] = false.
Proof.
  apply cosineSimilarity_zero_norm. left. exact norm_zero_vector.
Defined.

(** *** Length of the ranking *)

Lemma scoreAll_length (queryVec : list R) (dataRows : list record)
  (vectors : list (list R)) :
  List.length (scoreAll queryVec dataRows vectors) = List.length vectors.
Proof. apply mapiFrom_length. Qed.

Lemma ranked_nonneg (queryVec : list R) (dataRows : list record)
  (vectors : list (list R)) (topN : Z) :
  (0 <= topN)%Z ->
  ranked queryVec dataRows vectors topN
  = firstn (Z.to_nat topN)
           (sort byScoreDesc (scoreAll queryVec dataRows vectors)).
Proof. intros H. unfold ranked. now apply slice0_nonneg. Qed.

Lemma ranked_negative (queryVec : list R) (dataRows : list record)
  (vectors : list (list R)) (topN : Z) :
  (topN < 0)%Z ->
  ranked queryVec dataRows vectors topN
  = firstn (List.length vectors - Z.to_nat (- topN))
           (sort byScoreDesc (scoreAll queryVec dataRows vectors)).
Proof.
  intros H. unfold ranked. rewrite slice0_negative by assumption.
  now rewrite sort_length, scoreAll_length.
Qed.

(** With [topN] the number of vectors, the whole ranking is returned. *)
Lemma ranked_all (queryVec : list R) (dataRows : list record)
  (vectors : list (list R)) :
  ranked queryVec dataRows vectors (Z.of_nat (List.length vectors))
  = sort byScoreDesc (scoreAll queryVec dataRows vectors).
Proof.
  rewrite ranked_nonneg by lia. rewrite Nat2Z.id.
  apply firstn_all2. now rewrite sort_length, scoreAll_length.
Qed.

Lemma ranked_length_negative (queryVec : list R) (dataRows : list record)
  (vectors : list (list R)) (topN : Z) :
  (topN < 0)%Z ->
  List.length (ranked queryVec dataRows vectors topN)
  = List.length vectors - Z.to_nat (- topN).
Proof.
  intros H. rewrite ranked_negative by assumption.
  rewrite length_firstn, sort_length, scoreAll_length. lia.
Qed.

(** Claim C4, as stated, fails: with [topN = -1] and two vectors the ranker
    returns one result, not an empty list. *)
Lemma vectorSearch_negative_topN_nonempty :
  (-1 <= 0)%Z /\
  vectorSearch "dog" [[("t", VStr "cat dog")]; [("t", VStr "dog bird")]]
               [[1; 1; 0]; [0; 1; 1]]%R ["cat"; "dog"; "bird"] (-1) <> [].
Proof.
  split; [lia|]. intros H.
  apply (f_equal (@List.length Scored)) in H.
  unfold vectorSearch in H.
  rewrite ranked_length_negative in H by lia.
  discriminate H.
Qed.

(** Claim C4, amended.  A call with [topN <= 0] raises nothing.  With
    [topN = 0] the result is empty; with a negative [topN] it is the full
    ranking without its last [|topN|] entries, which is empty only when
    [|topN|] reaches the number of vectors. *)
Theorem vectorSearch_nonpositive_topN (query : string) (dataRows : list record)
  (vectors : list (list R)) (vocabulary : list string) (topN : Z) :
  (topN <= 0)%Z ->
  let full :=
    vectorSearch query dataRows vectors vocabulary
                 (Z.of_nat (List.length vectors)) in
  let result := vectorSearch query dataRows vectors vocabulary topN in
  (topN = 0%Z -> result = [])
  /\ ((topN < 0)%Z ->
      result = firstn (List.length vectors - Z.to_nat (- topN)) full
      /\ List.length result = List.length vectors - Z.to_nat (- topN))
  /\ (result = [] <-> (topN = 0 \/ Z.of_nat (List.length vectors) <= - topN)%Z).
Proof.
  intros Hle full result. subst full result. unfold vectorSearch.
  set (q := vectorize query vocabulary).
  rewrite ranked_all.
  assert (H0 : ranked q dataRows vectors 0 = []).
  { now rewrite ranked_nonneg by lia. }
  split; [intros ->; exact H0|].
  split.
  - intros Hlt. split.
    + now apply ranked_negative.
    + now apply ranked_length_negative.
  - destruct (Z.eq_dec topN 0) as [->|Hne].
    + split; [now left|intros _; exact H0].
    + assert (Hlt : (topN < 0)%Z) by lia.
      pose proof (ranked_length_negative q dataRows vectors topN Hlt) as Hlen.
      split.
      * intros E. rewrite E in Hlen. simpl in Hlen. right. lia.
      * intros [E|E]; [contradiction|].
        apply length_zero_iff_nil. rewrite Hlen. lia.
Qed.

Lemma vectorSearch_nonpositive_topN_witness :
  let vectors := [[1; 1; 0]; [0; 1; 1]; [0; 0; 1]]%R in
  let vocabulary := ["cat"; "dog"; "bird"] in
  let full := vectorSearch "dog" [] vectors vocabulary 3 in
  let result := vectorSearch "dog" [] vectors vocabulary (-1) in
  (-1 <= 0)%Z
  /\ ((-1 < 0)%Z -> result = firstn 2 full /\ List.length result = 2).
Proof.
  intros vectors vocabulary full result. split; [lia|].
  exact (proj1 (proj2 (vectorSearch_nonpositive_topN
                         "dog" [] vectors vocabulary (-1) ltac:(lia)))).
Defined.

(* ================================================================== *)
(** ** Binary64: the sign of a difference and the order of the numbers *)
(* ================================================================== *)

Import SpecFloat.

Lemma digits2_pos_bounds (m : BinNums.positive) :
  (2 ^ (Zpos (digits2_pos m) - 1) <= Zpos m < 2 ^ Zpos (digits2_pos m))%Z.
Proof.
  induction m as [p IH|p IH|]; cbn [digits2_pos].
  - rewrite Pos2Z.inj_succ.
    replace (Z.succ (Zpos (digits2_pos p)) - 1)%Z
      with (Z.succ (Zpos (digits2_pos p) - 1))%Z by lia.
    rewrite !Z.pow_succ_r by lia. lia.
  - rewrite Pos2Z.inj_succ.
    replace (Z.succ (Zpos (digits2_pos p)) - 1)%Z
      with (Z.succ (Zpos (digits2_pos p) - 1))%Z by lia.
    rewrite !Z.pow_succ_r by lia. lia.
  - simpl. lia.
Qed.

Lemma iter_xO_value (m d : BinNums.positive) :
  Zpos (Pos.iter xO m d) = (Zpos m * 2 ^ Zpos d)%Z.
Proof.
  induction d as [|d IH] using Pos.peano_ind.
  - simpl. lia.
  - rewrite Pos.iter_succ, Pos2Z.inj_succ, Z.pow_succ_r by lia.
    rewrite Pos2Z.inj_xO, IH. lia.
Qed.

Lemma shr_1_m (mrs : shr_record) :
  (0 <= shr_m mrs)%Z -> shr_m (shr_1 mrs) = Z.div2 (shr_m mrs).
Proof.
  destruct mrs as [m r s]. simpl.
  destruct m as [|[p|p|]|p]; simpl; try reflexivity; lia.
Qed.

Lemma iter_shr_1_m (p : BinNums.positive) (mrs : shr_record) :
  (0 <= shr_m mrs)%Z ->
  shr_m (iter_pos shr_1 p mrs) = Z.shiftr (shr_m mrs) (Zpos p).
Proof.
  revert mrs. induction p as [p IH|p IH|]; intros mrs H; cbn [iter_pos].
  - assert (H1 : (0 <= shr_m (shr_1 mrs))%Z).
    { rewrite shr_1_m by exact H. rewrite Z.div2_spec. now apply Z.shiftr_nonneg. }
    assert (H2 : (0 <= shr_m (iter_pos shr_1 p (shr_1 mrs)))%Z).
    { rewrite IH by exact H1. now apply Z.shiftr_nonneg. }
    rewrite IH by exact H2. rewrite IH by exact H1.
    rewrite shr_1_m by exact H. rewrite Z.div2_spec.
    rewrite !Z.shiftr_shiftr by lia. f_equal. lia.
  - assert (H2 : (0 <= shr_m (iter_pos shr_1 p mrs))%Z).
    { rewrite IH by exact H. now apply Z.shiftr_nonneg. }
    rewrite IH by exact H2. rewrite IH by exact H.
    rewrite !Z.shiftr_shiftr by lia. f_equal. lia.
  - rewrite shr_1_m by exact H. apply Z.div2_spec.
Qed.

Section SpecOrder.
Variables prec emax : Z.
Hypothesis prec_pos : (0 < prec)%Z.
Hypothesis prec_lt_emax : (prec < emax)%Z.

Let emin := SpecFloat.emin prec emax.
Let fexp := SpecFloat.fexp prec emax.

Lemma shr_record_of_loc_m (m : Z) (l : location) :
  shr_m (shr_record_of_loc m l) = m.
Proof. destruct l as [|[]]; reflexivity. Qed.

Lemma shr_fexp_pos (m : BinNums.positive) (e : Z) (l : location) :
  (emin <= e)%Z ->
  (0 < shr_m (fst (shr_fexp prec emax (Zpos m) e l))
   /\ emin <= snd (shr_fexp prec emax (Zpos m) e l))%Z.
Proof.
  intros He. unfold shr_fexp, shr. cbn [Zdigits2].
  pose proof (digits2_pos_bounds m) as [Hlo _].
  set (d := Zpos (digits2_pos m)) in *.
  unfold SpecFloat.fexp. fold emin.
  destruct (Z.max (d + e - prec) emin - e)%Z as [|p|p] eqn:E; cbn [fst snd].
  - rewrite shr_record_of_loc_m. lia.
  - rewrite iter_shr_1_m by (rewrite shr_record_of_loc_m; lia).
    rewrite shr_record_of_loc_m. split; [|lia].
    rewrite Z.shiftr_div_pow2 by lia.
    apply Z.div_str_pos. split; [apply Z.pow_pos_nonneg; lia|].
    eapply Z.le_trans; [|exact Hlo].
    apply Z.pow_le_mono_r; lia.
  - rewrite shr_record_of_loc_m. lia.
Qed.

Lemma round_nearest_even_pos (m : Z) (l : location) :
  (0 < m)%Z -> (0 < round_nearest_even m l)%Z.
Proof.
  intros H. destruct l as [|[]]; simpl; try lia.
  destruct (Z.even m); lia.
Qed.

(** Rounding a positive mantissa at an exponent that is not below [emin]
    leaves a number of the same sign: nothing rounds to zero. *)
Lemma binary_round_aux_sign (s : bool) (m : BinNums.positive) (e : Z) (l : location) :
  (emin <= e)%Z ->
  (exists m' e', binary_round_aux prec emax s (Zpos m) e l = S754_finite s m' e')
  \/ binary_round_aux prec emax s (Zpos m) e l = S754_infinity s.
Proof.
  intros He. unfold binary_round_aux.
  destruct (shr_fexp_pos m e l He) as [H1 H2].
  destruct (shr_fexp prec emax (Zpos m) e l) as [mrs' e'] eqn:E1.
  cbn [fst snd] in H1, H2.
  pose proof (round_nearest_even_pos _ (loc_of_shr_record mrs') H1) as H3.
  destruct (round_nearest_even (shr_m mrs') (loc_of_shr_record mrs'))
    as [|m2|m2]; try lia.
  destruct (shr_fexp_pos m2 e' loc_Exact H2) as [H4 _].
  destruct (shr_fexp prec emax (Zpos m2) e' loc_Exact) as [mrs'' e''].
  cbn [fst] in H4.
  destruct (shr_m mrs'') as [|m3|m3]; try lia.
  destruct (e'' <=? emax - prec)%Z; [left; eauto|now right].
Qed.

Lemma binary_round_sign (s : bool) (m : BinNums.positive) (e : Z) :
  (emin <= e)%Z ->
  (exists m' e', binary_round prec emax s m e = S754_finite s m' e')
  \/ binary_round prec emax s m e = S754_infinity s.
Proof.
  intros He. unfold binary_round.
  destruct (shl_align m e _) as [mz ez] eqn:E.
  apply binary_round_aux_sign.
  unfold shl_align in E.
  destruct (SpecFloat.fexp prec emax (Zpos (digits2_pos m) + e) - e)%Z eqn:D;
    injection E as <- <-; try exact He.
  unfold SpecFloat.fexp. fold emin. lia.
Qed.

Lemma binary_normalize_sign (m e : Z) :
  (emin <= e)%Z ->
  SFcompare (S754_zero false) (binary_normalize prec emax m e false)
  = Some (0 ?= m)%Z.
Proof.
  intros He. destruct m as [|p|p]; cbn [binary_normalize].
  - reflexivity.
  - destruct (binary_round_sign false p e He) as [[m' [e' ->]]| ->]; reflexivity.
  - destruct (binary_round_sign true p e He) as [[m' [e' ->]]| ->]; reflexivity.
Qed.

Lemma shl_align_value (m : BinNums.positive) (e e' : Z) :
  (e' <= e)%Z -> Zpos (fst (shl_align m e e')) = (Zpos m * 2 ^ (e - e'))%Z.
Proof.
  intros H. unfold shl_align.
  destruct (e' - e)%Z as [|d|d] eqn:D; cbn [fst].
  - replace (e - e')%Z with 0%Z by lia. simpl. lia.
  - lia.
  - rewrite iter_xO_value. f_equal. f_equal. lia.
Qed.

(** What validity says of a finite number. *)
Lemma valid_finite (s : bool) (m : BinNums.positive) (e : Z) :
  SpecFloat.valid_binary prec emax (S754_finite s m e) = true ->
  (emin <= e <= emax - prec
   /\ Zpos m < 2 ^ prec
   /\ (emin < e -> 2 ^ (prec - 1) <= Zpos m))%Z.
Proof.
  cbn [SpecFloat.valid_binary]. unfold bounded, canonical_mantissa. intros H.
  apply andb_prop in H. destruct H as [Hc Hb].
  apply Z.eqb_eq in Hc. apply Z.leb_le in Hb.
  unfold SpecFloat.fexp in Hc. fold emin in Hc.
  pose proof (digits2_pos_bounds m) as [Hlo Hhi].
  set (d := Zpos (digits2_pos m)) in *.
  split; [lia|]. split.
  - eapply Z.lt_le_trans; [exact Hhi|]. apply Z.pow_le_mono_r; lia.
  - intros Hlt. replace (prec - 1)%Z with (d - 1)%Z by lia. exact Hlo.
Qed.

Lemma size_pos (m : BinNums.positive) (e : Z) :
  (emin <= e)%Z -> (0 < Zpos m * 2 ^ (e - emin))%Z.
Proof.
  intros H. apply Z.mul_pos_pos; [lia|]. apply Z.pow_pos_nonneg; lia.
Qed.

(** A valid finite number lies below the place of the infinity. *)
Lemma size_bound (s : bool) (m : BinNums.positive) (e : Z) :
  SpecFloat.valid_binary prec emax (S754_finite s m e) = true ->
  (Zpos m * 2 ^ (e - emin) < 2 ^ (emax - emin))%Z.
Proof.
  intros H. apply valid_finite in H. destruct H as [[He1 He2] [Hm _]].
  assert (Hemin : (emin = 3 - emax - prec)%Z) by reflexivity.
  replace (emax - emin)%Z with (prec + (emax - prec - emin))%Z by lia.
  rewrite Z.pow_add_r by lia.
  assert (H1 : (2 ^ (e - emin) <= 2 ^ (emax - prec - emin))%Z)
    by (apply Z.pow_le_mono_r; lia).
  assert (H2 : (0 < 2 ^ (e - emin))%Z) by (apply Z.pow_pos_nonneg; lia).
  nia.
Qed.

(** Of two valid positive numbers, the one with the smaller exponent is the
    smaller. *)
Lemma size_exponent (s1 s2 : bool) (m1 m2 : BinNums.positive) (e1 e2 : Z) :
  SpecFloat.valid_binary prec emax (S754_finite s1 m1 e1) = true ->
  SpecFloat.valid_binary prec emax (S754_finite s2 m2 e2) = true ->
  (e1 < e2)%Z ->
  (Zpos m1 * 2 ^ (e1 - emin) < Zpos m2 * 2 ^ (e2 - emin))%Z.
Proof.
  intros H1 H2 Hlt.
  apply valid_finite in H1. destruct H1 as [[Ha1 Ha2] [Hm1 _]].
  apply valid_finite in H2. destruct H2 as [[Hb1 Hb2] [_ Hm2]].
  specialize (Hm2 ltac:(lia)).
  replace (e2 - emin)%Z with ((e1 - emin) + (e2 - e1))%Z by lia.
  rewrite Z.pow_add_r by lia.
  assert (HA : (0 < 2 ^ (e1 - emin))%Z) by (apply Z.pow_pos_nonneg; lia).
  assert (HK : (2 ^ 1 <= 2 ^ (e2 - e1))%Z) by (apply Z.pow_le_mono_r; lia).
  change (2 ^ 1)%Z with 2%Z in HK.
  assert (HP : (2 ^ prec = 2 * 2 ^ (prec - 1))%Z).
  { replace prec with (Z.succ (prec - 1)) at 1 by lia.
    apply Z.pow_succ_r. lia. }
  set (A := (2 ^ (e1 - emin))%Z) in *. set (K := (2 ^ (e2 - e1))%Z) in *.
  set (H := (2 ^ (prec - 1))%Z) in *.
  assert (S0 : (Zpos m1 * A < 2 * H * A)%Z)
    by (apply Z.mul_lt_mono_pos_r; lia).
  assert (S1 : (H * A <= Zpos m2 * A)%Z)
    by (apply Z.mul_le_mono_nonneg_r; lia).
  assert (S2 : (Zpos m2 * A * 2 <= Zpos m2 * A * K)%Z)
    by (apply Z.mul_le_mono_nonneg_l; [apply Z.mul_nonneg_nonneg|]; lia).
  lia.
Qed.

Lemma compare_cont_Eq (m1 m2 : BinNums.positive) (c : Z) :
  (0 < c)%Z ->
  Pos.compare_cont Eq m1 m2 = (Zpos m1 * c ?= Zpos m2 * c)%Z.
Proof.
  intros Hc. change (Pos.compare_cont Eq m1 m2) with (Zpos m1 ?= Zpos m2)%Z.
  destruct (Z.compare_spec (Zpos m1) (Zpos m2)) as [E|L|G]; symmetry.
  - apply Z.compare_eq_iff. now rewrite E.
  - apply Z.compare_lt_iff. now apply Z.mul_lt_mono_pos_r.
  - apply Z.compare_gt_iff. now apply Z.mul_lt_mono_pos_r.
Qed.

(** The order of the numbers that are not NaN is the order of their
    places. *)
Lemma compare_place (x y : spec_float) :
  SpecFloat.valid_binary prec emax x = true -> SpecFloat.valid_binary prec emax y = true ->
  x <> S754_nan -> y <> S754_nan ->
  SFcompare x y = Some (Binary64.place prec emax x ?= Binary64.place prec emax y)%Z.
Proof.
  intros Vx Vy Nx Ny.
  assert (HT : (0 < 2 ^ (emax - emin))%Z).
  { apply Z.pow_pos_nonneg; [lia|]. unfold emin, SpecFloat.emin. lia. }
  destruct x as [sx|sx| |sx mx ex]; [| |congruence|];
    destruct y as [sy|sy| |sy my ey]; try congruence;
    cbn [SFcompare Binary64.place]; fold emin.
  - reflexivity.
  - destruct sy; cbn [cond_Zopp]; f_equal; symmetry;
      [apply Z.compare_gt_iff|apply Z.compare_lt_iff]; lia.
  - pose proof (valid_finite _ _ _ Vy) as [[He _] _].
    pose proof (size_pos my ey He).
    destruct sy; cbn [cond_Zopp]; f_equal; symmetry;
      [apply Z.compare_gt_iff|apply Z.compare_lt_iff]; lia.
  - destruct sx; cbn [cond_Zopp]; f_equal; symmetry;
      [apply Z.compare_lt_iff|apply Z.compare_gt_iff]; lia.
  - destruct sx, sy; cbn [cond_Zopp]; f_equal; symmetry;
      try (apply Z.compare_eq_iff; lia);
      [apply Z.compare_lt_iff|apply Z.compare_gt_iff]; lia.
  - pose proof (valid_finite _ _ _ Vy) as [[He _] _].
    pose proof (size_pos my ey He).
    pose proof (size_bound _ _ _ Vy).
    destruct sx, sy; cbn [cond_Zopp]; f_equal; symmetry;
      try (apply Z.compare_lt_iff; lia); apply Z.compare_gt_iff; lia.
  - pose proof (valid_finite _ _ _ Vx) as [[He _] _].
    pose proof (size_pos mx ex He).
    destruct sx; cbn [cond_Zopp]; f_equal; symmetry;
      [apply Z.compare_lt_iff|apply Z.compare_gt_iff]; lia.
  - pose proof (valid_finite _ _ _ Vx) as [[He _] _].
    pose proof (size_pos mx ex He).
    pose proof (size_bound _ _ _ Vx).
    destruct sx, sy; cbn [cond_Zopp]; f_equal; symmetry;
      try (apply Z.compare_lt_iff; lia); apply Z.compare_gt_iff; lia.
  - pose proof (valid_finite _ _ _ Vx) as [[Hex _] _].
    pose proof (valid_finite _ _ _ Vy) as [[Hey _] _].
    pose proof (size_pos mx ex Hex) as Px.
    pose proof (size_pos my ey Hey) as Py.
    f_equal.
    destruct sx, sy; cbn [cond_Zopp].
    + rewrite Z.compare_opp.
      destruct (Z.compare_spec ex ey) as [E|L|G].
      * subst ey. rewrite (compare_cont_Eq mx my (2 ^ (ex - emin))) by
          (apply Z.pow_pos_nonneg; lia).
        rewrite (Z.compare_antisym (Zpos mx * _) (Zpos my * _)). reflexivity.
      * pose proof (size_exponent _ _ _ _ _ _ Vx Vy L).
        symmetry. apply Z.compare_gt_iff. lia.
      * pose proof (size_exponent _ _ _ _ _ _ Vy Vx ltac:(lia)).
        symmetry. apply Z.compare_lt_iff. lia.
    + symmetry. apply Z.compare_lt_iff. lia.
    + symmetry. apply Z.compare_gt_iff. lia.
    + destruct (Z.compare_spec ex ey) as [E|L|G].
      * subst ey. apply compare_cont_Eq. apply Z.pow_pos_nonneg; lia.
      * pose proof (size_exponent _ _ _ _ _ _ Vx Vy L).
        symmetry. apply Z.compare_lt_iff. lia.
      * pose proof (size_exponent _ _ _ _ _ _ Vy Vx ltac:(lia)).
        symmetry. apply Z.compare_gt_iff. lia.
Qed.

Lemma aligned_place (s : bool) (m : BinNums.positive) (e ez : Z) :
  (emin <= ez <= e)%Z ->
  Binary64.place prec emax (S754_finite s m e)
  = (cond_Zopp s (Zpos (fst (shl_align m e ez))) * 2 ^ (ez - emin))%Z.
Proof.
  intros H. cbn [Binary64.place]. fold emin. rewrite shl_align_value by lia.
  replace (e - emin)%Z with ((e - ez) + (ez - emin))%Z by lia.
  rewrite Z.pow_add_r by lia.
  destruct s; cbn [cond_Zopp]; lia.
Qed.

(** [0 < x - y] holds exactly when [y] lies below [x]: the difference of two
    numbers is never rounded to zero or across it, and the difference of an
    infinity and itself, NaN, is not positive. *)
Lemma sub_positive (x y : spec_float) :
  SpecFloat.valid_binary prec emax x = true -> SpecFloat.valid_binary prec emax y = true ->
  x <> S754_nan -> y <> S754_nan ->
  SFltb (S754_zero false) (SFsub prec emax x y)
  = (Binary64.place prec emax y <? Binary64.place prec emax x)%Z.
Proof.
  intros Vx Vy Nx Ny.
  assert (HT : (0 < 2 ^ (emax - emin))%Z).
  { apply Z.pow_pos_nonneg; [lia|]. unfold emin, SpecFloat.emin. lia. }
  unfold SFltb.
  destruct x as [sx|sx| |sx mx ex]; [| |congruence|];
    destruct y as [sy|sy| |sy my ey]; try congruence;
    cbn [SFsub Binary64.place]; fold emin.
  - destruct sx, sy; reflexivity.
  - destruct sy; cbn [SFcompare cond_Zopp negb]; symmetry;
      [apply Z.ltb_lt|apply Z.ltb_ge]; lia.
  - pose proof (valid_finite _ _ _ Vy) as [[He _] _].
    pose proof (size_pos my ey He).
    destruct sy; cbn [SFcompare cond_Zopp negb]; symmetry;
      [apply Z.ltb_lt|apply Z.ltb_ge]; lia.
  - destruct sx; cbn [SFcompare cond_Zopp]; symmetry;
      [apply Z.ltb_ge|apply Z.ltb_lt]; lia.
  - destruct sx, sy; cbn [SFcompare cond_Zopp]; symmetry;
      try (apply Z.ltb_ge; lia); apply Z.ltb_lt; lia.
  - pose proof (valid_finite _ _ _ Vy) as [[He _] _].
    pose proof (size_pos my ey He).
    pose proof (size_bound _ _ _ Vy).
    destruct sx; cbn [SFcompare cond_Zopp]; symmetry;
      [apply Z.ltb_ge|apply Z.ltb_lt]; destruct sy; cbn [cond_Zopp]; lia.
  - pose proof (valid_finite _ _ _ Vx) as [[He _] _].
    pose proof (size_pos mx ex He).
    destruct sx; cbn [SFcompare cond_Zopp]; symmetry;
      [apply Z.ltb_ge|apply Z.ltb_lt]; lia.
  - pose proof (valid_finite _ _ _ Vx) as [[He _] _].
    pose proof (size_pos mx ex He).
    pose proof (size_bound _ _ _ Vx).
    destruct sy; cbn [SFcompare cond_Zopp negb]; symmetry;
      [apply Z.ltb_lt|apply Z.ltb_ge]; destruct sx; cbn [cond_Zopp]; lia.
  - pose proof (valid_finite _ _ _ Vx) as [[Hex _] _].
    pose proof (valid_finite _ _ _ Vy) as [[Hey _] _].
    set (ez := Z.min ex ey).
    assert (Hez : (emin <= ez)%Z) by (unfold ez; lia).
    rewrite (binary_normalize_sign _ ez Hez).
    pose proof (aligned_place sx mx ex ez ltac:(unfold ez; lia)) as Ex.
    pose proof (aligned_place sy my ey ez ltac:(unfold ez; lia)) as Ey.
    cbn [Binary64.place] in Ex, Ey. fold emin in Ex, Ey. rewrite Ex, Ey.
    set (Mx := cond_Zopp sx _). set (My := cond_Zopp sy _).
    assert (Hc : (0 < 2 ^ (ez - emin))%Z) by (apply Z.pow_pos_nonneg; lia).
    destruct (Z.compare_spec 0 (Mx - My)) as [E|L|G]; symmetry.
    + apply Z.ltb_ge. nia.
    + apply Z.ltb_lt. nia.
    + apply Z.ltb_ge. nia.
Qed.

End SpecOrder.



Lemma not_nan (x : PrimFloat.float) :
  PrimFloat.is_nan x = false -> FloatOps.Prim2SF x <> S754_nan.
Proof.
  unfold PrimFloat.is_nan. rewrite FloatAxioms.eqb_spec.
  intros H E. rewrite E in H. discriminate H.
Qed.

Lemma float_compare_place (x y : PrimFloat.float) :
  PrimFloat.is_nan x = false -> PrimFloat.is_nan y = false ->
  SFcompare (FloatOps.Prim2SF x) (FloatOps.Prim2SF y)
  = Some (Binary64.placeOf x ?= Binary64.placeOf y)%Z.
Proof.
  intros Hx Hy.
  apply (compare_place FloatOps.prec FloatOps.emax);
    auto using FloatAxioms.Prim2SF_valid, not_nan; reflexivity.
Qed.



Lemma leb_place (x y : PrimFloat.float) :
  PrimFloat.is_nan x = false -> PrimFloat.is_nan y = false ->
  (x <=? y)%float = (Binary64.placeOf x <=? Binary64.placeOf y)%Z.
Proof.
  intros Hx Hy. rewrite FloatAxioms.leb_spec. unfold SFleb.
  rewrite (float_compare_place x y Hx Hy), Z.leb_compare.
  now destruct (Binary64.placeOf x ?= Binary64.placeOf y)%Z.
Qed.

Lemma sub_ltb (x y : PrimFloat.float) :
  PrimFloat.is_nan x = false -> PrimFloat.is_nan y = false ->
  (PrimFloat.zero <? y - x)%float = (Binary64.placeOf x <? Binary64.placeOf y)%Z.
Proof.
  intros Hx Hy. rewrite FloatAxioms.ltb_spec, FloatAxioms.sub_spec.
  change (FloatOps.Prim2SF PrimFloat.zero) with (S754_zero false).
  apply (sub_positive FloatOps.prec FloatOps.emax);
    auto using FloatAxioms.Prim2SF_valid, not_nan; reflexivity.
Qed.

(* ================================================================== *)
(** ** The ranking in binary64 *)
(* ================================================================== *)

Lemma binary64_scoreAll_length (queryVec : list PrimFloat.float)
  (dataRows : list record) (vectors : list (list PrimFloat.float)) :
  List.length (Binary64.scoreAll queryVec dataRows vectors) = List.length vectors.
Proof. apply mapiFrom_length. Qed.

(** On scores that are not NaN the comparator is positive exactly when the
    first score lies below the second. *)
Lemma byScoreDesc_place (a b : Binary64.Scored) :
  Binary64.numeric a -> Binary64.numeric b ->
  Binary64.byScoreDesc a b
  = (Binary64.placeOf (Binary64.score a) <? Binary64.placeOf (Binary64.score b))%Z.
Proof. intros Ha Hb. unfold Binary64.byScoreDesc. now apply sub_ltb. Qed.

Lemma byScoreDesc_asym (a b : Binary64.Scored) :
  Binary64.numeric a -> Binary64.numeric b ->
  Binary64.byScoreDesc a b = true -> Binary64.byScoreDesc b a = false.
Proof.
  intros Ha Hb. rewrite !byScoreDesc_place by assumption.
  intros H. apply Z.ltb_lt in H. apply Z.ltb_ge. lia.
Qed.

Lemma byScoreDesc_cotrans (a b c : Binary64.Scored) :
  Binary64.numeric a -> Binary64.numeric b -> Binary64.numeric c ->
  Binary64.byScoreDesc a c = true ->
  Binary64.byScoreDesc a b = true \/ Binary64.byScoreDesc b c = true.
Proof.
  intros Ha Hb Hc. rewrite !byScoreDesc_place by assumption.
  intros H. apply Z.ltb_lt in H.
  destruct (Z_lt_dec (Binary64.placeOf (Binary64.score a))
                     (Binary64.placeOf (Binary64.score b))) as [L|L].
  - left. now apply Z.ltb_lt.
  - right. apply Z.ltb_lt. lia.
Qed.






(** The scenario of the design document in binary64: the query "dog"
    scores both documents the same, and the tie leaves the first document
    first. *)
Example binary64_ranking_scenario :
  let doc1 := [("text", VStr "cat dog")] in
  let doc2 := [("text", VStr "dog bird")] in
  let search :=
    Binary64.vectorSearch "dog" [doc1; doc2]
      (map Binary64.counts [[1; 1; 0]; [0; 1; 1]]) ["cat"; "dog"; "bird"] in
  map Binary64.row (search 2%Z) = [Some doc1; Some doc2]
  /\ map Binary64.row (search 1%Z) = [Some doc1]
  /\ Forall (fun s => (Binary64.score s
                        =? PrimFloat.div PrimFloat.one
                             (PrimFloat.sqrt PrimFloat.two))%float = true)
            (search 2%Z).
Proof. vm_compute. repeat constructor. Qed.

(** Rounding decides the order: of two documents that hold the same mix of
    terms, the one with three occurrences of each scores 1 and is ranked
    before the one with a single occurrence, which scores just below 1. *)
Example binary64_rounding_orders :
  let single := [("id", VStr "single")] in
  let triple := [("id", VStr "triple")] in
  let queryVec := Binary64.counts [1; 1] in
  let vectors := map Binary64.counts [[1; 1]; [3; 3]] in
  let result := Binary64.ranked queryVec [single; triple] vectors 2 in
  map Binary64.row result = [Some triple; Some single]
  /\ map (fun s => (Binary64.score s <? PrimFloat.one)%float) result
     = [false; true].
Proof. vm_compute. split; reflexivity. Qed.

(** Vectors of the query's dimension can score NaN as well: the squares of
    entries of [2^700] overflow, and an infinity is divided by an infinity. *)
Example binary64_overflow_NaN :
  let big := FloatOps.Z.ldexp PrimFloat.one 700 in
  Binary64.cosineSimilarity [big; PrimFloat.zero] [big; PrimFloat.zero]
  = PrimFloat.nan.
Proof. vm_compute. reflexivity. Qed.


(* ================================================================== *)
(** ** The chat handler *)
(* ================================================================== *)

Import Chat.

(** Whatever the failure and whatever the local index holds, a rejected remote
    call ends with the error text as the reply. *)
Lemma handleSendMessage_rejected (session : Session) (st : State) (why : Failure) :
  trim (inputValue st) <> "" ->
  handleSendMessage session st (Rejected why)
  = mkState (messages st ++ [mkMessage (inputValue st) true []]
                         ++ [mkMessage errorText false []]) "" false.
Proof.
  intros H. unfold handleSendMessage.
  destruct (String.eqb (trim (inputValue st)) "") eqn:E.
  - apply String.eqb_eq in E. contradiction.
  - now rewrite <- app_assoc.
Qed.

(** Claim C2 does not hold of the code.  The dataset has rows and a local
    index, the user asks for "dog", and the remote call times out: the reply
    is the error text, and no ranking of the rows is produced. *)
Theorem handleSendMessage_timeout_shows_error :
  let session :=
    mkSession "pets"
              [[("t", VStr "cat dog")]; [("t", VStr "dog bird")]]
              ["cat"; "dog"; "bird"]
              [[1; 1; 0]; [0; 1; 1]]%R in
  messages (handleSendMessage session (mkState [] "dog" false) (Rejected TimedOut))
  = [mkMessage "dog" true []; mkMessage errorText false []].
Proof. reflexivity. Qed.

(* ================================================================== *)
(** ** The profiler: summary *)
(* ================================================================== *)

Import Profiler.

Lemma column_length (data : list record) (field : string) :
  List.length (column data field) = List.length data.
Proof. apply length_map. Qed.

(** *** The code against the stated quantities *)







(** The test of the code, [k > n * 0.8], over the integers. *)
Lemma isNumeric_spec (data : list record) (field : string) :
  isNumeric data field
  = (4 * List.length (nonNullValues data field)
       <? 5 * List.length (numberValues data field)).
Proof.
  unfold isNumeric, Qltb, ofNat.
  set (n := List.length (nonNullValues data field)).
  set (k := List.length (numberValues data field)).
  destruct (4 * n <? 5 * k) eqn:E.
  - apply Nat.ltb_lt in E. apply negb_true_iff.
    destruct (Qle_bool _ _) eqn:Q; [|reflexivity].
    apply Qle_bool_iff in Q. unfold Qle in Q. simpl in Q. lia.
  - apply Nat.ltb_ge in E. apply negb_false_iff.
    apply Qle_bool_iff. unfold Qle. simpl. lia.
Qed.


(** *** Missing values *)




(** A cell the row does not have is rejected by [v != null] like null, and
    counts as missing: of three records the field has one value. *)
Example missingValues_absent_cell :
  let data := [[("a", VStr "1")]; []; [("a", VNull)]] in
  missingValues (summary (analyzeFrontendData (fun _ => 0%Q) data)) = 2
  /\ Stated.firstRecordFields data = ["a"]
  /\ Stated.nonMissingCount data "a" = 1.
Proof. repeat split. Qed.

(** Fields that later records have and the first has not are not counted,
    and an empty string is missing where the text "0" is not. *)
Example missingValues_first_record_only :
  missingValues (summary (analyzeFrontendData (fun _ => 0%Q)
                            [[("a", VStr ""); ("b", VStr "0")];
                             [("a", VStr "x"); ("c", VNull)]])) = 2.
Proof. reflexivity. Qed.

(** *** Numeric fields *)

Lemma get_set {A : Type} (o : object A) (key key' : string) (v : A) :
  get (set o key v) key' = if String.eqb key key' then Some v else get o key'.
Proof.
  induction o as [|[k w] rest IH]; simpl.
  - reflexivity.
  - destruct (String.eqb k key) eqn:E; simpl.
    + apply String.eqb_eq in E. subst k.
      now destruct (String.eqb key key').
    + rewrite IH. destruct (String.eqb k key') eqn:E'; [|reflexivity].
      apply String.eqb_eq in E'. subst k.
      now rewrite String.eqb_sym, E.
Qed.

(** An assignment defines the property, except under the name [__proto__],
    where it changes nothing. *)
Lemma get_assign {A : Type} (o : object A) (key key' : string) (v : A) :
  get (assign o key v) key'
  = if String.eqb key key' && negb (String.eqb key "__proto__")
    then Some v else get o key'.
Proof.
  unfold assign. destruct (String.eqb key "__proto__").
  - now rewrite andb_false_r.
  - rewrite get_set, andb_true_r. reflexivity.
Qed.

Lemma summarizeField_dataTypes (data : list record) (s : Summary) (field key : string) :
  get (dataTypes (summarizeField data s field)) key
  = if String.eqb field key && negb (String.eqb field "__proto__")
       && isNumeric data field
    then Some (List.length (numberValues data field))
    else get (dataTypes s) key.
Proof.
  unfold summarizeField. destruct (isNumeric data field); simpl.
  - rewrite get_assign. now rewrite andb_true_r.
  - now rewrite andb_false_r.
Qed.

Lemma fold_dataTypes (data : list record) (fields : list string) (s : Summary)
  (key : string) :
  get (dataTypes (fold_left (summarizeField data) fields s)) key
  = if existsb (String.eqb key) fields && negb (String.eqb key "__proto__")
       && isNumeric data key
    then Some (List.length (numberValues data key))
    else get (dataTypes s) key.
Proof.
  revert s. induction fields as [|f rest IH]; intros s; simpl; [reflexivity|].
  rewrite IH, summarizeField_dataTypes.
  rewrite (String.eqb_sym key f).
  destruct (String.eqb f key) eqn:E; simpl.
  - apply String.eqb_eq in E. subst f.
    destruct (String.eqb key "__proto__"); simpl.
    + now rewrite andb_false_r.
    + destruct (isNumeric data key); [|now rewrite andb_false_r].
      now destruct (existsb (String.eqb key) rest).
  - reflexivity.
Qed.




(** A numeric field named [__proto__], an own property of every record as
    [JSON.parse] makes it, gets no entry: the assignment reaches the setter of
    [Object.prototype]. *)
Example dataTypes_proto_field :
  let data := [[("__proto__", VStr "1")]; [("__proto__", VStr "2")]] in
  Stated.mostlyNumbers data "__proto__" = true
  /\ dataTypes (summary (analyzeFrontendData (fun _ => 0%Q) data)) = [].
Proof. split; reflexivity. Qed.

(* ================================================================== *)
(** ** The profiler: the tally behind the distribution *)
(* ================================================================== *)

Lemma get_In {A : Type} (o : object A) (key : string) (v : A) :
  get o key = Some v -> In (key, v) o.
Proof.
  induction o as [|[k w] rest IH]; simpl; [discriminate|].
  destruct (String.eqb k key) eqn:E.
  - apply String.eqb_eq in E. subst k. intros [= ->]. now left.
  - intros H. right. now apply IH.
Qed.

Lemma filter_split_perm {A : Type} (p : A -> bool) (l : list A) :
  Permutation (filter p l ++ filter (fun x => negb (p x)) l) l.
Proof.
  induction l as [|x rest IH]; simpl; [reflexivity|].
  destruct (p x); simpl.
  - now constructor.
  - rewrite <- Permutation_middle. now constructor.
Qed.

(** [Object.entries] lists every own property once. *)
Lemma entries_perm {A : Type} (o : object A) : Permutation (entries o) o.
Proof.
  unfold entries. rewrite sort_perm.
  apply (filter_split_perm (fun e => isArrayIndex (fst e))).
Qed.

Lemma sortedEntries_perm (data : list record) (field : string) :
  Permutation (sortedEntries data field) (counts data field).
Proof.
  unfold sortedEntries. rewrite sort_perm. apply entries_perm.
Qed.

Lemma set_Forall {A : Type} (P : string * A -> Prop) (o : object A)
  (key : string) (v : A) :
  Forall P o -> (forall k, P (k, v)) -> Forall P (set o key v).
Proof.
  intros H Hv. induction H as [|[k w] rest Hk Hrest IH]; simpl.
  - repeat constructor. apply Hv.
  - destruct (String.eqb k key); constructor; auto.
Qed.

Lemma isMember_proto (key : string) :
  isMember key = false -> String.eqb key "__proto__" = false.
Proof.
  intros H. destruct (String.eqb key "__proto__") eqn:E; [|reflexivity].
  apply String.eqb_eq in E. subst key. discriminate H.
Qed.

(** A label is the name of a function of the prototype, or [__proto__], or
    no member at all. *)
Lemma functionLabel_cases (key : string) :
  isFunctionMember key = false -> key = "__proto__" \/ isMember key = false.
Proof.
  unfold isFunctionMember. intros H.
  destruct (isMember key); [|now right].
  destruct (String.eqb key "__proto__") eqn:E; [|discriminate H].
  left. now apply String.eqb_eq.
Qed.

(** Under the label [__proto__] nothing is ever stored. *)
Lemma countValue_proto (field : string) (acc : object tally) (row : record) :
  toString (getField row field) = "__proto__" ->
  countValue field acc row = acc.
Proof. intros H. unfold countValue. now rewrite H. Qed.

(** Under a label that names no member of the prototype, in a tally that
    holds counts, the step is the one of a plain map. *)
Lemma countValue_plain (field : string) (acc : object tally) (row : record) :
  isMember (toString (getField row field)) = false ->
  (forall t, get acc (toString (getField row field)) = Some t ->
     isCount t = true) ->
  countValue field acc row
  = set acc (toString (getField row field))
        (Count (countOr0 acc (toString (getField row field)) + 1)).
Proof.
  intros Hplain Hacc. unfold countValue, assign, nextTally, countOr0.
  set (key := toString (getField row field)) in *.
  rewrite (isMember_proto key Hplain). f_equal.
  destruct (get acc key) as [t|] eqn:E.
  - specialize (Hacc t eq_refl). destruct t as [c|text]; [|discriminate Hacc].
    simpl. destruct (c =? 0)%Z eqn:Z0; [|reflexivity].
    apply Z.eqb_eq in Z0. now subst c.
  - unfold isMember in Hplain. now destruct (memberOf key).
Qed.

Lemma counts_only_get (acc : object tally) (key : string) (t : tally) :
  Forall (fun e => isCount (snd e) = true) acc ->
  get acc key = Some t -> isCount t = true.
Proof.
  intros H E. apply get_In in E. rewrite Forall_forall in H.
  exact (H _ E).
Qed.

(** While no label names a function of the prototype, the tally holds
    counts only. *)
Lemma countValue_counts_only (field : string) (acc : object tally) (row : record) :
  functionLabel (getField row field) = false ->
  Forall (fun e => isCount (snd e) = true) acc ->
  Forall (fun e => isCount (snd e) = true) (countValue field acc row).
Proof.
  intros Hlabel Hacc.
  destruct (functionLabel_cases _ Hlabel) as [E|E].
  - now rewrite countValue_proto.
  - rewrite countValue_plain; [|exact E|].
    + apply set_Forall; [exact Hacc|reflexivity].
    + intros t. now apply counts_only_get.
Qed.

Lemma counts_counts_only (data : list record) (field : string) :
  Forall (fun v => functionLabel v = false) (Stated.valuesOf data field) ->
  Forall (fun e => isCount (snd e) = true) (counts data field).
Proof.
  unfold counts, Stated.valuesOf. rewrite Forall_map.
  generalize (Forall_nil (fun e : string * tally => isCount (snd e) = true)).
  generalize (@nil (string * tally)).
  induction data as [|row rest IH]; intros acc Hacc H; simpl; [exact Hacc|].
  inversion H as [|? ? Hrow Hrest]; subst.
  apply IH; [|exact Hrest]. now apply countValue_counts_only.
Qed.

Lemma occurrences_cons (row : record) (rest : list record) (field key : string) :
  occurrences (row :: rest) field key
  = (if String.eqb (toString (getField row field)) key then 1 else 0)
    + occurrences rest field key.
Proof.
  unfold occurrences, column. cbn [map filter].
  now destruct (String.eqb (toString (getField row field)) key).
Qed.

Lemma countOr0_set (acc : object tally) (key key' : string) (c : Z) :
  countOr0 (set acc key (Count c)) key'
  = if String.eqb key key' then c else countOr0 acc key'.
Proof.
  unfold countOr0. rewrite get_set.
  now destruct (String.eqb key key').
Qed.

Lemma get_countValue_other (field : string) (acc : object tally) (row : record)
  (key : string) :
  String.eqb (toString (getField row field)) key = false ->
  get (countValue field acc row) key = get acc key.
Proof.
  intros H. unfold countValue. rewrite get_assign, H. reflexivity.
Qed.

(** What the tally holds under a label that names no member of the
    prototype: nothing while no row has the label, then the number of rows
    that have it, whatever the other labels are. *)
Lemma fold_countValue (field : string) (rows : list record) (acc : object tally)
  (key : string) :
  isMember key = false ->
  (forall t, get acc key = Some t -> isCount t = true) ->
  get (fold_left (countValue field) rows acc) key
  = if occurrences rows field key =? 0 then get acc key
    else Some (Count (countOr0 acc key + Z.of_nat (occurrences rows field key))).
Proof.
  intros Hplain. revert acc.
  induction rows as [|row rest IH]; intros acc Hacc; [reflexivity|].
  cbn [fold_left]. rewrite occurrences_cons.
  destruct (String.eqb (toString (getField row field)) key) eqn:E.
  - apply String.eqb_eq in E.
    rewrite countValue_plain by (rewrite E; assumption). rewrite E.
    rewrite IH.
    + rewrite get_set, countOr0_set, String.eqb_refl.
      destruct (occurrences rest field key) as [|m]; cbn [Nat.eqb Nat.add];
        do 2 f_equal; lia.
    + intros t. rewrite get_set, String.eqb_refl. now intros [= <-].
  - rewrite IH.
    + unfold countOr0. now rewrite get_countValue_other by exact E.
    + intros t. rewrite get_countValue_other by exact E. apply Hacc.
Qed.

Lemma occurrences_pos (data : list record) (field : string) (v : value) :
  In v (column data field) -> 0 < occurrences data field (toString v).
Proof.
  intros H. unfold occurrences.
  assert (Hin : In v (filter (fun w => String.eqb (toString w) (toString v))
                             (column data field))).
  { apply filter_In. split; [exact H|apply String.eqb_refl]. }
  destruct (filter _ _); [contradiction|simpl; lia].
Qed.

(** Every cell of the tallied field whose string form names no member of
    the prototype, missing or not, has its string form as a key of the tally,
    with the number of rows of that string form. *)
Lemma counts_complete (data : list record) (field : string) (v : value) :
  In v (column data field) -> memberLabel v = false ->
  In (toString v, Count (Z.of_nat (occurrences data field (toString v))))
     (counts data field).
Proof.
  intros H Hplain. apply get_In. unfold counts.
  rewrite fold_countValue; [|exact Hplain|discriminate].
  pose proof (occurrences_pos data field v H) as Hpos.
  destruct (occurrences data field (toString v) =? 0) eqn:E.
  - apply Nat.eqb_eq in E. lia.
  - reflexivity.
Qed.

(** *** The keys of the tally *)

Lemma set_keys {A : Type} (o : object A) (key : string) (v : A) :
  map fst (set o key v)
  = if existsb (String.eqb key) (map fst o) then map fst o
    else map fst o ++ [key].
Proof.
  induction o as [|[k w] rest IH]; simpl; [reflexivity|].
  rewrite (String.eqb_sym key k).
  destruct (String.eqb k key) eqn:E; simpl; [reflexivity|].
  rewrite IH. now destruct (existsb (String.eqb key) (map fst rest)).
Qed.

Lemma set_keys_NoDup {A : Type} (o : object A) (key : string) (v : A) :
  NoDup (map fst o) -> NoDup (map fst (set o key v)).
Proof.
  intros H. rewrite set_keys.
  destruct (existsb (String.eqb key) (map fst o)) eqn:E; [exact H|].
  apply NoDup_app; [exact H|repeat constructor; auto|].
  intros k Hk [Heq|[]]. subst k.
  assert (existsb (String.eqb key) (map fst o) = true); [|congruence].
  apply existsb_exists. exists key. split; [exact Hk|apply String.eqb_refl].
Qed.

(** Every label that is not [__proto__] is a key of the tally from its first
    row on, and stays one. *)
Lemma set_keys_In {A : Type} (o : object A) (key k : string) (v : A) :
  In k (map fst (set o key v)) <-> In k (map fst o) \/ k = key.
Proof.
  rewrite set_keys.
  destruct (existsb (String.eqb key) (map fst o)) eqn:E.
  - split; [auto|]. intros [H| ->]; [exact H|].
    apply existsb_exists in E. destruct E as [x [Hx Heq]].
    apply String.eqb_eq in Heq. now subst x.
  - rewrite in_app_iff. simpl. intuition.
Qed.

Lemma countValue_keys (field : string) (acc : object tally) (row : record)
  (k : string) :
  In k (map fst (countValue field acc row))
  <-> In k (map fst acc)
      \/ (k = toString (getField row field) /\ k <> "__proto__").
Proof.
  unfold countValue, assign.
  destruct (String.eqb (toString (getField row field)) "__proto__") eqn:E.
  - apply String.eqb_eq in E. rewrite E. intuition.
  - apply String.eqb_neq in E. rewrite set_keys_In.
    split; intros [H|H]; auto.
    + right. subst k. now split.
    + right. tauto.
Qed.

Lemma counts_keys (data : list record) (field : string) (k : string) :
  In k (map fst (counts data field))
  <-> exists v, In v (column data field) /\ toString v = k /\ k <> "__proto__".
Proof.
  unfold counts, column.
  assert (G : forall acc,
            In k (map fst (fold_left (countValue field) data acc))
            <-> In k (map fst acc)
                \/ exists v, In v (map (fun row => getField row field) data)
                             /\ toString v = k /\ k <> "__proto__").
  { induction data as [|row rest IH]; intros acc; simpl.
    - split; [auto|]. intros [H|[v [[] _]]]. exact H.
    - rewrite IH, countValue_keys. split.
      + intros [[H|[H1 H2]]|[v [Hv H]]]; auto.
        * right. exists (getField row field). auto.
        * right. exists v. auto.
      + intros [H|[v [[<-|Hv] [H1 H2]]]]; auto.
        right. exists v. auto. }
  rewrite G. simpl. intuition.
Qed.

(* ================================================================== *)
(** ** The profiler: distribution *)
(* ================================================================== *)

(** On counts the comparator is positive exactly when the first count is
    the smaller. *)
Lemma byCountDesc_counts (x y : string * tally) :
  isCount (snd x) = true -> isCount (snd y) = true ->
  byCountDesc x y = (countOf (snd x) <? countOf (snd y))%Z.
Proof.
  destruct x as [kx [a|sx]], y as [ky [b|sy]]; simpl; try discriminate.
  intros _ _. unfold byCountDesc. cbn [snd tallyNumber minus positiveNumber].
  destruct (a <? b)%Z eqn:E.
  - apply Z.ltb_lt in E. apply negb_true_iff.
    destruct (Qle_bool _ _) eqn:Q; [|reflexivity].
    apply Qle_bool_iff in Q. unfold Qle in Q. simpl in Q. lia.
  - apply Z.ltb_ge in E. apply negb_false_iff.
    apply Qle_bool_iff. unfold Qle. simpl. lia.
Qed.

Lemma byCountDesc_asym (x y : string * tally) :
  isCount (snd x) = true -> isCount (snd y) = true ->
  byCountDesc x y = true -> byCountDesc y x = false.
Proof.
  intros Hx Hy. rewrite !byCountDesc_counts by assumption.
  intros H. apply Z.ltb_lt in H. apply Z.ltb_ge. lia.
Qed.

Lemma byCountDesc_cotrans (x y z : string * tally) :
  isCount (snd x) = true -> isCount (snd y) = true -> isCount (snd z) = true ->
  byCountDesc x z = true -> byCountDesc x y = true \/ byCountDesc y z = true.
Proof.
  intros Hx Hy Hz. rewrite !byCountDesc_counts by assumption.
  intros H. apply Z.ltb_lt in H.
  destruct (Z_lt_dec (countOf (snd x)) (countOf (snd y))) as [L|L].
  - left. now apply Z.ltb_lt.
  - right. apply Z.ltb_lt. lia.
Qed.

(** The counts of the sorted tally descend. *)
Lemma sort_byCountDesc_sorted (l : list (string * tally)) :
  Forall (fun e => isCount (snd e) = true) l ->
  StronglySorted (fun x y => (countOf (snd x) >= countOf (snd y))%Z)
                 (sort byCountDesc l).
Proof.
  intros Hl.
  apply StronglySorted_impl with (R := fun x y => byCountDesc x y = false).
  - intros x y Hx Hy H.
    assert (Hin : forall e, In e (sort byCountDesc l) -> isCount (snd e) = true).
    { intros e He. rewrite Forall_forall in Hl. apply Hl.
      eapply Permutation_in; [apply sort_perm|exact He]. }
    rewrite byCountDesc_counts in H by auto. apply Z.ltb_ge in H. lia.
  - apply sort_StronglySorted with (ok := fun e => isCount (snd e) = true).
    + exact byCountDesc_asym.
    + exact byCountDesc_cotrans.
    + exact Hl.
Qed.

Lemma sortedEntries_counts_only (data : list record) (field : string) :
  Forall (fun v => functionLabel v = false) (Stated.valuesOf data field) ->
  Forall (fun e => isCount (snd e) = true) (sortedEntries data field).
Proof.
  intros H. eapply Permutation_Forall.
  - symmetry. apply sortedEntries_perm.
  - now apply counts_counts_only.
Qed.

Lemma sortedEntries_sorted (data : list record) (field : string) :
  Forall (fun v => functionLabel v = false) (Stated.valuesOf data field) ->
  StronglySorted (fun x y => (countOf (snd x) >= countOf (snd y))%Z)
                 (sortedEntries data field).
Proof.
  intros H. unfold sortedEntries. apply sort_byCountDesc_sorted.
  eapply Permutation_Forall; [symmetry; apply entries_perm|].
  now apply counts_counts_only.
Qed.

Lemma counts_only_values (l : list (string * tally)) :
  Forall (fun e => isCount (snd e) = true) l ->
  map snd l = map Count (map (fun e => countOf (snd e)) l).
Proof.
  induction 1 as [|[k [c|text]] rest Hk Hrest IH]; simpl;
    [reflexivity| |discriminate Hk].
  now rewrite IH.
Qed.

Lemma Forall_firstn {A : Type} (P : A -> Prop) (n : nat) (l : list A) :
  Forall P l -> Forall P (firstn n l).
Proof.
  intros H. rewrite Forall_forall in *. intros x Hx. apply H.
  eapply In_firstn; eauto.
Qed.

Lemma slice0_le {A : Type} (l : list A) (n : nat) :
  List.length (slice0 l (Z.of_nat n)) <= n.
Proof.
  rewrite slice0_nonneg by lia. rewrite length_firstn, Nat2Z.id. lia.
Qed.

(** Claim C3, as stated, fails on the fallback path: one record with a single
    text field has no categorical field, and the placeholder values
    30, 45, 25 do not descend. *)
Lemma distribution_fallback_not_sorted :
  let d := distribution (analyzeFrontendData (fun _ => 0%Q) [[("a", VStr "x")]]) in
  values d = map Count [30; 45; 25]%Z
  /\ ~ StronglySorted Z.ge (map countOf (values d)).
Proof.
  split; [reflexivity|].
  intros H. cbn in H. inversion H as [|? ? _ Hall]; subst.
  inversion Hall as [|? ? Hge _]; subst. lia.
Qed.

(** Claim C3, amended.  For every record list the distribution has at most 8
    entries, as many values as labels.  On the computed path, when no value of
    the selected field has the string form of the name of a function of
    [Object.prototype], the values are counts and descend; for the empty list
    there are none; on the fallback path the distribution is the fixed
    placeholder with values 30, 45, 25, which is not sorted. *)
Theorem distribution_bounded_sorted (random : nat -> Q) (data : list record) :
  let d := distribution (analyzeFrontendData random data) in
  List.length (labels d) <= 8
  /\ List.length (values d) = List.length (labels d)
  /\ (forall field,
        truthyField (categoricalField data) = Some field ->
        Forall (fun v => functionLabel v = false) (Stated.valuesOf data field) ->
        exists cs, values d = map Count cs /\ StronglySorted Z.ge cs)
  /\ (data = [] -> values d = [])
  /\ (data <> [] /\ truthyField (categoricalField data) = None
      -> d = fallbackDistribution).
Proof.
  destruct data as [|first rest].
  - cbn. repeat split; try lia.
    + intros field H. discriminate H.
    + intros [H _]. congruence.
  - cbn [analyzeFrontendData distribution]. unfold distributionData.
    destruct (truthyField (categoricalField (first :: rest))) as [field|].
    + cbn [labels values]. rewrite !length_map. repeat split.
      * apply (slice0_le _ 8).
      * intros f [= <-] Hplain. rewrite slice0_nonneg by lia.
        exists (map (fun e => countOf (snd e))
                    (firstn 8 (sortedEntries (first :: rest) field))).
        split.
        -- apply counts_only_values, Forall_firstn.
           now apply sortedEntries_counts_only.
        -- apply map_StronglySorted, firstn_StronglySorted.
           now apply sortedEntries_sorted.
      * discriminate.
      * intros [_ H]. discriminate H.
    + cbn. repeat split; try lia.
      * intros field H. discriminate H.
      * discriminate.
Qed.

(** A list in which the cell "constructor" occurs once and "a" four times:
    the label "constructor" reads the function [Object] before its first
    write, so that its entry is a string, every difference with it is NaN, and
    it stays ahead of the label that occurs four times. *)
Example distribution_constructor_label :
  let data := map (fun cell => [("c", VStr cell)])
                  ["constructor"; "a"; "a"; "a"; "a"] in
  let d := distribution (analyzeFrontendData (fun _ => 0%Q) data) in
  labels d = ["constructor"; "a"]
  /\ values d = [Text "function Object() { [native code] }1"; Count 4].
Proof. vm_compute. split; reflexivity. Qed.

(** Cells that read [__proto__] are never tallied. *)
Example distribution_proto_label :
  let data := map (fun cell => [("c", VStr cell)])
                  ["__proto__"; "a"; "__proto__"; "a"; "a"] in
  let d := distribution (analyzeFrontendData (fun _ => 0%Q) data) in
  labels d = ["a"] /\ values d = [Count 3].
Proof. vm_compute. split; reflexivity. Qed.

(* ================================================================== *)
(** ** The profiler: trend *)
(* ================================================================== *)

Lemma find_all_false {A : Type} (f : A -> bool) (l : list A) :
  (forall x, In x l -> f x = false) -> find f l = None.
Proof.
  induction l as [|x rest IH]; intros H; simpl; [reflexivity|].
  rewrite (H x (or_introl eq_refl)). apply IH.
  intros y Hy. apply H. now right.
Qed.

Lemma existsb_all_false {A : Type} (f : A -> bool) (l : list A) :
  (forall x, In x l -> f x = false) -> existsb f l = false.
Proof.
  induction l as [|x rest IH]; intros H; simpl; [reflexivity|].
  rewrite (H x (or_introl eq_refl)). apply IH.
  intros y Hy. apply H. now right.
Qed.

Lemma trendLabels_spec (data : list record) :
  trendLabels data = map pointLabel (seq 0 (Nat.min 10 (List.length data))).
Proof.
  unfold trendLabels, mapi. rewrite mapiFrom_seq.
  now rewrite (slice0_length data 10) by lia.
Qed.

(** No cell of any field of the first record parses: no trend field. *)
Lemma numericField_none (data : list record) :
  (forall field row, In field (fieldsOf data) -> In row data ->
     parsesAsNumber (getField row field) = false) ->
  numericField data = None.
Proof.
  intros H. unfold numericField. apply find_all_false.
  intros field Hf. unfold hasNumber, column.
  apply existsb_all_false. intros v Hv.
  apply in_map_iff in Hv. destruct Hv as [row [<- Hrow]].
  now apply H.
Qed.

Lemma randomSeries_bounds (random : nat -> Q) :
  (forall i, 0 <= random i /\ random i < 1)%Q ->
  Forall (fun v => exists q, v = Fin q /\ (0 <= q /\ q < 100)%Q)
         (randomSeries random).
Proof.
  intros H. unfold randomSeries. rewrite Forall_map, Forall_forall.
  intros i _. exists (random i * 100)%Q. split; [reflexivity|].
  destruct (H i) as [H0 H1]. split.
  - apply Qmult_le_0_compat; [exact H0|discriminate].
  - setoid_replace 100%Q with (1 * 100)%Q at 2 by reflexivity.
    apply Qmult_lt_compat_r; [reflexivity|exact H1].
Qed.

(** Claim C6, as stated, fails: one record whose only cell is the text "x"
    has no cell that parses, and the trend has one label, not ten. *)
Lemma trend_labels_follow_records :
  let data := [[("a", VStr "x")]] in
  let t := trends (analyzeFrontendData (fun _ => 1 # 2) data) in
  (forall field row, In field (fieldsOf data) -> In row data ->
     parsesAsNumber (getField row field) = false)
  /\ labels t = ["Data Point 1"]
  /\ List.length (labels t) <> 10
  /\ List.length (values t) = 10.
Proof.
  cbv zeta. split; [|vm_compute; repeat split; discriminate].
  intros field row [<-|[]] [<-|[]]. reflexivity.
Qed.

(** Claim C6, amended.  For a non-empty record list in which no cell of any
    field of the first record parses as a number, the trend has one label per
    record among the first ten, "Data Point 1" up to "Data Point min(10, n)",
    and exactly 10 values, the ten random draws times 100, each in [0,100). *)
Theorem trend_without_numbers (random : nat -> Q) (data : list record) :
  data <> [] ->
  (forall i, 0 <= random i /\ random i < 1)%Q ->
  (forall field row, In field (fieldsOf data) -> In row data ->
     parsesAsNumber (getField row field) = false) ->
  let t := trends (analyzeFrontendData random data) in
  labels t = map pointLabel (seq 0 (Nat.min 10 (List.length data)))
  /\ values t = map (fun i => Fin (random i * 100)) (seq 0 10)
  /\ List.length (values t) = 10
  /\ Forall (fun v => exists q, v = Fin q /\ (0 <= q /\ q < 100)%Q) (values t).
Proof.
  intros Hne Hrand Hnone.
  destruct data as [|first rest]; [congruence|].
  cbn [analyzeFrontendData trends labels values].
  unfold trendValues. rewrite (numericField_none _ Hnone). cbn [truthyField].
  split; [apply trendLabels_spec|].
  split; [reflexivity|].
  split; [reflexivity|].
  now apply randomSeries_bounds.
Qed.

Lemma trend_without_numbers_witness :
  let data := [[("a", VStr "x")]; [("a", VStr "y")]] in
  let random := fun _ : nat => 1 # 2 in
  let t := trends (analyzeFrontendData random data) in
  labels t = map pointLabel (seq 0 (Nat.min 10 (List.length data)))
  /\ values t = map (fun i => Fin (random i * 100)) (seq 0 10)
  /\ List.length (values t) = 10
  /\ Forall (fun v => exists q, v = Fin q /\ (0 <= q /\ q < 100)%Q) (values t).
Proof.
  intros data random.
  apply (trend_without_numbers random data).
  - discriminate.
  - intros i. split; unfold random; [discriminate|reflexivity].
  - intros field row [<-|[]] [<-|[<-|[]]]; reflexivity.
Defined.

(** Claim C9 does not hold of the code when the first field has the empty
    name.  In the row parsed from the CSV lines ",n" and ",5" the first field
    holds the empty string; [find] returns its name, the empty string, which
    the conditional takes for "no field", and the trend is the random series
    instead of zeros. *)
Theorem trend_blank_name_falls_back :
  let data := [[("", VStr ""); ("n", VStr "5")]] in
  let random := fun _ : nat => 1 # 2 in
  (forall row, In row data -> getField row "" = VNull \/ getField row "" = VStr "")
  /\ numericField data = Some ""
  /\ values (trends (analyzeFrontendData random data)) = randomSeries random
  /\ values (trends (analyzeFrontendData random data)) <> [Fin 0].
Proof.
  cbv zeta. split; [intros row [<-|[]]; now right|].
  vm_compute. repeat split. discriminate.
Qed.

(** Apart from the empty name, the code does what C9 says.  null and the
    empty string pass the test "parses as a number"; for every non-empty record
    list whose first field, in the order of the first record's keys, has a name
    that is not empty and holds only null or the empty string, that field is
    the trend field, though later fields may hold numbers; every trend value is
    0, one per record among the first ten, and the random fallback is not
    used. *)
Lemma trend_of_blank_first_field (random : nat -> Q) (data : list record)
  (field : string) (others : list string) :
  fieldsOf data = field :: others ->
  field <> "" ->
  (forall row, In row data ->
     getField row field = VNull \/ getField row field = VStr "") ->
  (parsesAsNumber VNull = true /\ parsesAsNumber (VStr "") = true)
  /\ numericField data = Some field
  /\ truthyField (numericField data) = Some field
  /\ values (trends (analyzeFrontendData random data))
     = repeat (Fin 0) (Nat.min 10 (List.length data)).
Proof.
  intros Hfields Hname Hblank.
  split; [split; reflexivity|].
  destruct data as [|first rest]; [discriminate Hfields|].
  assert (Hfound : numericField (first :: rest) = Some field).
  { unfold numericField. rewrite Hfields. simpl.
    destruct (Hblank first (or_introl eq_refl)) as [E|E];
      unfold hasNumber; simpl; rewrite E; reflexivity. }
  assert (Htruthy : truthyField (numericField (first :: rest)) = Some field).
  { rewrite Hfound. simpl.
    destruct (String.eqb field "") eqn:E; [|reflexivity].
    apply String.eqb_eq in E. contradiction. }
  repeat split; try assumption.
  cbn [analyzeFrontendData trends values].
  unfold trendValues. rewrite Htruthy.
  replace (Nat.min 10 (List.length (first :: rest)))
    with (List.length (slice0 (first :: rest) 10))
    by (now rewrite slice0_length by lia).
  rewrite <- map_const. apply map_ext_in.
  intros row Hrow. unfold slice0 in Hrow. apply In_firstn in Hrow.
  destruct (Hblank row Hrow) as [E|E]; rewrite E; reflexivity.
Qed.

Lemma trend_of_blank_first_field_witness :
  let data := [[("note", VStr ""); ("n", VNum (Fin 5))];
               [("note", VNull); ("n", VNum (Fin 7))]] in
  let random := fun _ : nat => 1 # 2 in
  (parsesAsNumber VNull = true /\ parsesAsNumber (VStr "") = true)
  /\ numericField data = Some "note"
  /\ truthyField (numericField data) = Some "note"
  /\ values (trends (analyzeFrontendData random data))
     = repeat (Fin 0) (Nat.min 10 (List.length data)).
Proof.
  intros data random.
  apply (trend_of_blank_first_field random data "note" ["n"]).
  - reflexivity.
  - discriminate.
  - intros row [<-|[<-|[]]]; [right|left]; reflexivity.
Defined.

(* ================================================================== *)
(** ** The profiler: raw cells in the distribution *)
(* ================================================================== *)

(** *** Sets of raw values *)

Lemma sameValueZero_refl (v : value) : sameValueZero v v = true.
Proof.
  destruct v as [| |b|n|s|m]; simpl; auto.
  - now destruct b.
  - destruct n as [|b|q]; auto; [now destruct b|apply Qeq_bool_refl].
  - apply String.eqb_refl.
  - apply String.eqb_refl.
Qed.

Lemma setAdd_keeps (s : list value) (v u : value) :
  In u s -> In u (setAdd s v).
Proof.
  unfold setAdd. destruct (existsb _ s); [auto|].
  intros H. apply in_or_app. now left.
Qed.

Lemma newSet_keeps (l s : list value) (u : value) :
  In u s -> In u (fold_left setAdd l s).
Proof.
  revert s. induction l as [|x rest IH]; intros s H; simpl; [exact H|].
  apply IH. now apply setAdd_keeps.
Qed.

Lemma newSet_member (l s : list value) (v : value) :
  In v l -> exists u, In u (fold_left setAdd l s) /\ sameValueZero v u = true.
Proof.
  revert s. induction l as [|x rest IH]; intros s H; [contradiction|].
  destruct H as [->|H]; [|now apply IH].
  simpl. unfold setAdd at 2.
  destruct (existsb (sameValueZero v) s) eqn:E.
  - apply existsb_exists in E. destruct E as [u [Hu Hs]].
    exists u. split; [now apply newSet_keeps|exact Hs].
  - exists v. split; [|apply sameValueZero_refl].
    apply newSet_keeps. apply in_or_app. right. now left.
Qed.

(** null and the empty string are members of the set of a column that holds
    them. *)
Lemma newSet_missing (l : list value) (v : value) :
  v = VNull \/ v = VStr "" -> In v l -> In v (newSet l).
Proof.
  intros Hv H. destruct (newSet_member l [] v H) as [u [Hu Hs]].
  unfold newSet. destruct Hv as [-> | ->].
  - destruct u; try discriminate Hs. exact Hu.
  - destruct u as [| | | |s|m]; try discriminate Hs.
    cbn [sameValueZero] in Hs. apply String.eqb_eq in Hs. now subst s.
Qed.

Lemma isCategorical_spec (data : list record) (field : string) :
  isCategorical data field = true ->
  1 < List.length (newSet (column data field))
  /\ 2 * List.length (newSet (column data field)) < List.length data.
Proof.
  unfold isCategorical, Qltb, ofNat. intros H.
  apply andb_prop in H. destruct H as [Hq Hn].
  apply Nat.ltb_lt in Hn. split; [exact Hn|].
  apply negb_true_iff in Hq.
  destruct (Nat.lt_ge_cases (2 * List.length (newSet (column data field)))
                            (List.length data)) as [L|L]; [exact L|].
  exfalso. apply not_true_iff_false in Hq. apply Hq.
  apply Qle_bool_iff. unfold Qle. simpl. lia.
Qed.

Lemma truthyField_some (found : option string) (field : string) :
  truthyField found = Some field -> found = Some field /\ field <> "".
Proof.
  destruct found as [f|]; simpl; [|discriminate].
  destruct (String.eqb f "") eqn:E; [discriminate|].
  intros [= ->]. split; [reflexivity|].
  intros ->. discriminate E.
Qed.

Lemma StronglySorted_app_inv {A : Type} (R : A -> A -> Prop) (l1 l2 : list A) :
  StronglySorted R (l1 ++ l2) ->
  forall x y, In x l1 -> In y l2 -> R x y.
Proof.
  induction l1 as [|a rest IH]; intros H x y Hx Hy; [contradiction|].
  simpl in H. inversion H as [|? ? Hs Hall]; subst.
  destruct Hx as [->|Hx].
  - rewrite Forall_forall in Hall. apply Hall, in_or_app. now right.
  - now apply IH.
Qed.

(** Claim C10, as stated, fails in two ways.  In nineteen rows with nine
    distinct cells, null the rarest, the field is the distribution field and
    null is one of its cells, yet no label "null" is among the eight kept.
    In seven rows holding null once, the text "null" once and "x" five times,
    the label "null" carries the count 2: null shares its label and count with
    the text, and three distinct values make two labels. *)
Lemma distribution_missing_label_fails :
  let rows := map (fun cell => [("c", cell)]) in
  let texts := map VStr in
  let data19 :=
    rows (texts ["a"; "a"; "a"; "b"; "b"; "b"; "d"; "d"; "e"; "e"; "f"; "f";
                 "g"; "g"; "h"; "h"; "i"; "i"] ++ [VNull]) in
  let data7 := rows ([VNull] ++ texts ["null"; "x"; "x"; "x"; "x"; "x"]) in
  let dist data := distribution (analyzeFrontendData (fun _ => 0%Q) data) in
  (truthyField (categoricalField data19) = Some "c"
   /\ In VNull (Stated.valuesOf data19 "c")
   /\ ~ In "null" (labels (dist data19)))
  /\ (truthyField (categoricalField data7) = Some "c"
      /\ List.length (filter (sameValueZero VNull) (Stated.valuesOf data7 "c")) = 1
      /\ List.length (newSet (Stated.valuesOf data7 "c")) = 3
      /\ labels (dist data7) = ["x"; "null"]
      /\ values (dist data7) = [Count 5; Count 2]).
Proof.
  cbv zeta. split.
  - split; [vm_compute; reflexivity|].
    split; [vm_compute; tauto|].
    vm_compute. intros H.
    repeat (destruct H as [H|H]; [discriminate H|]). exact H.
  - vm_compute. repeat split.
Qed.

(** Claim C10, amended.  When a field is taken as the distribution field,
    its eligibility was decided on the set of its raw values, of which null
    and the empty string are members when they occur; every value whose string
    form names no member of [Object.prototype], and so null (under "null") and
    the empty string (under the empty label), has its string form in the sorted
    tally with the number of rows of that string form; the distribution is the
    first 8 entries of that tally, and while no label names a function of
    [Object.prototype] these are the most frequent: no entry left out has a
    higher count than an entry kept; with at most 8 entries every label other
    than [__proto__] appears in the distribution.  The summary's non-missing
    values hold neither null nor the empty string. *)
Theorem distribution_counts_raw_cells (random : nat -> Q) (data : list record)
  (field : string) :
  truthyField (categoricalField data) = Some field ->
  let cells := Stated.valuesOf data field in
  let tallied := sortedEntries data field in
  let rowsOf v := Count (Z.of_nat (occurrences data field (toString v))) in
  let d := distribution (analyzeFrontendData random data) in
  (1 < List.length (newSet cells) /\ 2 * List.length (newSet cells) < List.length data)
  /\ (forall v, v = VNull \/ v = VStr "" -> In v cells -> In v (newSet cells))
  /\ (forall v, In v cells -> memberLabel v = false ->
        In (toString v, rowsOf v) tallied)
  /\ (In VNull cells -> In ("null", rowsOf VNull) tallied)
  /\ (In (VStr "") cells -> In ("", rowsOf (VStr "")) tallied)
  /\ combine (labels d) (values d) = firstn 8 tallied
  /\ (Forall (fun v => functionLabel v = false) cells ->
      forall kept dropped,
        In kept (firstn 8 tallied) -> In dropped (skipn 8 tallied) ->
        exists c c', snd kept = Count c /\ snd dropped = Count c' /\ (c' <= c)%Z)
  /\ (List.length tallied <= 8 ->
      forall v, In v cells -> toString v <> "__proto__" ->
        In (toString v) (labels d))
  /\ (forall v, In v (nonNullValues data field) -> v <> VNull /\ v <> VStr "").
Proof.
  intros Hfield cells tallied rowsOf d.
  destruct (truthyField_some _ _ Hfield) as [Hfound _].
  assert (Hd : d = mkSeries (map fst (firstn 8 tallied))
                            (map snd (firstn 8 tallied))).
  { subst d. destruct data as [|first rest]; [discriminate Hfound|].
    cbn [analyzeFrontendData distribution]. unfold distributionData.
    rewrite Hfield. now rewrite slice0_nonneg by lia. }
  assert (Htally : forall v, In v cells -> memberLabel v = false ->
            In (toString v, rowsOf v) tallied).
  { intros v Hv Hplain. eapply Permutation_in.
    - symmetry. apply sortedEntries_perm.
    - now apply counts_complete. }
  split.
  { apply isCategorical_spec.
    unfold categoricalField in Hfound. now apply find_some in Hfound. }
  split; [intros v Hv Hin; now apply newSet_missing|].
  split; [exact Htally|].
  split; [intros H; now apply (Htally VNull)|].
  split; [intros H; now apply (Htally (VStr ""))|].
  split.
  { rewrite Hd. cbn [labels values].
    generalize (firstn 8 tallied).
    induction l as [|[k c] rest IH]; simpl; [reflexivity|now rewrite IH]. }
  split.
  { intros Hplain kept dropped Hk Hdrop.
    pose proof (sortedEntries_counts_only data field Hplain) as Hcounts.
    pose proof (sortedEntries_sorted data field Hplain) as Hsorted.
    fold tallied in Hcounts, Hsorted.
    rewrite <- (firstn_skipn 8 tallied) in Hsorted.
    pose proof (StronglySorted_app_inv _ _ _ Hsorted kept dropped Hk Hdrop)
      as Hge.
    cbv beta in Hge. rewrite Forall_forall in Hcounts.
    assert (Hk' : isCount (snd kept) = true)
      by (apply Hcounts; eapply In_firstn; eauto).
    assert (Hd' : isCount (snd dropped) = true).
    { apply Hcounts. rewrite <- (firstn_skipn 8 tallied).
      apply in_or_app. now right. }
    destruct (snd kept) as [c|?]; [|discriminate Hk'].
    destruct (snd dropped) as [c'|?]; [|discriminate Hd'].
    exists c, c'. simpl in Hge. repeat split. lia. }
  split.
  { intros Hlen v Hv Hname. rewrite Hd. cbn [labels].
    rewrite firstn_all2 by exact Hlen.
    eapply Permutation_in.
    - apply Permutation_map. symmetry. apply sortedEntries_perm.
    - apply counts_keys. exists v. auto. }
  intros v Hv. unfold nonNullValues in Hv.
  apply filter_In in Hv. destruct Hv as [_ Hv].
  split; intros ->; discriminate Hv.
Qed.

Lemma distribution_counts_raw_cells_witness :
  let data :=
    map (fun cell => [("c", cell)])
        [VNull; VStr ""; VStr "x"; VStr "x"; VStr "x"; VNull; VStr "x"] in
  let d := distribution (analyzeFrontendData (fun _ => 0%Q) data) in
  In ("null", Count 2) (sortedEntries data "c")
  /\ In ("", Count 1) (sortedEntries data "c")
  /\ combine (labels d) (values d) = firstn 8 (sortedEntries data "c").
Proof.
  intros data d.
  pose proof (distribution_counts_raw_cells (fun _ => 0%Q) data "c" eq_refl)
    as [_ [_ [_ [Hnull [Hempty [Hd _]]]]]].
  split; [apply Hnull; simpl; auto|].
  split; [apply Hempty; simpl; auto|exact Hd].
Defined.

(* ================================================================== *)
(** ** The scenarios of the design document, run on the embedding *)
(* ================================================================== *)

(** Tokens and term counts of the two sample documents and of the query. *)
Example vectorize_scenario :
  split_W (toLowerCase "Cat dog") = ["cat"; "dog"]
  /\ vectorize "cat dog" ["cat"; "dog"; "bird"] = [1; 1; 0]%R
  /\ vectorize "dog bird" ["cat"; "dog"; "bird"] = [0; 1; 1]%R
  /\ vectorize "dog" ["cat"; "dog"; "bird"] = [0; 1; 0]%R
  /\ vectorize "" ["cat"; "dog"; "bird"] = [0; 0; 0]%R.
Proof. repeat split. Qed.

Lemma vectorize_length (text : string) (vocabulary : list string) :
  List.length (vectorize text vocabulary) = List.length vocabulary.
Proof. unfold vectorize. apply length_map. Qed.

Lemma norm_query : norm [0; 1; 0]%R = 1%R.
Proof.
  unfold norm. simpl.
  replace (0 + 0 * 0 + 1 * 1 + 0 * 0)%R with 1%R by lra. apply sqrt_1.
Qed.

Lemma norm_document (a : list R) :
  a = [1; 1; 0]%R \/ a = [0; 1; 1]%R -> norm a = sqrt 2.
Proof.
  intros [-> | ->]; unfold norm; simpl; f_equal; lra.
Qed.

Lemma score_against_dog (a : list R) :
  a = [1; 1; 0]%R \/ a = [0; 1; 1]%R ->
  cosineSimilarity [0; 1; 0]%R a = Real (1 / (1 * sqrt 2)).
Proof.
  intros H. unfold cosineSimilarity, bothNorms, divisor.
  rewrite norm_query, (norm_document a H).
  assert (T1 : truthyReal 1 = true) by (apply truthyReal_true; lra).
  assert (T2 : truthyReal (sqrt 2) = true).
  { apply truthyReal_true. intros E. apply sqrt_eq_0 in E; lra. }
  rewrite T1, T2. simpl.
  destruct H as [-> | ->]; simpl; f_equal; f_equal; lra.
Qed.

(** The query "dog" scores both documents 1/sqrt 2; the tie leaves the first
    document first, and [topN = 1] returns it alone. *)
Example ranking_scenario :
  let doc1 := [("text", VStr "cat dog")] in
  let doc2 := [("text", VStr "dog bird")] in
  let search :=
    vectorSearch "dog" [doc1; doc2] [[1; 1; 0]; [0; 1; 1]]%R
                 ["cat"; "dog"; "bird"] in
  search 2%Z = [mkScored (Some doc1) (Real (1 / (1 * sqrt 2)));
                mkScored (Some doc2) (Real (1 / (1 * sqrt 2)))]
  /\ search 1%Z = [mkScored (Some doc1) (Real (1 / (1 * sqrt 2)))]
  /\ search defaultTopN = search 2%Z.
Proof.
  intros doc1 doc2 search. subst search. unfold vectorSearch.
  change (vectorize "dog" ["cat"; "dog"; "bird"]) with [0; 1; 0]%R.
  unfold ranked, scoreAll, mapi. cbn [mapiFrom nth_error].
  rewrite !score_against_dog by auto.
  assert (Htie : forall r1 r2 x,
            byScoreDesc (mkScored r1 (Real x)) (mkScored r2 (Real x)) = false).
  { intros r1 r2 x. unfold byScoreDesc. cbn [score rsub positive].
    destruct (Rlt_dec 0 (x - x)); [lra|reflexivity]. }
  cbn [sort insertSorted]. rewrite Htie.
  repeat split.
Qed.

(** Three records with a numeric and a text field, one cell of each empty. *)
Example profile_scenario :
  let row a b := [("a", VStr a); ("b", VStr b)] in
  let p := analyzeFrontendData (fun _ => 0%Q)
                               [row "1" "x"; row "2" ""; row "" "y"] in
  summary p = mkSummary 3 2 2 [("a", 2)]
  /\ labels (trends p) = ["Data Point 1"; "Data Point 2"; "Data Point 3"]
  /\ values (trends p) = [Fin 1; Fin 2; Fin 0]
  /\ distribution p = fallbackDistribution.
Proof. vm_compute. repeat split. Qed.

(** The empty record list gives the zeroed profile. *)
Example profile_empty (random : nat -> Q) :
  analyzeFrontendData random []
  = mkAnalysisData (mkSummary 0 0 0 []) (mkSeries [] []) (mkSeries [] []) [].
Proof. reflexivity. Qed.

(* ================================================================== *)
(** ** Further properties of the profiler *)
(* ================================================================== *)

Import Measures.




(** Two text fields with two and one distinct non-missing values, beside a
    numeric field that does not count. *)
Example uniqueValues_scenario :
  uniqueValues (summary (analyzeFrontendData (fun _ => 0%Q)
                           [[("n", VStr "1"); ("a", VStr "x"); ("b", VStr "")];
                            [("n", VStr "2"); ("a", VStr "y"); ("b", VStr "u")];
                            [("n", VStr "3"); ("a", VStr "x"); ("b", VNull)]]))
  = 3.
Proof. reflexivity. Qed.

Lemma fold_totalRecords (data : list record) (fields : list string) (s : Summary) :
  totalRecords (fold_left (summarizeField data) fields s) = totalRecords s.
Proof.
  revert s. induction fields as [|f rest IH]; intros s; simpl; [reflexivity|].
  rewrite IH. unfold summarizeField. now destruct (isNumeric data f).
Qed.

Lemma totalRecords_length (random : nat -> Q) (data : list record) :
  totalRecords (summary (analyzeFrontendData random data)) = List.length data.
Proof.
  destruct data as [|first rest]; [reflexivity|].
  unfold analyzeFrontendData. cbn [summary]. now rewrite fold_totalRecords.
Qed.

Lemma numberValues_le (data : list record) (field : string) :
  List.length (numberValues data field) <= List.length (nonNullValues data field)
  /\ List.length (nonNullValues data field) <= List.length data.
Proof.
  unfold numberValues, nonNullValues. split.
  - apply filter_length_le.
  - rewrite <- (column_length data field). apply filter_length_le.
Qed.

(** An entry of [dataTypes] belongs to a field of the first record, counts at
    least one cell and at most [totalRecords] cells. *)
Theorem dataTypes_entry_bounds (random : nat -> Q) (data : list record)
  (field : string) (k : nat) :
  get (dataTypes (summary (analyzeFrontendData random data))) field = Some k ->
  In field (fieldsOf data)
  /\ 1 <= k
  /\ k <= totalRecords (summary (analyzeFrontendData random data)).
Proof.
  rewrite totalRecords_length.
  destruct data as [|first rest]; [discriminate|].
  unfold analyzeFrontendData. cbn [summary].
  rewrite fold_dataTypes. cbn [get dataTypes].
  destruct (existsb (String.eqb field) (fieldsOf (first :: rest))) eqn:E;
    [|discriminate].
  destruct (String.eqb field "__proto__"); [discriminate|].
  destruct (isNumeric (first :: rest) field) eqn:N; [|discriminate].
  cbn [andb negb]. intros [= <-].
  rewrite isNumeric_spec in N. apply Nat.ltb_lt in N.
  destruct (numberValues_le (first :: rest) field) as [H1 H2].
  split; [|lia].
  apply existsb_exists in E. destruct E as [f [Hf Heq]].
  apply String.eqb_eq in Heq. now subst f.
Qed.

Lemma dataTypes_entry_bounds_witness :
  let data := map (fun cell => [("a", VStr cell)]) ["1"; "2"; "x"; "3"; "4"; "5"] in
  let s := summary (analyzeFrontendData (fun _ => 0%Q) data) in
  In "a" (fieldsOf data) /\ 1 <= 5 /\ 5 <= totalRecords s.
Proof.
  intros data s.
  apply (dataTypes_entry_bounds (fun _ => 0%Q) data "a" 5). reflexivity.
Defined.

Lemma orZero_not_NaN (n : number) : isNaN (orZero n) = false.
Proof.
  unfold orZero. destruct n as [|b|q]; simpl; try reflexivity.
  now destruct (Qeq_bool q 0).
Qed.

(** No trend value is NaN, whatever the records hold: a cell that does not
    parse is charted as 0, and the fallback draws are numbers. *)
Theorem trend_values_never_NaN (random : nat -> Q) (data : list record) :
  Forall (fun v => isNaN v = false)
         (values (trends (analyzeFrontendData random data))).
Proof.
  destruct data as [|first rest]; [constructor|].
  cbn [analyzeFrontendData trends values]. unfold trendValues.
  destruct (truthyField (numericField (first :: rest))) as [field|].
  - rewrite Forall_map, Forall_forall. intros row _. apply orZero_not_NaN.
  - unfold randomSeries. rewrite Forall_map, Forall_forall. reflexivity.
Qed.

(** When a trend field is selected, the trend has one value per label, one
    for each of the first ten records. *)
Theorem trend_computed_lengths (random : nat -> Q) (data : list record)
  (field : string) :
  truthyField (numericField data) = Some field ->
  let t := trends (analyzeFrontendData random data) in
  List.length (values t) = List.length (labels t)
  /\ List.length (labels t) = Nat.min 10 (List.length data)
  /\ values t = map (fun row => orZero (Number (getField row field)))
                    (firstn 10 data).
Proof.
  intros H. destruct data as [|first rest]; [discriminate H|].
  cbn [analyzeFrontendData trends values labels]. unfold trendValues.
  rewrite H, trendLabels_spec, !length_map, length_seq.
  rewrite (slice0_nonneg (first :: rest) 10) by lia.
  rewrite length_firstn. repeat split.
Qed.

Lemma trend_computed_lengths_witness :
  let data := [[("n", VStr "7")]; [("n", VStr "x")]; [("n", VNull)]] in
  let t := trends (analyzeFrontendData (fun _ => 0%Q) data) in
  List.length (values t) = List.length (labels t)
  /\ List.length (labels t) = Nat.min 10 (List.length data)
  /\ values t = map (fun row => orZero (Number (getField row "n")))
                    (firstn 10 data).
Proof.
  intros data.
  apply (trend_computed_lengths (fun _ => 0%Q) data "n"). reflexivity.
Defined.

(** *** The tally counts every record once *)

Lemma set_sum (o : object tally) (key : string) (c : Z) :
  sumZ (map (fun e => countOf (snd e)) (set o key (Count c)))
  = (sumZ (map (fun e => countOf (snd e)) o) - countOr0 o key + c)%Z.
Proof.
  unfold countOr0.
  induction o as [|[k w] rest IH]; simpl; [lia|].
  destruct (String.eqb k key) eqn:E; simpl.
  - destruct w; simpl; lia.
  - rewrite IH. lia.
Qed.

Lemma countOr0_nonneg (o : object tally) (key : string) :
  Forall (fun e => (1 <= countOf (snd e))%Z) o -> (0 <= countOr0 o key)%Z.
Proof.
  intros H. unfold countOr0.
  destruct (get o key) as [[c|text]|] eqn:E; try lia.
  apply get_In in E. rewrite Forall_forall in H.
  specialize (H _ E). simpl in H. lia.
Qed.

(** What the tally keeps while it runs over rows whose labels name no member
    of the prototype: distinct keys, counts of at least 1, and a total that
    grows by one per row. *)
Lemma fold_countValue_invariant (field : string) (rows : list record)
  (acc : object tally) :
  Forall (fun row => memberLabel (getField row field) = false) rows ->
  NoDup (map fst acc) ->
  Forall (fun e => isCount (snd e) = true) acc ->
  Forall (fun e => (1 <= countOf (snd e))%Z) acc ->
  let final := fold_left (countValue field) rows acc in
  NoDup (map fst final)
  /\ Forall (fun e => isCount (snd e) = true) final
  /\ Forall (fun e => (1 <= countOf (snd e))%Z) final
  /\ sumZ (map (fun e => countOf (snd e)) final)
     = (sumZ (map (fun e => countOf (snd e)) acc)
        + Z.of_nat (List.length rows))%Z.
Proof.
  intros Hrows. revert acc.
  induction Hrows as [|row rest Hrow Hrest IH]; intros acc Hnd Hcount Hpos;
    cbn zeta.
  - simpl. repeat split; auto. lia.
  - cbn [fold_left].
    rewrite countValue_plain;
      [|exact Hrow|intros t; now apply counts_only_get].
    set (key := toString (getField row field)).
    pose proof (countOr0_nonneg acc key Hpos) as H0.
    destruct (IH (set acc key (Count (countOr0 acc key + 1))))
      as [H1 [H2 [H3 H4]]].
    + now apply set_keys_NoDup.
    + apply set_Forall; [exact Hcount|reflexivity].
    + apply set_Forall; [exact Hpos|]. intros k. simpl. lia.
    + repeat split; auto. rewrite H4, set_sum. cbn [List.length]. lia.
Qed.

Lemma sumZ_perm (l1 l2 : list Z) : Permutation l1 l2 -> sumZ l1 = sumZ l2.
Proof.
  induction 1; simpl; lia.
Qed.

Lemma sumZ_firstn (n : nat) (l : list Z) :
  Forall (fun c => (0 <= c)%Z) l -> (sumZ (firstn n l) <= sumZ l)%Z.
Proof.
  intros H. revert n. induction H as [|c rest Hc Hrest IH]; intros n.
  - rewrite firstn_nil. simpl. lia.
  - destruct n; simpl; [|specialize (IH n); lia].
    assert (0 <= sumZ rest)%Z; [|lia].
    clear IH. induction Hrest; simpl; lia.
Qed.

Lemma NoDup_firstn {A : Type} (n : nat) (l : list A) :
  NoDup l -> NoDup (firstn n l).
Proof.
  intros H. rewrite <- (firstn_skipn n l) in H.
  now apply NoDup_app_remove_r in H.
Qed.

Lemma sortedEntries_facts (data : list record) (field : string) :
  Forall (fun v => memberLabel v = false) (Stated.valuesOf data field) ->
  NoDup (map fst (sortedEntries data field))
  /\ Forall (fun e => isCount (snd e) = true) (sortedEntries data field)
  /\ Forall (fun e => (1 <= countOf (snd e))%Z) (sortedEntries data field)
  /\ sumZ (map (fun e => countOf (snd e)) (sortedEntries data field))
     = Z.of_nat (List.length data).
Proof.
  intros Hplain.
  pose proof (sortedEntries_perm data field) as Hperm.
  assert (Hrows : Forall (fun row => memberLabel (getField row field) = false)
                         data).
  { unfold Stated.valuesOf in Hplain. now rewrite Forall_map in Hplain. }
  destruct (fold_countValue_invariant field data [] Hrows (NoDup_nil _)
              (Forall_nil _) (Forall_nil _)) as [H1 [H2 [H3 H4]]].
  fold (counts data field) in H1, H2, H3, H4. simpl in H4.
  repeat split.
  - eapply Permutation_NoDup; [|exact H1].
    apply Permutation_map. now symmetry.
  - eapply Permutation_Forall; [|exact H2]. now symmetry.
  - eapply Permutation_Forall; [|exact H3]. now symmetry.
  - rewrite <- H4. apply sumZ_perm. now apply Permutation_map.
Qed.

Lemma distributionData_computed (data : list record) (field : string) :
  truthyField (categoricalField data) = Some field ->
  distributionData data
  = mkSeries (map fst (firstn 8 (sortedEntries data field)))
             (map snd (firstn 8 (sortedEntries data field))).
Proof.
  intros H. unfold distributionData. rewrite H.
  now rewrite slice0_nonneg by lia.
Qed.

Lemma distribution_is_distributionData (random : nat -> Q) (data : list record)
  (field : string) :
  truthyField (categoricalField data) = Some field ->
  distribution (analyzeFrontendData random data) = distributionData data.
Proof.
  intros H. destruct data as [|first rest]; [discriminate H|]. reflexivity.
Qed.

(** On the computed path, when no value of the field has the string form of
    the name of a member of [Object.prototype], every record is tallied once:
    the labels of the distribution are distinct, every value is a count of at
    least 1, and the counts add up to at most the number of records, to
    exactly that number when the field has at most 8 distinct labels. *)
Theorem distribution_counts_records (random : nat -> Q) (data : list record)
  (field : string) :
  truthyField (categoricalField data) = Some field ->
  Forall (fun v => memberLabel v = false) (Stated.valuesOf data field) ->
  let d := distribution (analyzeFrontendData random data) in
  NoDup (labels d)
  /\ exists cs,
       values d = map Count cs
       /\ Forall (fun c => (1 <= c)%Z) cs
       /\ (sumZ cs <= Z.of_nat (List.length data))%Z
       /\ (List.length (sortedEntries data field) <= 8 ->
           sumZ cs = Z.of_nat (List.length data)).
Proof.
  intros H Hplain d. subst d.
  rewrite (distribution_is_distributionData random data field H).
  rewrite (distributionData_computed data field H). cbn [labels values].
  destruct (sortedEntries_facts data field Hplain) as [Hnd [Hcount [Hpos Hsum]]].
  split.
  { rewrite <- firstn_map. now apply NoDup_firstn. }
  exists (map (fun e => countOf (snd e)) (firstn 8 (sortedEntries data field))).
  split; [apply counts_only_values; now apply Forall_firstn|].
  rewrite <- firstn_map. repeat split.
  - apply Forall_firstn. now rewrite Forall_map.
  - rewrite <- Hsum. apply sumZ_firstn. rewrite Forall_map.
    eapply Forall_impl; [|exact Hpos]. simpl. intros; lia.
  - intros Hlen. rewrite firstn_all2 by now rewrite length_map. exact Hsum.
Qed.

Lemma distribution_counts_records_witness :
  let data :=
    map (fun cell => [("c", cell)])
        [VStr "x"; VStr "y"; VStr "x"; VNull; VStr "x"; VStr "y"; VStr "x"] in
  let d := distribution (analyzeFrontendData (fun _ => 0%Q) data) in
  NoDup (labels d)
  /\ exists cs,
       values d = map Count cs
       /\ Forall (fun c => (1 <= c)%Z) cs
       /\ (sumZ cs <= Z.of_nat (List.length data))%Z
       /\ (List.length (sortedEntries data "c") <= 8 ->
           sumZ cs = Z.of_nat (List.length data)).
Proof.
  intros data.
  apply (distribution_counts_records (fun _ => 0%Q) data "c").
  - reflexivity.
  - repeat constructor.
Defined.

(* ================================================================== *)
(** ** The chat handler keeps the conversation *)
(* ================================================================== *)

(** A call of [handleSendMessage] never drops or rewrites an earlier message.
    A blank input changes nothing; any other input is appended as the user's
    message, followed by exactly one reply that is not the user's, and the
    input box is cleared. *)
Theorem handleSendMessage_appends (session : Session) (st : State)
  (remote : Outcome) :
  let st' := handleSendMessage session st remote in
  (trim (inputValue st) = "" /\ st' = st)
  \/ (trim (inputValue st) <> ""
      /\ exists reply,
           messages st' = messages st ++ [mkMessage (inputValue st) true []; reply]
           /\ isUser reply = false
           /\ inputValue st' = ""
           /\ isTyping st' = false).
Proof.
  cbv zeta. unfold handleSendMessage.
  destruct (String.eqb (trim (inputValue st)) "") eqn:E.
  - left. apply String.eqb_eq in E. now split.
  - right. split; [intros H; rewrite H in E; discriminate E|].
    destruct remote as [data|why].
    + exists (replyTo session data). rewrite <- app_assoc. repeat split.
      destruct data as [[text|] vr|texts]; simpl; [|reflexivity|reflexivity].
      now destruct (String.eqb text "").
    + exists (mkMessage errorText false []). rewrite <- app_assoc.
      repeat split.
Qed.

(* ================================================================== *)
(** ** The tokenizer and the vocabulary *)
(* ================================================================== *)

Import Vocabulary.

Lemma lowerChar_isWordChar (c : ascii) : isWordChar (lowerChar c) = isWordChar c.
Proof. destruct c as [[] [] [] [] [] [] [] []]; reflexivity. Qed.

Lemma lowerChar_isTokenChar (c : ascii) :
  isWordChar c = true -> isTokenChar (lowerChar c) = true.
Proof. destruct c as [[] [] [] [] [] [] [] []]; intros H; try reflexivity; discriminate H. Qed.

Lemma isTokenChar_lower (c : ascii) :
  isTokenChar c = true -> isWordChar c = true /\ lowerChar c = c.
Proof.
  destruct c as [[] [] [] [] [] [] [] []]; intros H;
    try discriminate H; split; reflexivity.
Qed.

Lemma chars_unchars (l : list ascii) : chars (unchars l) = l.
Proof. apply list_ascii_of_string_of_list_ascii. Qed.

Lemma unchars_chars (s : string) : unchars (chars s) = s.
Proof. apply string_of_list_ascii_of_string. Qed.

Lemma toLowerCase_chars (s : string) : chars (toLowerCase s) = map lowerChar (chars s).
Proof. unfold toLowerCase. apply chars_unchars. Qed.

Lemma toLowerCase_empty (s : string) : String.eqb (toLowerCase s) "" = String.eqb s "".
Proof. destruct s; reflexivity. Qed.

(** A token holds digits, lower-case letters and underscores only. *)
Lemma splitNonWord_tokenChars (l piece : list ascii) (inRun : bool) :
  Forall (fun c => isTokenChar c = true) piece ->
  Forall (fun token => Forall (fun c => isTokenChar c = true) (chars token))
         (splitNonWord (map lowerChar l) piece inRun).
Proof.
  revert piece inRun. induction l as [|c rest IH]; intros piece inRun Hp; simpl.
  - repeat constructor. rewrite chars_unchars. now apply Forall_rev.
  - rewrite lowerChar_isWordChar. destruct (isWordChar c) eqn:E.
    + apply IH. constructor; [now apply lowerChar_isTokenChar|exact Hp].
    + destruct inRun; [now apply IH|].
      constructor; [|apply IH; constructor].
      rewrite chars_unchars. now apply Forall_rev.
Qed.

Lemma split_W_tokenChars (text : string) :
  Forall (fun token => Forall (fun c => isTokenChar c = true) (chars token))
         (split_W (toLowerCase text)).
Proof.
  unfold split_W. rewrite toLowerCase_chars.
  apply splitNonWord_tokenChars. constructor.
Qed.

Lemma addWord_In (vocabSet : list string) (word w : string) :
  In w (addWord vocabSet word) <-> In w vocabSet \/ w = word.
Proof.
  unfold addWord. destruct (existsb (String.eqb word) vocabSet) eqn:E.
  - split; [auto|]. intros [H| ->]; [exact H|].
    apply existsb_exists in E. destruct E as [x [Hx Hw]].
    apply String.eqb_eq in Hw. now subst x.
  - rewrite in_app_iff. simpl. intuition.
Qed.

Lemma addWord_NoDup (vocabSet : list string) (word : string) :
  NoDup vocabSet -> NoDup (addWord vocabSet word).
Proof.
  intros H. unfold addWord.
  destruct (existsb (String.eqb word) vocabSet) eqn:E; [exact H|].
  apply NoDup_app; [exact H|repeat constructor; auto|].
  intros w Hw [Heq|[]]. subst w.
  assert (existsb (String.eqb word) vocabSet = true); [|congruence].
  apply existsb_exists. exists word. split; [exact Hw|apply String.eqb_refl].
Qed.

Lemma addToken_In (vocabSet : list string) (token w : string) :
  In w (addToken vocabSet token) <-> In w vocabSet \/ (w = token /\ token <> "").
Proof.
  unfold addToken. destruct (String.eqb token "") eqn:E.
  - apply String.eqb_eq in E. intuition.
  - rewrite addWord_In. apply String.eqb_neq in E. intuition.
Qed.

Lemma fold_addToken_In (tokens vocabSet : list string) (w : string) :
  In w (fold_left addToken tokens vocabSet)
  <-> In w vocabSet \/ (In w tokens /\ w <> "").
Proof.
  revert vocabSet. induction tokens as [|t rest IH]; intros vocabSet; simpl.
  - intuition.
  - rewrite IH, addToken_In. split.
    + intros [[H|[-> H]]|[H H']]; auto.
    + intros [H|[[-> |H] H']]; auto.
Qed.

Lemma fold_addToken_NoDup (tokens vocabSet : list string) :
  NoDup vocabSet -> NoDup (fold_left addToken tokens vocabSet).
Proof.
  revert vocabSet. induction tokens as [|t rest IH]; intros vocabSet H; simpl.
  - exact H.
  - apply IH. unfold addToken.
    destruct (String.eqb t ""); [exact H|now apply addWord_NoDup].
Qed.

Lemma wordsOf_In (text w : string) :
  In w (wordsOf text) <-> In w (split_W (toLowerCase text)) /\ w <> "".
Proof.
  unfold wordsOf. rewrite filter_In, negb_true_iff.
  split; intros [H1 H2]; split; auto.
  - now apply String.eqb_neq.
  - now apply String.eqb_neq.
Qed.

Lemma fold_texts_In (texts vocabSet : list string) (w : string) :
  In w (fold_left (fun set text =>
                     fold_left addToken (split_W (toLowerCase text)) set)
                  texts vocabSet)
  <-> In w vocabSet \/ exists text, In text texts /\ In w (wordsOf text).
Proof.
  revert vocabSet. induction texts as [|t rest IH]; intros vocabSet; simpl.
  - split; [auto|]. intros [H|[text [[] _]]]. exact H.
  - rewrite IH, fold_addToken_In. split.
    + intros [[H|H]|[text [H1 H2]]]; auto.
      * right. exists t. split; [now left|now apply wordsOf_In].
      * right. exists text. split; [now right|exact H2].
    + intros [H|[text [[-> |H1] H2]]]; auto.
      * left. right. now apply wordsOf_In.
      * right. exists text. now split.
Qed.

Lemma buildVocabulary_In (texts : list string) (w : string) :
  In w (buildVocabulary texts)
  <-> exists text, In text texts /\ In w (wordsOf text).
Proof.
  unfold buildVocabulary. rewrite fold_texts_In. simpl. intuition.
Qed.

Lemma buildVocabulary_NoDup (texts : list string) : NoDup (buildVocabulary texts).
Proof.
  unfold buildVocabulary. generalize (NoDup_nil string).
  generalize (@nil string).
  induction texts as [|t rest IH]; intros vocabSet H; simpl; [exact H|].
  apply IH. now apply fold_addToken_NoDup.
Qed.

Lemma buildVocabulary_nonempty (texts : list string) (w : string) :
  In w (buildVocabulary texts) -> w <> "".
Proof.
  intros Hw. apply buildVocabulary_In in Hw. destruct Hw as [text [_ Hw]].
  now apply wordsOf_In in Hw.
Qed.

(** The vocabulary is exactly the set of non-empty tokens of the texts:
    every word appears once, is a non-empty token of some text, and every such
    token is a word; a word holds only digits, lower-case letters and
    underscores. *)
Theorem buildVocabulary_words (texts : list string) :
  NoDup (buildVocabulary texts)
  /\ (forall w, In w (buildVocabulary texts)
                <-> exists text, In text texts /\ In w (wordsOf text))
  /\ Forall (fun w => w <> ""
                      /\ Forall (fun c => isTokenChar c = true) (chars w))
            (buildVocabulary texts).
Proof.
  split; [apply buildVocabulary_NoDup|].
  split; [intros w; apply buildVocabulary_In|].
  rewrite Forall_forall. intros w Hw.
  split; [now apply buildVocabulary_nonempty in Hw|].
  apply buildVocabulary_In in Hw. destruct Hw as [text [_ Hw]].
  apply wordsOf_In in Hw. destruct Hw as [Hw _].
  pose proof (split_W_tokenChars text) as H.
  rewrite Forall_forall in H. now apply H.
Qed.

Lemma fold_left_map {A B C : Type} (f : C -> B -> C) (g : A -> B) (l : list A) (x : C) :
  fold_left f (map g l) x = fold_left (fun acc a => f acc (g a)) l x.
Proof.
  revert x. induction l as [|a rest IH]; intros x; simpl; [reflexivity|].
  apply IH.
Qed.

Lemma fold_left_ext {A B : Type} (f g : B -> A -> B) (l : list A) (x : B) :
  (forall acc a, f acc a = g acc a) -> fold_left f l x = fold_left g l x.
Proof.
  intros H. revert x. induction l as [|a rest IH]; intros x; simpl; [reflexivity|].
  rewrite H. apply IH.
Qed.

(* ================================================================== *)
(** ** The vectorizer *)
(* ================================================================== *)

Import VectorAlgebra.

(** [tokens.filter(t => t === word).length]. *)
Lemma vectorize_nth (text : string) (vocabulary : list string) (i : nat) :
  nth_error (vectorize text vocabulary) i
  = option_map
      (fun word =>
         INR (List.length (filter (fun t => String.eqb t word)
                                  (split_W (toLowerCase text)))))
      (nth_error vocabulary i).
Proof. unfold vectorize. apply nth_error_map. Qed.

Lemma filter_none {A : Type} (f : A -> bool) (l : list A) :
  (forall x, In x l -> f x = false) -> filter f l = [].
Proof.
  induction l as [|x rest IH]; intros H; simpl; [reflexivity|].
  rewrite (H x (or_introl eq_refl)). apply IH.
  intros y Hy. apply H. now right.
Qed.

(** A vocabulary word that holds an upper-case letter, or any character
    that is not a digit, a lower-case letter or the underscore, matches no
    token: its entry is 0 in the vector of every text. *)
Theorem vectorize_foreign_word (text : string) (vocabulary : list string)
  (i : nat) (word : string) :
  nth_error vocabulary i = Some word ->
  (exists c, In c (chars word) /\ isTokenChar c = false) ->
  nth_error (vectorize text vocabulary) i = Some 0%R.
Proof.
  intros Hword [c [Hc Hbad]]. rewrite vectorize_nth, Hword. simpl.
  rewrite filter_none; [reflexivity|].
  intros t Ht. apply String.eqb_neq. intros ->.
  pose proof (split_W_tokenChars text) as H.
  rewrite Forall_forall in H. specialize (H word Ht).
  rewrite Forall_forall in H. specialize (H c Hc). congruence.
Qed.

Lemma vectorize_foreign_word_witness :
  nth_error (vectorize "Dog dog DOG" ["dog"; "Dog"]) 1 = Some 0%R.
Proof.
  apply (vectorize_foreign_word "Dog dog DOG" ["dog"; "Dog"] 1 "Dog").
  - reflexivity.
  - exists "D"%char. split; [now left|reflexivity].
Defined.

(** The empty text splits into one empty token: every non-empty vocabulary
    word gets 0, and an empty word in the vocabulary gets 1. *)
Theorem vectorize_empty_text (vocabulary : list string) :
  vectorize "" vocabulary
  = map (fun word => if String.eqb word "" then 1%R else 0%R) vocabulary.
Proof.
  unfold vectorize. apply map_ext. intros word.
  change (split_W (toLowerCase "")) with [""]. cbn [filter].
  rewrite (String.eqb_sym "" word).
  now destruct (String.eqb word "").
Qed.

Lemma sumR_INR (l : list nat) : sumR (map INR l) = INR (list_sum l).
Proof.
  induction l as [|n rest IH]; simpl; [reflexivity|].
  now rewrite plus_INR, IH.
Qed.

Lemma list_sum_indicator (t : string) (l : list string) :
  NoDup l ->
  list_sum (map (fun w => if String.eqb t w then 1 else 0) l)
  = if existsb (String.eqb t) l then 1 else 0.
Proof.
  induction 1 as [|w rest Hw Hrest IH]; simpl; [reflexivity|].
  rewrite IH. destruct (String.eqb t w) eqn:E; simpl; [|reflexivity].
  apply String.eqb_eq in E. subst w.
  destruct (existsb (String.eqb t) rest) eqn:E'; [|reflexivity].
  apply existsb_exists in E'. destruct E' as [x [Hx Heq]].
  apply String.eqb_eq in Heq. subst x. contradiction.
Qed.

Lemma list_sum_map_add {A : Type} (f g : A -> nat) (l : list A) :
  list_sum (map (fun x => f x + g x) l)
  = list_sum (map f l) + list_sum (map g l).
Proof.
  induction l as [|x rest IH]; simpl; [reflexivity|]. rewrite IH. lia.
Qed.

(** Over a vocabulary without repeats, the counts add up to the number of
    tokens that are vocabulary words. *)
Lemma count_total (tokens vocabulary : list string) :
  NoDup vocabulary ->
  list_sum (map (fun word =>
                   List.length (filter (fun t => String.eqb t word) tokens))
                vocabulary)
  = List.length (filter (fun t => existsb (String.eqb t) vocabulary) tokens).
Proof.
  intros Hnd. induction tokens as [|t rest IH]; simpl.
  - induction vocabulary; simpl; auto. apply IHvocabulary.
    now inversion Hnd.
  - rewrite (map_ext _ (fun word =>
               (if String.eqb t word then 1 else 0)
               + List.length (filter (fun t0 => String.eqb t0 word) rest))).
    + rewrite list_sum_map_add, IH, list_sum_indicator by exact Hnd.
      now destruct (existsb (String.eqb t) vocabulary).
    + intros word. now destruct (String.eqb t word).
Qed.

(** Against the vocabulary built from a corpus, the entries of a text's
    vector add up to the number of its tokens that are vocabulary words:
    other tokens are ignored, repeated ones are counted each time.  For a text
    of the corpus that is the number of its non-empty tokens. *)
Theorem vectorize_total (texts : list string) (text : string) :
  let vocabulary := buildVocabulary texts in
  sumR (vectorize text vocabulary)
  = INR (List.length (filter (fun t => existsb (String.eqb t) vocabulary)
                             (split_W (toLowerCase text))))
  /\ (In text texts ->
      sumR (vectorize text vocabulary) = INR (List.length (wordsOf text))).
Proof.
  intros vocabulary.
  assert (Hsum : sumR (vectorize text vocabulary)
                 = INR (List.length
                          (filter (fun t => existsb (String.eqb t) vocabulary)
                                  (split_W (toLowerCase text))))).
  { unfold vectorize.
    rewrite <- (map_map
                  (fun word => List.length
                                 (filter (fun t => String.eqb t word)
                                         (split_W (toLowerCase text))))
                  INR).
    rewrite sumR_INR. f_equal. apply count_total, buildVocabulary_NoDup. }
  split; [exact Hsum|].
  intros Hin. rewrite Hsum. f_equal. unfold wordsOf. f_equal.
  apply filter_ext_in. intros t Ht.
  destruct (String.eqb t "") eqn:E; simpl.
  - apply String.eqb_eq in E. subst t.
    destruct (existsb (String.eqb "") vocabulary) eqn:E'; [|reflexivity].
    apply existsb_exists in E'. destruct E' as [x [Hx Heq]].
    apply String.eqb_eq in Heq. subst x.
    now apply buildVocabulary_nonempty in Hx.
  - apply existsb_exists. exists t. split; [|apply String.eqb_refl].
    apply buildVocabulary_In. exists text. split; [exact Hin|].
    apply wordsOf_In. split; [exact Ht|now apply String.eqb_neq].
Qed.

(* ================================================================== *)
(** ** The cosine similarity *)
(* ================================================================== *)



Lemma dotR_comm (a b : list R) : dotR a b = dotR b a.
Proof.
  unfold dotR. revert b. induction a as [|x rest IH]; intros [|y b']; simpl;
    try reflexivity.
  rewrite IH. lra.
Qed.

(** The loop of the dot product reads [b] up to the length of [a]: within
    [b] it adds the products, past its end it turns NaN. *)
Lemma dotFrom_within (a b : list R) (i : nat) (x : R) :
  i + List.length a <= List.length b ->
  dotFrom a b i (Real x) = Real (x + dotR a (skipn i b)).
Proof.
  unfold dotR. revert i x. induction a as [|ai rest IH]; intros i x Hlen.
  - simpl. f_equal. lra.
  - simpl in Hlen. cbn [dotFrom]. unfold timesAt.
    destruct (nth_error b i) as [bi|] eqn:E.
    + cbn [radd]. rewrite IH by lia.
      assert (Hskip : skipn i b = bi :: skipn (S i) b).
      { clear - E. revert i E. induction b as [|y b' IHb]; intros [|i] E;
          try discriminate E.
        - injection E as ->. reflexivity.
        - simpl in E. apply IHb in E. exact E. }
      rewrite Hskip. simpl. f_equal. lra.
    + apply nth_error_None in E. lia.
Qed.



Lemma cosineSimilarity_value (a b : list R) :
  List.length a <= List.length b ->
  cosineSimilarity a b
  = if bothNorms a b then Real ((0 + dotR a b) / (norm a * norm b))
    else Real 0.
Proof.
  intros Hlen. unfold cosineSimilarity, divisor.
  rewrite dotFrom_within by lia. reflexivity.
Qed.



(** The similarity of two vectors of one length does not depend on their
    order. *)
Theorem cosineSimilarity_sym (a b : list R) :
  List.length a = List.length b ->
  cosineSimilarity a b = cosineSimilarity b a.
Proof.
  intros H. rewrite !cosineSimilarity_value by lia.
  unfold bothNorms. rewrite (andb_comm (truthyReal (norm a))).
  destruct (truthyReal (norm b) && truthyReal (norm a)); [|reflexivity].
  rewrite (dotR_comm a b), (Rmult_comm (norm a)). reflexivity.
Qed.

Lemma cosineSimilarity_sym_witness :
  cosineSimilarity [1; 0; 2]%R [0; 3; 1]%R = cosineSimilarity [0; 3; 1]%R [1; 0; 2]%R.
Proof. apply cosineSimilarity_sym. reflexivity. Defined.







(* ================================================================== *)
(** ** The ranking keeps the best *)
(* ================================================================== *)


(** Whatever [topN], when no similarity score is NaN the entries left out of
    a ranking, together with the entries returned, are all the scored vectors,
    and no entry left out has a higher score than an entry returned; for a
    [topN] that is not negative the entries returned are [topN] of them, or
    all. *)
Theorem ranked_keeps_best (queryVec : list PrimFloat.float)
  (dataRows : list record) (vectors : list (list PrimFloat.float)) (topN : Z) :
  Forall Binary64.numeric (Binary64.scoreAll queryVec dataRows vectors) ->
  let scored := Binary64.scoreAll queryVec dataRows vectors in
  let result := Binary64.ranked queryVec dataRows vectors topN in
  exists omitted : list Binary64.Scored,
    Permutation (result ++ omitted) scored
    /\ (forall r s, In r result -> In s omitted ->
          (Binary64.score s <=? Binary64.score r)%float = true)
    /\ ((0 <= topN)%Z ->
        List.length result = Nat.min (Z.to_nat topN) (List.length vectors)).
Proof.
  intros Hnum scored result. subst result. unfold Binary64.ranked. fold scored.
  fold scored in Hnum.
  assert (Hlen : (0 <= topN)%Z ->
            List.length (slice0 (sort Binary64.byScoreDesc scored) topN)
            = Nat.min (Z.to_nat topN) (List.length vectors)).
  { intros H. rewrite slice0_length by exact H.
    rewrite sort_length. subst scored.
    now rewrite binary64_scoreAll_length. }
  revert Hlen. unfold slice0.
  set (n := Z.to_nat _).
  set (sorted := sort Binary64.byScoreDesc scored). intros Hlen.
  exists (skipn n sorted). split; [|split; [|exact Hlen]].
  - rewrite firstn_skipn. apply sort_perm.
  - intros r s Hr Hs.
    assert (Hsorted : StronglySorted (fun x y => Binary64.byScoreDesc x y = false)
                                     (firstn n sorted ++ skipn n sorted)).
    { rewrite firstn_skipn.
      apply sort_StronglySorted with (ok := Binary64.numeric).
      - exact byScoreDesc_asym.
      - exact byScoreDesc_cotrans.
      - exact Hnum. }
    pose proof (StronglySorted_app_inv _ _ _ Hsorted r s Hr Hs) as Hrs.
    cbv beta in Hrs.
    assert (Hin : forall e, In e sorted -> Binary64.numeric e).
    { intros e He. rewrite Forall_forall in Hnum. apply Hnum.
      eapply Permutation_in; [apply sort_perm|exact He]. }
    assert (Nr : Binary64.numeric r) by (apply Hin; eapply In_firstn; eauto).
    assert (Ns : Binary64.numeric s).
    { apply Hin. rewrite <- (firstn_skipn n sorted). apply in_or_app. now right. }
    rewrite byScoreDesc_place in Hrs by assumption. apply Z.ltb_ge in Hrs.
    rewrite leb_place by assumption. now apply Z.leb_le.
Qed.

Lemma ranked_keeps_best_witness :
  let queryVec := Binary64.counts [0; 1; 0] in
  let vectors := map Binary64.counts [[1; 0; 0]; [0; 1; 1]; [0; 2; 0]] in
  let scored := Binary64.scoreAll queryVec [] vectors in
  let result := Binary64.ranked queryVec [] vectors 2 in
  exists omitted : list Binary64.Scored,
    Permutation (result ++ omitted) scored
    /\ (forall r s, In r result -> In s omitted ->
          (Binary64.score s <=? Binary64.score r)%float = true)
    /\ ((0 <= 2)%Z -> List.length result = 2).
Proof.
  intros queryVec vectors.
  apply (ranked_keeps_best queryVec [] vectors 2).
  repeat constructor; vm_compute; reflexivity.
Defined.

(* ================================================================== *)
(** ** The local index *)
(* ================================================================== *)

Lemma asTexts_some (cells : list value) (texts : list string) :
  Indexer.asTexts cells = Some texts <-> cells = map VStr texts.
Proof.
  revert texts. induction cells as [|v rest IH]; intros texts; simpl.
  - split; [intros [= <-]; reflexivity|].
    destruct texts; [reflexivity|discriminate].
  - destruct v as [| |b|n|s|m];
      try (split; [discriminate|destruct texts; discriminate]).
    destruct (Indexer.asTexts rest) as [ts|] eqn:E.
    + split.
      * intros [= <-]. simpl. f_equal. now apply IH.
      * destruct texts as [|t texts']; [discriminate|].
        intros [= -> H]. apply IH in H. congruence.
    + split; [discriminate|].
      destruct texts as [|t texts']; [discriminate|].
      intros [= -> H]. apply IH in H. discriminate H.
Qed.

Lemma asTexts_none (cells : list value) :
  Indexer.asTexts cells = None
  <-> exists v, In v cells /\ Indexer.isString v = false.
Proof.
  induction cells as [|v rest IH]; simpl.
  - split; [discriminate|]. intros [v [[] _]].
  - destruct v as [| |b|n|s|m];
      try (split; [intros _; eexists; split; [left; reflexivity|reflexivity]
                  |reflexivity]).
    destruct (Indexer.asTexts rest) as [ts|] eqn:E.
    + split; [discriminate|].
      intros [v [[<-|Hv] Hs]]; [discriminate Hs|].
      assert (None = @None (list string)) as _ by reflexivity.
      destruct IH as [_ IH]. discriminate IH. now exists v.
    + split; [|reflexivity]. intros _.
      destruct IH as [IH _]. destruct (IH eq_refl) as [v [Hv Hs]].
      exists v. split; [now right|exact Hs].
Qed.

(** A run that builds the index leaves one vector per row, each of the
    dimension of the vocabulary, so that the vector of every query is as long
    as every indexed vector; the vocabulary and the vectors come from the
    cells of one field with a non-empty name, all of them strings, through the
    component's own builder; and a second run changes nothing. *)
Theorem vectorizeDataset_index (dataRows : list record) (st index : Indexer.Index) :
  Indexer.vectorizeDataset dataRows st = Indexer.Indexed index ->
  Indexer.vectorized index = true
  /\ List.length (Indexer.vectors index) = List.length dataRows
  /\ Forall (fun vec => List.length vec = List.length (Indexer.vocabulary index))
            (Indexer.vectors index)
  /\ (forall query,
        Forall (fun vec => List.length (vectorize query (Indexer.vocabulary index))
                           = List.length vec)
               (Indexer.vectors index))
  /\ (exists field texts,
        Indexer.vectorField index = Some field /\ field <> ""
        /\ map (fun row => getField row field) dataRows = map VStr texts
        /\ Indexer.vocabulary index = buildVocabularyLocal texts
        /\ Indexer.vectors index
           = map (fun text => vectorize text (buildVocabularyLocal texts)) texts)
  /\ Indexer.vectorizeDataset dataRows index = Indexer.Unchanged.
Proof.
  unfold Indexer.vectorizeDataset.
  destruct dataRows as [|sample rest]; [discriminate|].
  destruct (Indexer.vectorized st); [discriminate|].
  destruct (truthyField (Indexer.textFieldOf sample)) as [field|] eqn:F;
    [|discriminate].
  destruct (Indexer.asTexts _) as [texts|] eqn:T; [|discriminate].
  intros [= <-]. cbn [Indexer.vectorized Indexer.vectors Indexer.vocabulary
                      Indexer.vectorField].
  apply asTexts_some in T.
  assert (Hlen : List.length texts = List.length (sample :: rest)).
  { apply (f_equal (@List.length value)) in T.
    now rewrite !length_map in T. }
  repeat split.
  - now rewrite length_map.
  - rewrite Forall_map, Forall_forall. intros text _. apply vectorize_length.
  - intros query. rewrite Forall_map, Forall_forall. intros text _.
    now rewrite !vectorize_length.
  - exists field, texts. apply truthyField_some in F.
    destruct F as [_ Hne]. repeat split; auto.
Qed.

Lemma vectorizeDataset_index_witness :
  let dataRows := [[("id", VNum (Fin 1)); ("text", VStr "Cat dog")];
                   [("id", VNum (Fin 2)); ("text", VStr "dog BIRD")]] in
  let st := Indexer.mkIndex [] [] false None in
  let index :=
    Indexer.mkIndex ["cat"; "dog"; "bird"] [[1; 1; 0]; [0; 1; 1]]%R true
                    (Some "text") in
  Indexer.vectorized index = true
  /\ List.length (Indexer.vectors index) = List.length dataRows
  /\ Forall (fun vec => List.length vec = List.length (Indexer.vocabulary index))
            (Indexer.vectors index)
  /\ (forall query,
        Forall (fun vec => List.length (vectorize query (Indexer.vocabulary index))
                           = List.length vec)
               (Indexer.vectors index))
  /\ (exists field texts,
        Indexer.vectorField index = Some field /\ field <> ""
        /\ map (fun row => getField row field) dataRows = map VStr texts
        /\ Indexer.vocabulary index = buildVocabularyLocal texts
        /\ Indexer.vectors index
           = map (fun text => vectorize text (buildVocabularyLocal texts)) texts)
  /\ Indexer.vectorizeDataset dataRows index = Indexer.Unchanged.
Proof.
  intros dataRows st index.
  apply (vectorizeDataset_index dataRows st index). reflexivity.
Defined.

(** The effect raises a TypeError exactly when the index is not built yet,
    the first row has a string cell under a non-empty name, and some row holds
    no string in the first such field: a missing cell, null or a number. *)
Theorem vectorizeDataset_throws (dataRows : list record) (st : Indexer.Index) :
  Indexer.vectorizeDataset dataRows st = Indexer.Threw
  <-> Indexer.vectorized st = false
      /\ exists sample field row,
           hd_error dataRows = Some sample
           /\ truthyField (Indexer.textFieldOf sample) = Some field
           /\ In row dataRows
           /\ Indexer.isString (getField row field) = false.
Proof.
  unfold Indexer.vectorizeDataset.
  destruct dataRows as [|sample rest].
  - split; [discriminate|]. intros [_ [s [f [r [H _]]]]]. discriminate H.
  - destruct (Indexer.vectorized st).
    + split; [discriminate|]. intros [H _]. discriminate H.
    + destruct (truthyField (Indexer.textFieldOf sample)) as [field|] eqn:F.
      * destruct (Indexer.asTexts _) as [texts|] eqn:T.
        -- split; [discriminate|].
           intros [_ [s [f [row [Hs [Hf [Hrow Hstr]]]]]]].
           injection Hs as <-. rewrite F in Hf. injection Hf as <-.
           apply asTexts_some in T.
           assert (Hin : In (getField row field) (map VStr texts)).
           { rewrite <- T. apply in_map_iff. now exists row. }
           apply in_map_iff in Hin. destruct Hin as [t [Ht _]].
           rewrite <- Ht in Hstr. discriminate Hstr.
        -- split; [|reflexivity]. intros _. split; [reflexivity|].
           apply asTexts_none in T. destruct T as [v [Hv Hs]].
           apply in_map_iff in Hv. destruct Hv as [row [<- Hrow]].
           exists sample, field, row. repeat split; auto.
      * split; [discriminate|].
        intros [_ [s [f [row [Hs [Hf _]]]]]].
        injection Hs as <-. rewrite F in Hf. discriminate Hf.
Qed.

(* ================================================================== *)
(** ** The CSV reader *)
(* ================================================================== *)

Lemma map_insertSorted {A B : Type} (f : A -> B) (after : A -> A -> bool)
  (after' : B -> B -> bool) (x : A) (l : list A) :
  (forall a b, after a b = after' (f a) (f b)) ->
  map f (insertSorted after x l) = insertSorted after' (f x) (map f l).
Proof.
  intros H. induction l as [|y rest IH]; simpl; [reflexivity|].
  rewrite <- H. destruct (after x y); simpl; [now rewrite IH|reflexivity].
Qed.

Lemma map_sort {A B : Type} (f : A -> B) (after : A -> A -> bool)
  (after' : B -> B -> bool) (l : list A) :
  (forall a b, after a b = after' (f a) (f b)) ->
  map f (sort after l) = sort after' (map f l).
Proof.
  intros H. induction l as [|x rest IH]; simpl; [reflexivity|].
  rewrite (map_insertSorted f after after') by exact H. now rewrite IH.
Qed.

Lemma map_filter_fst {A : Type} (p : string -> bool) (o : object A) :
  map fst (filter (fun e => p (fst e)) o) = filter p (map fst o).
Proof.
  induction o as [|[k v] rest IH]; simpl; [reflexivity|].
  destruct (p k); simpl; now rewrite IH.
Qed.

(** The keys of [Object.entries] depend on the keys alone. *)
Lemma entries_keys {A : Type} (o : object A) :
  map fst (entries o) = Upload.keyOrder (map fst o).
Proof.
  unfold entries, Upload.keyOrder. rewrite map_app. f_equal.
  - rewrite (map_sort fst _ (fun a b => (indexOf b <? indexOf a)%Z))
      by reflexivity.
    f_equal. apply (map_filter_fst isArrayIndex).
  - apply (map_filter_fst (fun k => negb (isArrayIndex k))).
Qed.

Lemma keyOrder_perm (ks : list string) : Permutation (Upload.keyOrder ks) ks.
Proof.
  unfold Upload.keyOrder. rewrite sort_perm. apply filter_split_perm.
Qed.

Lemma set_keys_addWord {A : Type} (o : object A) (key : string) (v : A) :
  map fst (set o key v) = addWord (map fst o) key.
Proof. rewrite set_keys. reflexivity. Qed.

Lemma fold_set_keys {A : Type} (pairs : list (string * A)) (o : object A) :
  map fst (fold_left (fun acc p => set acc (fst p) (snd p)) pairs o)
  = fold_left addWord (map fst pairs) (map fst o).
Proof.
  revert o. induction pairs as [|[k v] rest IH]; intros o; simpl; [reflexivity|].
  now rewrite IH, set_keys_addWord.
Qed.

Lemma mapiFrom_fst {A B : Type} (f : A -> string) (g : A -> nat -> B)
  (l : list A) (i : nat) :
  map fst (mapiFrom (fun x k => (f x, g x k)) i l) = map f l.
Proof.
  revert i. induction l as [|x rest IH]; intros i; simpl; [reflexivity|].
  now rewrite IH.
Qed.

(** The field list of a parsed row is fixed by the header. *)
Lemma parseRow_keys (names : list string) (line : string) :
  keys (Upload.parseRow names line)
  = Upload.keyOrder (Upload.distinctNames names).
Proof.
  unfold Upload.parseRow, Upload.fromEntries, keys, Upload.distinctNames.
  rewrite entries_keys, fold_set_keys. unfold mapi.
  now rewrite (mapiFrom_fst trim).
Qed.

Lemma fold_addWord_In (ws acc : list string) (w : string) :
  In w (fold_left addWord ws acc) <-> In w acc \/ In w ws.
Proof.
  revert acc. induction ws as [|x rest IH]; intros acc; simpl.
  - intuition.
  - rewrite IH, addWord_In. intuition.
Qed.

Lemma fold_addWord_NoDup (ws acc : list string) :
  NoDup acc -> NoDup (fold_left addWord ws acc).
Proof.
  revert acc. induction ws as [|x rest IH]; intros acc H; simpl; [exact H|].
  apply IH. now apply addWord_NoDup.
Qed.

Lemma linesOf_cases (text : string) :
  Upload.linesOf text = []
  <-> forall line, In line (Upload.splitOn Upload.lineFeed text) -> line = "".
Proof.
  unfold Upload.linesOf. split.
  - intros H line Hline.
    destruct (String.eqb line "") eqn:E; [now apply String.eqb_eq|].
    assert (Hin : In line (filter Upload.nonEmpty
                                  (Upload.splitOn Upload.lineFeed text))).
    { apply filter_In. split; [exact Hline|].
      unfold Upload.nonEmpty. now rewrite E. }
    rewrite H in Hin. contradiction.
  - intros H. apply filter_none. intros line Hline.
    unfold Upload.nonEmpty. rewrite (H line Hline). reflexivity.
Qed.

(** A name that ends in [.csv] does not end in [.json]. *)
Lemma csv_not_json (fileName : string) :
  Upload.endsWith fileName ".csv" = true ->
  Upload.endsWith fileName ".json" = false.
Proof.
  unfold Upload.endsWith.
  change (rev (chars ".csv")) with ["v"; "s"; "c"; "."]%char.
  change (rev (chars ".json")) with ["n"; "o"; "s"; "j"; "."]%char.
  destruct (rev (chars fileName)) as [|c rest]; cbn [Upload.startsWith];
    [discriminate|].
  destruct (Ascii.eqb "v" c) eqn:E; [|discriminate].
  intros _. apply Ascii.eqb_eq in E. subst c. reflexivity.
Qed.

(** What the upload of a file that is not named [*.json] does.  For a name
    that ends in [.csv] the number of non-empty lines decides: none gives the
    parse alert, a header alone adds nothing, and otherwise the dataset added
    has one record per non-empty line after the header and is named after the
    file.  For any other name nothing is parsed and nothing is added. *)
Theorem handleFileUpload_result (parseJson : string -> Upload.Parsed)
  (fileName text : string) :
  Upload.endsWith fileName ".json" = false ->
  match Upload.handleFileUpload parseJson fileName text with
  | Upload.Alert =>
      Upload.endsWith fileName ".csv" = true
      /\ forall line, In line (Upload.splitOn Upload.lineFeed text) -> line = ""
  | Upload.Ignored =>
      Upload.endsWith fileName ".csv" = false
      \/ List.length (Upload.linesOf text) = 1
  | Upload.AddDataset name recordCount dataRows =>
      Upload.endsWith fileName ".csv" = true
      /\ name = fileName
      /\ recordCount = List.length dataRows
      /\ 0 < recordCount
      /\ recordCount + 1 = List.length (Upload.linesOf text)
  end.
Proof.
  intros Hjson. unfold Upload.handleFileUpload. rewrite Hjson.
  destruct (Upload.endsWith fileName ".csv"); [|now left].
  unfold Upload.parseCsv.
  destruct (Upload.linesOf text) as [|header rows] eqn:L.
  - split; [reflexivity|]. now apply linesOf_cases.
  - destruct rows as [|row rest]; simpl.
    + now right.
    + rewrite length_map. repeat split; lia.
Qed.

Lemma handleFileUpload_result_witness :
  let text := ("name,age" ++ String (ascii_of_nat 10) "Ann,7")%string in
  Upload.handleFileUpload (fun _ => Upload.Failed) "pets.csv" text
  = Upload.AddDataset "pets.csv" 1 [[("name", VStr "Ann"); ("age", VStr "7")]]
  /\ (Upload.endsWith "pets.csv" ".csv" = true
      /\ "pets.csv" = "pets.csv"
      /\ 1 = 1
      /\ 0 < 1
      /\ 1 + 1 = List.length (Upload.linesOf text)).
Proof.
  intros text. split; [reflexivity|].
  exact (handleFileUpload_result (fun _ => Upload.Failed) "pets.csv" text
           eq_refl).
Defined.

(** A file named [*.json] is handed to [JSON.parse], whatever it holds, and
    a file named neither way adds nothing. *)
Example handleFileUpload_dispatch :
  let csvText := ("name" ++ String (ascii_of_nat 10) "Ann")%string in
  Upload.handleFileUpload (fun _ => Upload.Failed) "pets.json" csvText
  = Upload.Alert
  /\ Upload.handleFileUpload (fun _ => Upload.Failed) "pets.txt" csvText
     = Upload.Ignored.
Proof. split; reflexivity. Qed.

(** All the rows read from one file have the same field list, without
    repeats: the trimmed names of the header, each once. *)
Theorem parseCsv_fields (text : string) (dataRows : list record) :
  Upload.parseCsv text = Upload.Rows dataRows ->
  exists header fields,
    hd_error (Upload.linesOf text) = Some header
    /\ NoDup fields
    /\ (forall k, In k fields
                  <-> In k (map trim (Upload.splitOn Upload.comma header)))
    /\ Forall (fun row => keys row = fields) dataRows.
Proof.
  unfold Upload.parseCsv.
  destruct (Upload.linesOf text) as [|header rows]; [discriminate|].
  intros [= <-].
  set (names := Upload.splitOn Upload.comma header).
  exists header, (Upload.keyOrder (Upload.distinctNames names)).
  split; [reflexivity|]. split; [|split].
  - eapply Permutation_NoDup; [symmetry; apply keyOrder_perm|].
    unfold Upload.distinctNames. apply fold_addWord_NoDup. constructor.
  - intros k. split.
    + intros H. apply (Permutation_in _ (keyOrder_perm _)) in H.
      unfold Upload.distinctNames in H. apply fold_addWord_In in H.
      destruct H as [[]|H]. exact H.
    + intros H. eapply Permutation_in; [symmetry; apply keyOrder_perm|].
      unfold Upload.distinctNames. apply fold_addWord_In. now right.
  - rewrite Forall_map, Forall_forall. intros line _. apply parseRow_keys.
Qed.

Lemma parseCsv_fields_witness :
  let text := ("b, a ,b" ++ String (ascii_of_nat 10) "1,2,3")%string in
  exists header fields,
    hd_error (Upload.linesOf text) = Some header
    /\ NoDup fields
    /\ (forall k, In k fields
                  <-> In k (map trim (Upload.splitOn Upload.comma header)))
    /\ Forall (fun row => keys row = fields) [[("b", VStr "3"); ("a", VStr "2")]].
Proof.
  intros text. apply (parseCsv_fields text). reflexivity.
Defined.

Lemma getField_get (row : record) (key : string) :
  getField row key
  = match get row key with Some v => v | None => inherited key end.
Proof.
  induction row as [|[k v] rest IH]; simpl; [reflexivity|].
  now destruct (String.eqb k key).
Qed.

Lemma get_unique {A : Type} (o : object A) (key : string) (v : A) :
  NoDup (map fst o) -> In (key, v) o -> get o key = Some v.
Proof.
  induction o as [|[k w] rest IH]; intros Hnd Hin; [contradiction|].
  simpl in *. inversion Hnd as [|? ? Hk Hrest]; subst.
  destruct Hin as [[= -> ->]|Hin].
  - now rewrite String.eqb_refl.
  - destruct (String.eqb k key) eqn:E; [|now apply IH].
    apply String.eqb_eq in E. subst k. exfalso. apply Hk.
    apply in_map_iff. now exists (key, v).
Qed.

Lemma fold_set_skip {A : Type} (pairs : list (string * A)) (o : object A)
  (key : string) :
  ~ In key (map fst pairs) ->
  get (fold_left (fun acc p => set acc (fst p) (snd p)) pairs o) key = get o key.
Proof.
  revert o. induction pairs as [|[k v] rest IH]; intros o H; simpl; [reflexivity|].
  simpl in H. rewrite IH by tauto. rewrite get_set.
  destruct (String.eqb k key) eqn:E; [|reflexivity].
  apply String.eqb_eq in E. tauto.
Qed.

(** Of the pairs with one name, [Object.fromEntries] keeps the last. *)
Lemma fromEntries_last (before rest : list (string * value)) (key : string)
  (v : value) :
  ~ In key (map fst rest) ->
  getField (Upload.fromEntries (before ++ (key, v) :: rest)) key = v.
Proof.
  intros H. unfold Upload.fromEntries. rewrite getField_get.
  set (o := fold_left _ _ _).
  assert (Hget : get o key = Some v).
  { subst o. rewrite fold_left_app. cbn [fold_left fst snd].
    rewrite fold_set_skip by exact H. rewrite get_set.
    now rewrite String.eqb_refl. }
  assert (Hnd : NoDup (map fst (entries o))).
  { rewrite entries_keys.
    eapply Permutation_NoDup; [symmetry; apply keyOrder_perm|].
    subst o. rewrite fold_set_keys. apply fold_addWord_NoDup. constructor. }
  rewrite (get_unique (entries o) key v Hnd); [reflexivity|].
  eapply Permutation_in; [symmetry; apply entries_perm|].
  now apply get_In.
Qed.

Lemma mapiFrom_app {A B : Type} (f : A -> nat -> B) (l1 l2 : list A) (i : nat) :
  mapiFrom f i (l1 ++ l2)
  = mapiFrom f i l1 ++ mapiFrom f (i + List.length l1) l2.
Proof.
  revert i. induction l1 as [|x rest IH]; intros i; simpl.
  - now rewrite Nat.add_0_r.
  - rewrite IH. do 3 f_equal. lia.
Qed.

Lemma set_values (P : value -> Prop) (o : object value) (key : string) (v : value) :
  Forall (fun e => P (snd e)) o -> P v ->
  Forall (fun e => P (snd e)) (set o key v).
Proof.
  intros H Hv. induction H as [|[k w] rest Hk Hrest IH]; simpl.
  - repeat constructor. exact Hv.
  - destruct (String.eqb k key); constructor; auto.
Qed.

Lemma fromEntries_values (P : value -> Prop) (pairs : list (string * value)) :
  Forall (fun e => P (snd e)) pairs ->
  Forall (fun e => P (snd e)) (Upload.fromEntries pairs).
Proof.
  intros H. unfold Upload.fromEntries.
  eapply Permutation_Forall; [symmetry; apply entries_perm|].
  assert (G : forall o, Forall (fun e => P (snd e)) o ->
                Forall (fun e => P (snd e))
                       (fold_left (fun acc p => set acc (fst p) (snd p)) pairs o)).
  { induction H as [|[k v] rest Hk Hrest IH]; intros o Ho; simpl; [exact Ho|].
    apply IH. now apply set_values. }
  apply G. constructor.
Qed.

Lemma cell_cases (values : list string) (i : nat) :
  Upload.cell values i = VUndefined \/ exists s, Upload.cell values i = VStr s.
Proof.
  unfold Upload.cell. destruct (nth_error values i); [right; eauto|now left].
Qed.

Lemma mapiFrom_cells (values names : list string) (n : nat) :
  Forall (fun e => snd e = VUndefined \/ exists s, snd e = VStr s)
         (mapiFrom (fun k i => (trim k, Upload.cell values i)) n names).
Proof.
  revert n. induction names as [|k rest IH]; intros n; simpl; constructor.
  - apply cell_cases.
  - apply IH.
Qed.

(** The cell of a parsed row under a header name is the trimmed cell of the
    line at the position of the last header cell with that trimmed name, or
    [undefined] when the line is too short; no cell is ever null, a number or
    a boolean. *)
Theorem parseRow_cells (names : list string) (line : string) (i : nat)
  (name : string) :
  nth_error names i = Some name ->
  (forall j other, i < j -> nth_error names j = Some other ->
     trim other <> trim name) ->
  let row := Upload.parseRow names line in
  let values := Upload.splitOn Upload.comma line in
  getField row (trim name)
  = match nth_error values i with
    | Some v => VStr (trim v)
    | None => VUndefined
    end
  /\ Forall (fun e => snd e = VUndefined \/ exists s, snd e = VStr s) row.
Proof.
  intros Hname Hlast row values. subst row. unfold Upload.parseRow.
  fold values. split.
  - destruct (nth_error_split names i Hname) as [l1 [l2 [Hnames Hlen]]].
    unfold mapi. rewrite Hnames, mapiFrom_app. cbn [mapiFrom plus].
    rewrite Hlen. cbn [Nat.add].
    rewrite fromEntries_last; [reflexivity|].
    rewrite (mapiFrom_fst trim). intros Hin.
    apply in_map_iff in Hin. destruct Hin as [other [Heq Hother]].
    apply In_nth_error in Hother. destruct Hother as [j Hj].
    apply (Hlast (S i + j) other); [lia| |exact Heq].
    rewrite Hnames, nth_error_app2 by lia.
    replace (S i + j - List.length l1) with (S j) by lia. exact Hj.
  - apply (fromEntries_values
             (fun v => v = VUndefined \/ exists s, v = VStr s)).
    apply mapiFrom_cells.
Qed.

Lemma parseRow_cells_witness :
  let names := ["id"; " name "; "id"] in
  let row := Upload.parseRow names "7,Ann" in
  let values := Upload.splitOn Upload.comma "7,Ann" in
  getField row (trim "id")
  = match nth_error values 2 with
    | Some v => VStr (trim v)
    | None => VUndefined
    end
  /\ Forall (fun e => snd e = VUndefined \/ exists s, snd e = VStr s) row.
Proof.
  intros names.
  apply (parseRow_cells names "7,Ann" 2 "id").
  - reflexivity.
  - intros j other Hj Hnth. exfalso.
    assert (H : nth_error names j = None) by (apply nth_error_None; simpl; lia).
    rewrite H in Hnth. discriminate Hnth.
Defined.

(** The rows read from the lines ",n" and ",5": the first field has the
    empty name. *)
Example parseCsv_blank_header :
  Upload.parseCsv (",n" ++ String (ascii_of_nat 10) ",5")%string
  = Upload.Rows [[("", VStr ""); ("n", VStr "5")]].
Proof. reflexivity. Qed.

Lemma find_ext_in {A : Type} (f g : A -> bool) (l : list A) :
  (forall a, In a l -> f a = g a) -> find f l = find g l.
Proof.
  induction l as [|a rest IH]; intros H; simpl; [reflexivity|].
  rewrite (H a (or_introl eq_refl)). destruct (g a); [reflexivity|].
  apply IH. intros b Hb. apply H. now right.
Qed.

(** The cell under a name the row owns is one of its own cells. *)
Lemma getField_own (row : record) (key : string) :
  In key (keys row) -> In (key, getField row key) row.
Proof.
  unfold keys. induction row as [|[k v] rest IH]; simpl; [tauto|].
  intros H. destruct (String.eqb k key) eqn:E.
  - apply String.eqb_eq in E. subst k. now left.
  - right. apply IH. destruct H as [H|H]; [|exact H].
    subst k. now rewrite String.eqb_refl in E.
Qed.

(** In a row read from a CSV file every cell that is present is a string,
    numbers included: the text field the chat indexes is the first field, in
    key order, that the first row has a cell for. *)
Theorem parseRow_text_field (names : list string) (line : string) :
  let sample := Upload.parseRow names line in
  Indexer.textFieldOf sample
  = find (fun k => match getField sample k with
                   | VUndefined => false
                   | _ => true
                   end)
         (keys sample).
Proof.
  intros sample. unfold Indexer.textFieldOf.
  assert (Hcells : Forall (fun e => snd e = VUndefined \/ exists s, snd e = VStr s)
                          sample).
  { apply (fromEntries_values
             (fun v => v = VUndefined \/ exists s, v = VStr s)).
    apply mapiFrom_cells. }
  apply find_ext_in. intros k Hk.
  pose proof (getField_own sample k Hk) as Hin.
  rewrite Forall_forall in Hcells. specialize (Hcells _ Hin). simpl in Hcells.
  destruct Hcells as [E|[s E]]; now rewrite E.
Qed.

(* ================================================================== *)
(** ** The colours of the charts *)
(* ================================================================== *)

Lemma distributionData_labels_le (data : list record) :
  List.length (labels (distributionData data)) <= 8.
Proof.
  unfold distributionData.
  destruct (truthyField (categoricalField data)) as [field|]; simpl.
  - rewrite length_map. apply (slice0_le _ 8).
  - lia.
Qed.

Lemma distributionData_values_length (data : list record) :
  List.length (values (distributionData data))
  = List.length (labels (distributionData data)).
Proof.
  unfold distributionData.
  destruct (truthyField (categoricalField data)) as [field|]; simpl.
  - now rewrite !length_map.
  - reflexivity.
Qed.

(** A bar, pie or doughnut chart of any analysis has a colour and a border
    colour for each of its first 8 labels and none for the others; for an
    analysis computed in the browser that is every label, and every value. *)
Theorem getChartData_colours (analysisData : AnalysisData)
  (activeChart : Dashboard.ChartKind) :
  activeChart <> Dashboard.Line ->
  exists labels data backgroundColor borderColor borderWidth,
    Dashboard.getChartData (Some analysisData) activeChart
    = Some (Dashboard.Slices labels data backgroundColor borderColor borderWidth)
    /\ labels = Profiler.labels (distribution analysisData)
    /\ List.length backgroundColor = Nat.min 8 (List.length labels)
    /\ List.length borderColor = Nat.min 8 (List.length labels)
    /\ (forall random rows,
          analysisData = analyzeFrontendData random rows ->
          List.length backgroundColor = List.length labels
          /\ List.length data = List.length labels).
Proof.
  intros Hkind.
  assert (Hslices : forall w,
            exists labels data backgroundColor borderColor,
              Dashboard.slices analysisData w
              = Dashboard.Slices labels data backgroundColor borderColor w
              /\ labels = Profiler.labels (distribution analysisData)
              /\ List.length backgroundColor = Nat.min 8 (List.length labels)
              /\ List.length borderColor = Nat.min 8 (List.length labels)
              /\ (forall random rows,
                    analysisData = analyzeFrontendData random rows ->
                    List.length backgroundColor = List.length labels
                    /\ List.length data = List.length labels)).
  { intros w. unfold Dashboard.slices.
    set (labels := Profiler.labels (distribution analysisData)).
    assert (Hbg : List.length (slice0 Dashboard.colors (Z.of_nat (List.length labels)))
                  = Nat.min 8 (List.length labels)).
    { rewrite slice0_length by lia. rewrite Nat2Z.id. simpl List.length. lia. }
    do 4 eexists. split; [reflexivity|]. split; [reflexivity|].
    split; [exact Hbg|]. split; [now rewrite length_map|].
    intros random rows ->. subst labels. rewrite Hbg.
    destruct rows as [|first rest]; [split; reflexivity|].
    cbn [analyzeFrontendData distribution].
    pose proof (distributionData_labels_le (first :: rest)).
    split; [lia|apply distributionData_values_length]. }
  destruct activeChart; [contradiction| | |]; simpl;
    [destruct (Hslices 1) as [l [d [bg [bd H]]]]
    |destruct (Hslices 2) as [l [d [bg [bd H]]]]
    |destruct (Hslices 2) as [l [d [bg [bd H]]]]];
    exists l, d, bg, bd; eexists; destruct H as [-> H]; split; eauto.
Qed.

Lemma getChartData_colours_witness :
  let analysisData :=
    analyzeFrontendData (fun _ => 0%Q) [[("a", VStr "x")]] in
  exists labels data backgroundColor borderColor borderWidth,
    Dashboard.getChartData (Some analysisData) Dashboard.Pie
    = Some (Dashboard.Slices labels data backgroundColor borderColor borderWidth)
    /\ labels = Profiler.labels (distribution analysisData)
    /\ List.length backgroundColor = Nat.min 8 (List.length labels)
    /\ List.length borderColor = Nat.min 8 (List.length labels)
    /\ (forall random rows,
          analysisData = analyzeFrontendData random rows ->
          List.length backgroundColor = List.length labels
          /\ List.length data = List.length labels).
Proof.
  intros analysisData.
  apply (getChartData_colours analysisData Dashboard.Pie). discriminate.
Defined.

Example border_colours :
  map (Dashboard.replace "0.8" "1") Dashboard.colors
  = ["rgba(59, 130, 246, 1)"; "rgba(16, 185, 129, 1)"; "rgba(245, 101, 101, 1)";
     "rgba(251, 191, 36, 1)"; "rgba(139, 92, 246, 1)"; "rgba(236, 72, 153, 1)";
     "rgba(20, 184, 166, 1)"; "rgba(248, 113, 113, 1)"].
Proof. reflexivity. Qed.

(* ================================================================== *)
(** ** The profile reads the fields of the first record only *)
(* ================================================================== *)

Lemma fold_left_ext_in {A B : Type} (f g : B -> A -> B) (l : list A) (x : B) :
  (forall acc a, In a l -> f acc a = g acc a) ->
  fold_left f l x = fold_left g l x.
Proof.
  revert x. induction l as [|a rest IH]; intros x H; simpl; [reflexivity|].
  rewrite (H x a (or_introl eq_refl)). apply IH.
  intros acc b Hb. apply H. now right.
Qed.

Lemma summarizeField_column (data data' : list record) (s : Summary) (field : string) :
  column data field = column data' field ->
  summarizeField data s field = summarizeField data' s field.
Proof.
  intros H. unfold summarizeField, isNumeric, numberValues, nonNullValues.
  now rewrite H.
Qed.

Lemma trendValues_column (random : nat -> Q) (data : list record) :
  trendValues random data
  = match truthyField (numericField data) with
    | Some field =>
        map (fun v => orZero (Number v)) (firstn 10 (column data field))
    | None => randomSeries random
    end.
Proof.
  unfold trendValues. destruct (truthyField (numericField data)); [|reflexivity].
  rewrite slice0_nonneg by lia. unfold column.
  now rewrite firstn_map, map_map.
Qed.

Lemma counts_column (data : list record) (field : string) :
  counts data field
  = fold_left (fun acc v =>
                 assign acc (toString v) (nextTally acc (toString v)))
              (column data field) [].
Proof.
  unfold counts, column. rewrite fold_left_map. reflexivity.
Qed.

(** The profile is a function of the number of records and of the columns
    of the fields of the first record: two record lists that agree on these
    have the same profile, whatever other fields their records hold. *)
Theorem analyzeFrontendData_first_record_fields (random : nat -> Q)
  (data data' : list record) :
  fieldsOf data = fieldsOf data' ->
  (forall field, In field (fieldsOf data) ->
     column data field = column data' field) ->
  List.length data = List.length data' ->
  analyzeFrontendData random data = analyzeFrontendData random data'.
Proof.
  intros Hfields Hcol Hlen.
  destruct data as [|first rest], data' as [|first' rest'];
    try discriminate Hlen; [reflexivity|].
  assert (Hnum : numericField (first :: rest) = numericField (first' :: rest')).
  { unfold numericField. rewrite <- Hfields. apply find_ext_in.
    intros f Hf. unfold hasNumber. now rewrite (Hcol f Hf). }
  assert (Hcat : categoricalField (first :: rest)
                 = categoricalField (first' :: rest')).
  { unfold categoricalField. rewrite <- Hfields. apply find_ext_in.
    intros f Hf. unfold isCategorical. now rewrite (Hcol f Hf), Hlen. }
  unfold analyzeFrontendData. f_equal.
  - rewrite <- Hfields, Hlen. apply fold_left_ext_in.
    intros acc f Hf. apply summarizeField_column. now apply Hcol.
  - f_equal.
    + now rewrite !trendLabels_spec, Hlen.
    + rewrite !trendValues_column, <- Hnum.
      destruct (truthyField (numericField (first :: rest))) as [f|] eqn:F;
        [|reflexivity].
      apply truthyField_some in F. destruct F as [F _].
      unfold numericField in F. apply find_some in F.
      now rewrite (Hcol f (proj1 F)).
  - unfold distributionData. rewrite <- Hcat.
    destruct (truthyField (categoricalField (first :: rest))) as [f|] eqn:F;
      [|reflexivity].
    apply truthyField_some in F. destruct F as [F _].
    unfold categoricalField in F. apply find_some in F.
    unfold sortedEntries. rewrite !counts_column.
    now rewrite (Hcol f (proj1 F)).
Qed.

Lemma analyzeFrontendData_first_record_fields_witness :
  analyzeFrontendData (fun _ => 0%Q)
    [[("a", VStr "1")]; [("a", VStr "2"); ("b", VStr "x")]]
  = analyzeFrontendData (fun _ => 0%Q)
      [[("a", VStr "1")]; [("a", VStr "2")]].
Proof.
  apply analyzeFrontendData_first_record_fields.
  - reflexivity.
  - intros field [<-|[]]. reflexivity.
  - reflexivity.
Defined.
